(** * nanoCAD: the line interpreter of [src/nanocad.c]

    A shallow embedding of the tokenizer ([parse_line]), the unit converter
    ([to_base_unit]), the coordinate parser ([parse_coordinates],
    [calc_coordinate]), the two stores and the dispatcher ([create_object],
    [set_variable], [parse_command]), followed by the properties of the
    specification that concern them.

    Conventions of the embedding.
    - A [const char *] argument is a [string]; a loop that runs until the
      terminating NUL stops at the end of the string or at a NUL character,
      whichever comes first.
    - A local [char] array is a list of cells, [None] being a cell that was
      never written.  Writing outside the declared size, reading a cell that
      was never written, signed overflow and an out-of-range conversion are
      undefined behaviour in C: they yield [Undef].
    - [exit(EXIT_FAILURE)] yields [Exit] with a tag for the message printed.
    - [double] is IEEE 754 binary64 ([spec_float] with [prec = 53],
      [emax = 1024]); [long] and [size_t] are 64 bits wide. *)

From Stdlib Require Import ZArith String Ascii List Bool Lia DecimalString.
From Stdlib Require Import Floats.SpecFloat.
From Stdlib Require DecimalN DecimalPos.
Import ListNotations.
Local Open Scope string_scope.
Local Open Scope list_scope.
Local Open Scope Z_scope.

(** ** Outcomes of a C function *)

(** The messages printed before [exit(EXIT_FAILURE)]. *)
Inductive fatal : Type :=
| InvalidNumberChar (c : ascii)        (* "Invalid character found while trying to parse a number" *)
| InvalidUnitChar (c : ascii)          (* "Invalid character found while trying to parse a unit" *)
| InvalidUnit (u : string)             (* "Invalid unit" *)
| UnknownFirstCoordLetter (c : ascii)  (* "Unknown first coordinate letter" *)
| UnknownNextArgStart (c : ascii)      (* "Unknown next argument start for coordinate" *)
| InvalidCoordOperation (c : ascii)    (* "Invalid coordinate operation" *)
| BadObjectIndex                       (* "Couldn't parse object index when assigning to variable." *)
| InvalidVariableType (c : ascii) (name : string). (* "Invalid variable type" *)

Inductive undefined : Type :=
| IndeterminateRead   (* a cell or pointer that was never written is read *)
| OutOfBounds         (* an array is indexed outside its declared size *)
| SignedOverflow      (* [long] arithmetic leaves the range of [long] *)
| ConversionRange     (* a value does not fit the type it is converted to *)
| OutsideModel.       (* a libc input this development does not model *)

Inductive outcome (A : Type) : Type :=
| Ret (a : A)
| Exit (f : fatal)
| Undef (u : undefined).
Arguments Ret {A} a.
Arguments Exit {A} f.
Arguments Undef {A} u.

Definition bind {A B : Type} (m : outcome A) (k : A -> outcome B) : outcome B :=
  match m with
  | Ret a => k a
  | Exit f => Exit f
  | Undef u => Undef u
  end.

Declare Scope outcome_scope.
Delimit Scope outcome_scope with outcome.
Notation "x <- m ;; k" := (bind m (fun x => k))
  (at level 61, m at next level, right associativity) : outcome_scope.
Notation "' p <- m ;; k" := (bind m (fun p => k))
  (at level 61, p pattern, m at next level, right associativity) : outcome_scope.
Local Open Scope outcome_scope.

(** The error kinds of the specification, as classes of messages. *)
Definition UnitError (f : fatal) : Prop :=
  match f with
  | InvalidNumberChar _ | InvalidUnitChar _ | InvalidUnit _ => True
  | _ => False
  end.

Definition CoordinateSyntaxError (f : fatal) : Prop :=
  match f with
  | UnknownFirstCoordLetter _ | UnknownNextArgStart _ | InvalidCoordOperation _ => True
  | _ => False
  end.

(** ** Integer types *)

Definition u8 (z : Z) : Z := z mod 256.       (* uint8_t *)
Definition u16 (z : Z) : Z := z mod 65536.    (* uint16_t *)
Definition to_char (z : Z) : Z := (z + 128) mod 256 - 128.  (* int -> char *)

Definition LONG_MIN : Z := - 2 ^ 63.
Definition LONG_MAX : Z := 2 ^ 63 - 1.
Definition SIZE_MAX : Z := 2 ^ 64 - 1.

Definition in_long (z : Z) : bool := (LONG_MIN <=? z) && (z <=? LONG_MAX).

(** [a + b] on [long]. *)
Definition long_add (a b : Z) : outcome Z :=
  if in_long (a + b) then Ret (a + b) else Undef SignedOverflow.

(** ** Characters *)

Definition code (c : ascii) : Z := Z.of_N (N_of_ascii c).

Definition NUL : ascii := "000"%char.
Definition is_nul (c : ascii) : bool := code c =? 0.

(** [isspace] in the C locale: space (32) and the codes 9 to 13. *)
Definition isspace (c : ascii) : bool :=
  (code c =? 32) || ((9 <=? code c) && (code c <=? 13)).

Definition is_digit (c : ascii) : bool := (48 <=? code c) && (code c <=? 57).
Definition is_lower (c : ascii) : bool := (97 <=? code c) && (code c <=? 122).

(** ** Arrays *)

Section Cells.
Context {A : Type}.

(** An array of [A]: cell [i] is [nth_error] at [i]; a cell beyond the end of
    the list has not been written yet. *)
Definition cells : Type := list (option A).

Fixpoint set_cell (b : cells) (n : nat) (x : A) : cells :=
  match n, b with
  | O, [] => [Some x]
  | O, _ :: t => Some x :: t
  | S n', [] => None :: set_cell [] n' x
  | S n', y :: t => y :: set_cell t n' x
  end.

(** [b[i] = x] for an array declared with [cap] elements. *)
Definition store (cap : Z) (b : cells) (i : Z) (x : A) : outcome cells :=
  if (0 <=? i) && (i <? cap) then Ret (set_cell b (Z.to_nat i) x)
  else Undef OutOfBounds.

(** The value of [b[i]]. *)
Definition load (cap : Z) (b : cells) (i : Z) : outcome A :=
  if (0 <=? i) && (i <? cap) then
    match nth_error b (Z.to_nat i) with
    | Some (Some x) => Ret x
    | _ => Undef IndeterminateRead
    end
  else Undef OutOfBounds.

(** The contents of the cell [b[i]], written or not: what passing
    [b[i]] to a function hands over. *)
Definition load_cell (cap : Z) (b : cells) (i : Z) : outcome (option A) :=
  if (0 <=? i) && (i <? cap) then
    match nth_error b (Z.to_nat i) with
    | Some c => Ret c
    | None => Ret None
    end
  else Undef OutOfBounds.

(** The use of a value handed over that way. *)
Definition deref (p : option A) : outcome A :=
  match p with
  | Some x => Ret x
  | None => Undef IndeterminateRead
  end.

End Cells.
Arguments cells A : clear implicits.

Definition buffer : Type := cells ascii.

(** The C string held by a buffer: the characters before the first NUL. *)
Fixpoint load_string (b : buffer) : outcome string :=
  match b with
  | Some c :: t =>
      if is_nul c then Ret ""
      else s <- load_string t ;; Ret (String c s)
  | _ => Undef IndeterminateRead
  end.

(** [buf[pos++] = c;] followed by [buf[pos] = NUL;], where [pos] has an
    unsigned type reduced by [wrap]. *)
Definition append_char (cap : Z) (wrap : Z -> Z) (buf : buffer) (pos : Z)
    (c : ascii) : outcome (buffer * Z) :=
  b1 <- store cap buf pos c ;;
  let pos' := wrap (pos + 1) in
  b2 <- store cap b1 pos' NUL ;;
  Ret (b2, pos').

(** [chomp]: every position below [strlen(str)], from the last one down,
    that holds a white-space character is overwritten with NUL. *)
Fixpoint chomp_from (b : buffer) (n : nat) : buffer :=
  match n with
  | O => b
  | S i =>
      match nth_error b i with
      | Some (Some c) => chomp_from (if isspace c then set_cell b i NUL else b) i
      | _ => chomp_from b i
      end
  end.

Definition chomp (str : buffer) : outcome buffer :=
  s <- load_string str ;;
  Ret (chomp_from str (String.length s)).

(** ** The C library

    [atof], [sscanf] with [%zu] and [snprintf] with [%lu] belong to libc.
    They are modelled after the C standard, in the C locale. *)

Fixpoint skip_space (s : string) : string :=
  match s with
  | String c r => if isspace c then skip_space r else s
  | EmptyString => s
  end.

(** An optional sign: [true] for a minus. *)
Definition read_sign (s : string) : bool * string :=
  match s with
  | String c r =>
      if code c =? 45 then (true, r)
      else if code c =? 43 then (false, r)
      else (false, s)
  | EmptyString => (false, s)
  end.

(** The leading decimal digits of [s]: their value continuing [acc], their
    number added to [n], and what follows them. *)
Fixpoint read_digits (s : string) (acc n : Z) : Z * Z * string :=
  match s with
  | String c r =>
      if is_digit c then read_digits r (10 * acc + (code c - 48)) (n + 1)
      else (acc, n, s)
  | EmptyString => (acc, n, s)
  end.

(** An exponent part [e] or [E], optional sign, at least one digit;
    0 when there is none or it is incomplete. *)
Definition read_exponent (s : string) : Z :=
  match s with
  | String c r =>
      if (code c =? 101) || (code c =? 69) then
        let '(neg, r1) := read_sign r in
        let '(e, n, _) := read_digits r1 0 0 in
        if n =? 0 then 0 else if neg then - e else e
      else 0
  | EmptyString => 0
  end.

(** The binary64 number nearest to [m * 10 ^ e10] (ties to even), negated
    when [neg]. *)
Definition b64_of_decimal (neg : bool) (m e10 : Z) : spec_float :=
  match m with
  | Zpos p =>
      if 0 <=? e10 then
        binary_round 53 1024 neg (p * Z.to_pos (10 ^ e10)) 0
      else
        SFdiv 53 1024 (S754_finite neg p 0)
          (S754_finite false (Z.to_pos (10 ^ (- e10))) 0)
  | _ => S754_zero neg
  end.

(** Hexadecimal, infinity and NaN spellings are left out of the model. *)
Definition outside_decimal (s : string) : bool :=
  match s with
  | String c (String d _) =>
      ((code c =? 48) && ((code d =? 120) || (code d =? 88)))
      || (code c =? 105) || (code c =? 73) || (code c =? 110) || (code c =? 78)
  | String c EmptyString =>
      (code c =? 105) || (code c =? 73) || (code c =? 110) || (code c =? 78)
  | EmptyString => false
  end.

(** [atof(nptr)]: white space, an optional sign, digits with an optional
    decimal point, an optional exponent; what follows is ignored; +0 when
    there is no digit. *)
Definition atof (nptr : string) : outcome spec_float :=
  let '(neg, s1) := read_sign (skip_space nptr) in
  if outside_decimal s1 then Undef OutsideModel
  else
    let '(ip, ni, s2) := read_digits s1 0 0 in
    let '(m, nf, s3) :=
      match s2 with
      | String c r => if code c =? 46 then read_digits r ip 0 else (ip, 0, s2)
      | EmptyString => (ip, 0, s2)
      end in
    if ni + nf =? 0 then Ret (S754_zero false)
    else Ret (b64_of_decimal neg m (read_exponent s3 - nf)).

(** [sscanf(s, "%zu", &x)]: [Some x] when it returns 1. *)
Definition sscanf_zu (s : string) : outcome (option Z) :=
  let '(neg, s1) := read_sign (skip_space s) in
  let '(v, n, _) := read_digits s1 0 0 in
  if n =? 0 then Ret None
  else if SIZE_MAX <? v then Undef ConversionRange
  else Ret (Some (if neg then (- v) mod 2 ^ 64 else v)).

(** [snprintf(buf, size, "%lu", n)]: the decimal digits of [n], cut to
    [size - 1] characters. *)
Definition snprintf_lu (size n : Z) : outcome string :=
  if size <=? 0 then Undef OutOfBounds
  else
    Ret (substring 0 (Z.to_nat (size - 1))
           (NilZero.string_of_uint (N.to_uint (Z.to_N n)))).

(** Conversions and arithmetic on [double]. *)
Definition double_of_int (n : Z) : spec_float := binary_normalize 53 1024 n 0 false.

Definition double_mul (x y : spec_float) : spec_float := SFmul 53 1024 x y.

(** [(long)x]: the fractional part is discarded. *)
Definition long_of_double (x : spec_float) : outcome Z :=
  match x with
  | S754_zero _ => Ret 0
  | S754_finite s m e =>
      let a := if 0 <=? e then Zpos m * 2 ^ e else Zpos m / 2 ^ (- e) in
      let z := if s then - a else a in
      if in_long z then Ret z else Undef ConversionRange
  | _ => Undef ConversionRange
  end.

(** ** Parsing stages *)

Inductive stage : Type :=
| PARSING_START
| PARSING_COMMAND
| PARSING_ARGUMENTS
| PARSING_COORDX
| PARSING_COORDY
| PARSING_WIDTH
| PARSING_HEIGHT
| PARSING_NUMBER
| PARSING_UNIT
| PARSING_SET_OBJVAR.

Section Engine.

(** The sizes come from [nanocad.h], which is not among the sources: they
    are parameters of the development. *)
Variable COMMAND_MAX_SIZE : Z.
Variable ARGUMENT_MAX_SIZE : Z.
Variable ARGUMENT_ARRAY_MAX_SIZE : Z.
Variable VARIABLE_MAX_SIZE : Z.

(** ** [to_base_unit] *)

Record tbu_state : Type := {
  tbu_stage : stage;
  tbu_cur_pos : Z;        (* uint8_t cur_pos *)
  tbu_unit : buffer;      (* char unit[3] *)
  tbu_strnum : buffer     (* char strnum[ARGUMENT_MAX_SIZE] *)
}.

(** The body of the [switch] for one character.  The comparisons are made
    on the character code; for a code above 127 none of them holds, whether
    [char] is signed or not. *)
Definition tbu_step (c : ascii) (st : tbu_state) : outcome tbu_state :=
  match tbu_stage st with
  | PARSING_NUMBER =>
      if ((48 <=? code c) && (code c <=? 57)) || ((43 <=? code c) && (code c <=? 46))
      then
        '(b, p) <- append_char ARGUMENT_MAX_SIZE u8 (tbu_strnum st) (tbu_cur_pos st) c ;;
        Ret {| tbu_stage := PARSING_NUMBER; tbu_cur_pos := p;
               tbu_unit := tbu_unit st; tbu_strnum := b |}
      else if (97 <=? code c) && (code c <=? 122) then
        '(b, p) <- append_char 3 u8 (tbu_unit st) 0 c ;;
        Ret {| tbu_stage := PARSING_UNIT; tbu_cur_pos := p;
               tbu_unit := b; tbu_strnum := tbu_strnum st |}
      else Exit (InvalidNumberChar c)
  | PARSING_UNIT =>
      if (97 <=? code c) && (code c <=? 122) then
        '(b, p) <- append_char 3 u8 (tbu_unit st) (tbu_cur_pos st) c ;;
        Ret {| tbu_stage := PARSING_UNIT; tbu_cur_pos := p;
               tbu_unit := b; tbu_strnum := tbu_strnum st |}
      else Exit (InvalidUnitChar c)
  | _ => Ret st
  end.

Fixpoint tbu_scan (str : string) (st : tbu_state) : outcome tbu_state :=
  match str with
  | String c rest =>
      if is_nul c then Ret st
      else st' <- tbu_step c st ;; tbu_scan rest st'
  | EmptyString => Ret st
  end.

(** On entry [unit[0]] is NUL and [strnum] is left as it is. *)
Definition tbu_init : tbu_state :=
  {| tbu_stage := PARSING_NUMBER; tbu_cur_pos := 0;
     tbu_unit := [Some NUL]; tbu_strnum := [] |}.

(** The conversion after the scan. *)
Definition tbu_convert (st : tbu_state) : outcome Z :=
  strnum <- load_string (tbu_strnum st) ;;
  orig <- atof strnum ;;
  u0 <- load 3 (tbu_unit st) 0 ;;
  if is_nul u0 then long_of_double orig
  else
    unit <- load_string (tbu_unit st) ;;
    if (unit =? "m")%string then long_of_double (double_mul orig (double_of_int 1000))
    else if (unit =? "cm")%string then long_of_double (double_mul orig (double_of_int 10))
    else if (unit =? "mm")%string then long_of_double orig
    else Exit (InvalidUnit unit).

Definition to_base_unit (str : string) : outcome Z :=
  st <- tbu_scan str tbu_init ;;
  tbu_convert st.

(** ** Coordinates *)

Record coord_t : Type := { x : Z; y : Z }.   (* long x, y *)

(** [calc_coordinate(oper, base, coord)], returning the updated [*coord]. *)
Definition calc_coordinate (oper : ascii) (base coord : coord_t) : outcome coord_t :=
  if (oper =? "w")%char then
    cx <- long_add (x coord) (x base) ;;
    Ret {| x := cx; y := y base |}
  else if (oper =? "h")%char then
    cy <- long_add (y coord) (y base) ;;
    Ret {| x := x base; y := cy |}
  else Exit (InvalidCoordOperation oper).

Record pc_state : Type := {
  pc_stage : stage;
  pc_cur_pos : Z;          (* uint8_t cur_pos *)
  pc_operation : ascii;    (* char operation *)
  pc_coord_x : buffer;     (* char coord_x[ARGUMENT_MAX_SIZE] *)
  pc_coord_y : buffer      (* char coord_y[ARGUMENT_MAX_SIZE] *)
}.

Definition pc_step (c : ascii) (st : pc_state) : outcome pc_state :=
  match pc_stage st with
  | PARSING_START =>
      if (c =? "x")%char then
        Ret {| pc_stage := PARSING_COORDX; pc_cur_pos := 0;
               pc_operation := pc_operation st;
               pc_coord_x := pc_coord_x st; pc_coord_y := pc_coord_y st |}
      else if (c =? "w")%char || (c =? "h")%char then
        Ret {| pc_stage := if (c =? "w")%char then PARSING_WIDTH else PARSING_HEIGHT;
               pc_cur_pos := 0;
               pc_operation := c;
               pc_coord_x := pc_coord_x st; pc_coord_y := pc_coord_y st |}
      else Exit (UnknownFirstCoordLetter c)
  | PARSING_COORDX =>
      if (c =? ";")%char then
        Ret {| pc_stage := PARSING_ARGUMENTS; pc_cur_pos := 0;
               pc_operation := pc_operation st;
               pc_coord_x := pc_coord_x st; pc_coord_y := pc_coord_y st |}
      else
        '(b, p) <- append_char ARGUMENT_MAX_SIZE u8 (pc_coord_x st) (pc_cur_pos st) c ;;
        Ret {| pc_stage := PARSING_COORDX; pc_cur_pos := p;
               pc_operation := pc_operation st;
               pc_coord_x := b; pc_coord_y := pc_coord_y st |}
  | PARSING_ARGUMENTS =>
      if (c =? "y")%char then
        Ret {| pc_stage := PARSING_COORDY; pc_cur_pos := 0;
               pc_operation := pc_operation st;
               pc_coord_x := pc_coord_x st; pc_coord_y := pc_coord_y st |}
      else Exit (UnknownNextArgStart c)
  | PARSING_COORDY =>
      '(b, p) <- append_char ARGUMENT_MAX_SIZE u8 (pc_coord_y st) (pc_cur_pos st) c ;;
      Ret {| pc_stage := PARSING_COORDY; pc_cur_pos := p;
             pc_operation := pc_operation st;
             pc_coord_x := pc_coord_x st; pc_coord_y := b |}
  | PARSING_WIDTH =>
      '(b, p) <- append_char ARGUMENT_MAX_SIZE u8 (pc_coord_x st) (pc_cur_pos st) c ;;
      Ret {| pc_stage := PARSING_WIDTH; pc_cur_pos := p;
             pc_operation := pc_operation st;
             pc_coord_x := b; pc_coord_y := pc_coord_y st |}
  | PARSING_HEIGHT =>
      '(b, p) <- append_char ARGUMENT_MAX_SIZE u8 (pc_coord_y st) (pc_cur_pos st) c ;;
      Ret {| pc_stage := PARSING_HEIGHT; pc_cur_pos := p;
             pc_operation := pc_operation st;
             pc_coord_x := pc_coord_x st; pc_coord_y := b |}
  | _ => Ret st
  end.

Fixpoint pc_scan (arg : string) (st : pc_state) : outcome pc_state :=
  match arg with
  | String c rest =>
      if is_nul c then Ret st
      else st' <- pc_step c st ;; pc_scan rest st'
  | EmptyString => Ret st
  end.

(** Both buffers start as the string ["0"]. *)
Definition pc_zero : outcome buffer :=
  b <- store ARGUMENT_MAX_SIZE [] 0 "0"%char ;;
  store ARGUMENT_MAX_SIZE b 1 NUL.

(** [parse_coordinates(coord, arg, base)], returning [*coord]; [base] is
    [None] for a NULL pointer. *)
Definition parse_coordinates (arg : string) (base : option coord_t) : outcome coord_t :=
  zx <- pc_zero ;;
  zy <- pc_zero ;;
  st <- pc_scan arg {| pc_stage := PARSING_START; pc_cur_pos := 0;
                       pc_operation := NUL;
                       pc_coord_x := zx; pc_coord_y := zy |} ;;
  sx <- load_string (pc_coord_x st) ;;
  cx <- to_base_unit sx ;;
  sy <- load_string (pc_coord_y st) ;;
  cy <- to_base_unit sy ;;
  let coord := {| x := cx; y := cy |} in
  match base with
  | Some b =>
      if negb (is_nul (pc_operation st)) then calc_coordinate (pc_operation st) b coord
      else Ret coord
  | None => Ret coord
  end.

(** ** [parse_line] *)

Record pl_state : Type := {
  pl_stage : stage;
  pl_cur_cpos : Z;               (* uint16_t cur_cpos *)
  pl_argc : Z;                   (* int argc *)
  pl_cur_arg : buffer;           (* char cur_arg[ARGUMENT_MAX_SIZE] *)
  pl_command : buffer;           (* the caller's char command[COMMAND_MAX_SIZE] *)
  pl_arguments : cells string    (* the caller's char *argv[ARGUMENT_ARRAY_MAX_SIZE] *)
}.

(** What the body of the loop does: go on with the next character, or
    leave [parse_line] with a [return]. *)
Inductive pl_flow : Type :=
| PlNext (st : pl_state)
| PlReturn (r : Z) (st : pl_state).

Definition is_blank (c : ascii) : bool := (c =? " ")%char || (c =? "009")%char.

(** [chomp(cur_arg); arguments[argc - 1] = strdup(cur_arg);] *)
Definition pl_store_arg (st : pl_state) : outcome pl_state :=
  cur_arg <- chomp (pl_cur_arg st) ;;
  copy <- load_string cur_arg ;;
  arguments <- store ARGUMENT_ARRAY_MAX_SIZE (pl_arguments st) (pl_argc st - 1) copy ;;
  Ret {| pl_stage := pl_stage st; pl_cur_cpos := pl_cur_cpos st;
         pl_argc := pl_argc st; pl_cur_arg := cur_arg;
         pl_command := pl_command st; pl_arguments := arguments |}.

Definition pl_step (c : ascii) (st : pl_state) : outcome pl_flow :=
  match pl_stage st with
  | PARSING_COMMAND =>
      if is_blank c then
        b <- store COMMAND_MAX_SIZE (pl_command st) (pl_cur_cpos st) NUL ;;
        command <- chomp b ;;
        Ret (PlNext {| pl_stage := PARSING_ARGUMENTS; pl_cur_cpos := 0;
                       pl_argc := 0; pl_cur_arg := pl_cur_arg st;
                       pl_command := command; pl_arguments := pl_arguments st |})
      else if pl_cur_cpos st + 1 <? COMMAND_MAX_SIZE then
        command <- store COMMAND_MAX_SIZE (pl_command st) (pl_cur_cpos st) c ;;
        Ret (PlNext {| pl_stage := PARSING_COMMAND;
                       pl_cur_cpos := u16 (pl_cur_cpos st + 1);
                       pl_argc := pl_argc st; pl_cur_arg := pl_cur_arg st;
                       pl_command := command; pl_arguments := pl_arguments st |})
      else Ret (PlReturn (-1) st)
  | PARSING_ARGUMENTS =>
      if (c =? ",")%char then
        st1 <- pl_store_arg st ;;
        cur_arg <- store ARGUMENT_MAX_SIZE (pl_cur_arg st1) 0 NUL ;;
        let st2 := {| pl_stage := PARSING_ARGUMENTS; pl_cur_cpos := 0;
                      pl_argc := pl_argc st1; pl_cur_arg := cur_arg;
                      pl_command := pl_command st1;
                      pl_arguments := pl_arguments st1 |} in
        if pl_argc st2 =? ARGUMENT_ARRAY_MAX_SIZE then Ret (PlReturn (-1) st2)
        else Ret (PlNext st2)
      else if is_blank c then Ret (PlNext st)
      else if (c =? "=")%char then
        st1 <- pl_store_arg st ;;
        Ret (PlNext {| pl_stage := PARSING_SET_OBJVAR; pl_cur_cpos := 0;
                       pl_argc := pl_argc st1; pl_cur_arg := pl_cur_arg st1;
                       pl_command := pl_command st1;
                       pl_arguments := pl_arguments st1 |})
      else
        let argc := if pl_cur_cpos st =? 0 then pl_argc st + 1 else pl_argc st in
        if pl_cur_cpos st + 1 <? ARGUMENT_MAX_SIZE then
          '(b, p) <- append_char ARGUMENT_MAX_SIZE u16 (pl_cur_arg st) (pl_cur_cpos st) c ;;
          Ret (PlNext {| pl_stage := PARSING_ARGUMENTS; pl_cur_cpos := p;
                         pl_argc := argc; pl_cur_arg := b;
                         pl_command := pl_command st;
                         pl_arguments := pl_arguments st |})
        else
          Ret (PlReturn (-1)
                 {| pl_stage := PARSING_ARGUMENTS; pl_cur_cpos := pl_cur_cpos st;
                    pl_argc := argc; pl_cur_arg := pl_cur_arg st;
                    pl_command := pl_command st;
                    pl_arguments := pl_arguments st |})
  | PARSING_SET_OBJVAR =>
      if pl_cur_cpos st =? 0 then
        if negb (c =? " ")%char && negb (c =? "009")%char && negb (c =? "&")%char then
          Ret (PlReturn (-1) st)
        else if (c =? "&")%char then
          '(b, p) <- append_char ARGUMENT_MAX_SIZE u16 (pl_cur_arg st) (pl_cur_cpos st) c ;;
          Ret (PlNext {| pl_stage := PARSING_SET_OBJVAR; pl_cur_cpos := p;
                         pl_argc := pl_argc st; pl_cur_arg := b;
                         pl_command := pl_command st;
                         pl_arguments := pl_arguments st |})
        else Ret (PlNext st)
      else if is_blank c then Ret (PlNext st)
      else
        '(b, p) <- append_char ARGUMENT_MAX_SIZE u16 (pl_cur_arg st) (pl_cur_cpos st) c ;;
        Ret (PlNext {| pl_stage := PARSING_SET_OBJVAR; pl_cur_cpos := p;
                       pl_argc := pl_argc st; pl_cur_arg := b;
                       pl_command := pl_command st;
                       pl_arguments := pl_arguments st |})
  | _ => Ret (PlReturn (-1) st)
  end.

(** The loop over the line: it ends at the terminator, or at a [#]. *)
Fixpoint pl_scan (line : string) (st : pl_state) : outcome pl_flow :=
  match line with
  | String c rest =>
      if is_nul c then Ret (PlNext st)
      else if (c =? "#")%char then Ret (PlNext st)
      else
        r <- pl_step c st ;;
        match r with
        | PlNext st' => pl_scan rest st'
        | PlReturn v st' => Ret (PlReturn v st')
        end
  | EmptyString => Ret (PlNext st)
  end.

(** The statements after the loop. *)
Definition pl_finish (st : pl_state) : outcome pl_state :=
  let argc :=
    match pl_stage st with
    | PARSING_SET_OBJVAR => pl_argc st + 1
    | _ => pl_argc st
    end in
  let st1 := {| pl_stage := pl_stage st; pl_cur_cpos := pl_cur_cpos st;
                pl_argc := argc; pl_cur_arg := pl_cur_arg st;
                pl_command := pl_command st; pl_arguments := pl_arguments st |} in
  if 0 <? argc then pl_store_arg st1 else Ret st1.

(** [parse_line(line, command, arguments)]: the value returned, and the two
    arrays of the caller as the call leaves them. *)
Definition parse_line (line : string) (command : buffer) (arguments : cells string)
  : outcome (Z * buffer * cells string) :=
  command0 <- store COMMAND_MAX_SIZE command 0 NUL ;;
  r <- pl_scan line {| pl_stage := PARSING_COMMAND; pl_cur_cpos := 0;
                       pl_argc := -1; pl_cur_arg := [];
                       pl_command := command0; pl_arguments := arguments |} ;;
  match r with
  | PlReturn v st => Ret (v, pl_command st, pl_arguments st)
  | PlNext st =>
      st' <- pl_finish st ;;
      Ret (pl_argc st', pl_command st', pl_arguments st')
  end.

(** ** The stores *)

Record object_t : Type := {
  type : Z;                          (* uint8_t type *)
  coord_count : option Z;            (* [None]: never assigned *)
  coord : option (list coord_t)      (* [None]: never assigned *)
}.

Inductive var_value : Type :=
| VFixed (d : spec_float)      (* VARIABLE_FIXED: a double *)
| VCoord (c : coord_t)         (* VARIABLE_COORD: a coord_t *)
| VObject (index : Z).         (* VARIABLE_OBJECT: a size_t *)

Record variable_t : Type := {
  var_type : ascii;
  var_name : string;
  var_value_of : var_value
}.

(** The two global containers; [count] is the length of [list]. *)
Record engine : Type := {
  objects : list object_t;
  variables : list variable_t
}.

Definition nanocad_init : engine := {| objects := []; variables := [] |}.

Definition valid_objects : list string := ["line"; "rect"; "circle"].

(** Modelled from the spec: the header that defines [TYPE_LINE] is not
    among the sources.  Object keywords are "each mapped to an object kind
    id" and "only line has a real construction rule", so [TYPE_LINE] is the
    id that [is_obj_command] gives to the keyword line. *)
Definition TYPE_LINE : Z := 1.

(** [is_obj_command(command)]: the loop over [valid_objects] from index [i]. *)
Fixpoint is_obj_command_from (i : Z) (names : list string) (command : string) : Z :=
  match names with
  | name :: rest =>
      if (command =? name)%string then i + 1
      else is_obj_command_from (u8 (i + 1)) rest command
  | [] => -1
  end.

Definition is_obj_command (command : string) : Z :=
  is_obj_command_from 0 valid_objects command.

(** The characters of a C string given as a [string]. *)
Fixpoint c_str (s : string) : string :=
  match s with
  | String c r => if is_nul c then "" else String c (c_str r)
  | EmptyString => ""
  end.

(** [set_variable(name, value)]; [value] is a pointer that the caller may
    never have assigned ([None]), and it is used by the three known types
    only. *)
Definition set_variable (name : string) (value : option string) (e : engine)
  : outcome engine :=
  match name with
  | String t rest =>
      if is_nul t then Undef OutOfBounds
      else
        let nm := c_str rest in
        v <- (if (t =? "$")%char then
                s <- deref value ;; d <- atof s ;; Ret (VFixed d)
              else if (t =? "@")%char then
                s <- deref value ;; c <- parse_coordinates s None ;; Ret (VCoord c)
              else if (t =? "&")%char then
                s <- deref value ;;
                r <- sscanf_zu s ;;
                match r with
                | Some obj_index => Ret (VObject obj_index)
                | None => Exit BadObjectIndex
                end
              else Exit (InvalidVariableType t nm)) ;;
        Ret {| objects := objects e;
               variables := variables e
                 ++ [{| var_type := t; var_name := nm; var_value_of := v |}] |}
  | EmptyString => Undef OutOfBounds
  end.

(** The object that [create_object] fills in before it stores it. *)
Definition build_object (type : Z) (argv : cells string) : outcome object_t :=
  if type =? TYPE_LINE then
    a0 <- load ARGUMENT_ARRAY_MAX_SIZE argv 0 ;;
    c0 <- parse_coordinates a0 None ;;
    a1 <- load ARGUMENT_ARRAY_MAX_SIZE argv 1 ;;
    c1 <- parse_coordinates a1 (Some c0) ;;
    Ret {| type := u8 type; coord_count := Some 2; coord := Some [c0; c1] |}
  else
    Ret {| type := u8 type; coord_count := None; coord := None |}.

(** [create_object(type, argc, argv)]; [argc] arrives as a [char]. *)
Definition create_object (type argc : Z) (argv : cells string) (e : engine)
  : outcome engine :=
  let argc := to_char argc in
  obj <- build_object type argv ;;
  let e1 := {| objects := objects e ++ [obj]; variables := variables e |} in
  last <- load ARGUMENT_ARRAY_MAX_SIZE argv (argc - 1) ;;
  match last with
  | String c _ =>
      if (c =? "&")%char then
        str_idx <- snprintf_lu VARIABLE_MAX_SIZE (Z.of_nat (List.length (objects e1)) - 1) ;;
        set_variable last (Some str_idx) e1
      else Ret e1
  | EmptyString => Ret e1
  end.

(** [parse_command(line)]: the value returned and the containers after the
    call.  The arrays [command] and [argv] are locals, not written before
    [parse_line] is called. *)
Definition parse_command (line : string) (e : engine) : outcome (bool * engine) :=
  match line with
  | EmptyString => Ret (true, e)
  | String c _ =>
      if is_nul c || (c =? "#")%char then Ret (true, e)
      else
        '(argc, command, argv) <- parse_line line [] [] ;;
        if 0 <=? argc then
          cmd <- load_string command ;;
          let type := is_obj_command cmd in
          if 0 <? type then
            e' <- create_object type argc argv e ;;
            Ret (true, e')
          else if ("set" =? cmd)%string then
            a0 <- load ARGUMENT_ARRAY_MAX_SIZE argv 0 ;;
            a1 <- load_cell ARGUMENT_ARRAY_MAX_SIZE argv 1 ;;
            e' <- set_variable a0 a1 e ;;
            Ret (true, e')
          else Ret (false, e)
        else Ret (false, e)
  end.

(** A driver that hands the lines to [parse_command] one after the other
    and goes on after a line that returned false; it yields the value
    returned for each line and the containers at the end. *)
Fixpoint dispatch_all (lines : list string) (e : engine)
  : outcome (list bool * engine) :=
  match lines with
  | [] => Ret ([], e)
  | line :: rest =>
      '(ok, e1) <- parse_command line e ;;
      '(oks, e2) <- dispatch_all rest e1 ;;
      Ret (ok :: oks, e2)
  end.

End Engine.

(** [get_object(i)]: the value of [objects.list[i]]; [i] is a [size_t], and
    the array holds [objects.count] elements. *)
Definition get_object (i : Z) (e : engine) : outcome object_t :=
  if (0 <=? i) && (i <? Z.of_nat (List.length (objects e))) then
    match nth_error (objects e) (Z.to_nat i) with
    | Some o => Ret o
    | None => Undef OutOfBounds
    end
  else Undef OutOfBounds.

(** * Definitions for the statements *)

(** What [parse_command] reads of the result of [parse_line]: the keyword
    and the arguments [argv[0]] to [argv[argc - 1]], or [None] when
    [parse_line] returns a negative value. *)
Fixpoint read_args (cap : Z) (argv : cells string) (i : Z) (n : nat)
  : outcome (list string) :=
  match n with
  | O => Ret []
  | S n' =>
      a <- load cap argv i ;;
      rest <- read_args cap argv (i + 1) n' ;;
      Ret (a :: rest)
  end.

Definition tokenize (COMMAND_MAX_SIZE ARGUMENT_MAX_SIZE ARGUMENT_ARRAY_MAX_SIZE : Z)
    (line : string) : outcome (option (string * list string)) :=
  '(argc, command, argv) <-
     parse_line COMMAND_MAX_SIZE ARGUMENT_MAX_SIZE ARGUMENT_ARRAY_MAX_SIZE line [] [] ;;
  if 0 <=? argc then
    cmd <- load_string command ;;
    args <- read_args ARGUMENT_ARRAY_MAX_SIZE argv 0 (Z.to_nat argc) ;;
    Ret (Some (cmd, args))
  else Ret None.

(** The cells that hold the characters of [s]. *)
Definition chars (s : string) : buffer := map Some (list_ascii_of_string s).

(** [s] has no NUL character: it is the whole of a C string. *)
Fixpoint no_nul (s : string) : bool :=
  match s with
  | String c r => negb (is_nul c) && no_nul r
  | EmptyString => true
  end.

(** The value of [line[0]]. *)
Definition first_char (line : string) : ascii :=
  match line with
  | String c _ => c
  | EmptyString => NUL
  end.

(** Every character of [s] is in the class [p]. *)
Fixpoint all_chars (p : ascii -> bool) (s : string) : bool :=
  match s with
  | String c r => p c && all_chars p r
  | EmptyString => true
  end.

(** The characters that the numeral state of [to_base_unit] collects:
    the digits and the codes 0x2B to 0x2E, which are [+ , - .]. *)
Definition numeral_char (c : ascii) : bool :=
  is_digit c || ((43 <=? code c) && (code c <=? 46)).

(** The class that C8 states for the numeral state. *)
Definition stated_numeral_char (c : ascii) : bool :=
  is_digit c || (code c =? 43) || (code c =? 45) || (code c =? 46).

Definition dec_char (c : ascii) : bool := is_digit c || (code c =? 46).

(** The value of a string of decimal digits, continuing [acc]. *)
Fixpoint digits_value (s : string) (acc : Z) : Z :=
  match s with
  | String c r => digits_value r (10 * acc + (code c - 48))
  | EmptyString => acc
  end.

(** The state of the scan after the numeral [n] and the unit [u]. *)
Definition tbu_after (n u : string) (st : tbu_state) : Prop :=
  tbu_stage st = match u with EmptyString => PARSING_NUMBER | _ => PARSING_UNIT end
  /\ tbu_unit st = chars u ++ [Some NUL]
  /\ match n with
     | EmptyString => tbu_strnum st = []
     | _ => load_string (tbu_strnum st) = Ret n
     end.

(** ** [atof] on a numeral *)

Inductive sign : Type := NoSign | Plus | Minus.

Definition sign_text (sg : sign) : string :=
  match sg with
  | NoSign => ""
  | Plus => "+"
  | Minus => "-"
  end.

Definition is_minus (sg : sign) : bool :=
  match sg with
  | Minus => true
  | _ => false
  end.

(** The digits after the decimal point, if there is a point. *)
Definition fraction_digits (fp : option string) : string :=
  match fp with
  | Some f => f
  | None => ""
  end.

(** A numeral: an optional sign, digits, and optionally a decimal point
    followed by digits. *)
Definition numeral_text (sg : sign) (ip : string) (fp : option string) : string :=
  sign_text sg ++ ip ++ match fp with
                        | Some f => String "." f
                        | None => ""
                        end.

Definition well_formed_numeral (ip : string) (fp : option string) : Prop :=
  all_chars is_digit ip = true
  /\ all_chars is_digit (fraction_digits fp) = true
  /\ (ip ++ fraction_digits fp)%string <> "".

(** The factor of a supported unit. *)
Definition unit_scale (u : string) : option Z :=
  if (u =? "")%string then Some 1
  else if (u =? "m")%string then Some 1000
  else if (u =? "cm")%string then Some 10
  else if (u =? "mm")%string then Some 1
  else None.

(** The numeral scaled by [k] and truncated toward zero, in exact
    arithmetic. *)
Definition scaled_exactly (sg : sign) (ip : string) (fp : option string) (k : Z) : Z :=
  Z.quot ((if is_minus sg then -1 else 1)
          * digits_value (ip ++ fraction_digits fp) 0 * k)
         (10 ^ Z.of_nat (String.length (fraction_digits fp))).

(** The numeral read as a binary64 number, scaled by [k] in binary64 (a
    factor of 1 leaves the number as it is) and truncated toward zero to
    a [long]: the reading of C1 with floating-point semantics. *)
Definition scaled_in_double (sg : sign) (ip : string) (fp : option string) (k : Z)
  : outcome Z :=
  let orig := b64_of_decimal (is_minus sg)
                (digits_value (ip ++ fraction_digits fp) 0)
                (- Z.of_nat (String.length (fraction_digits fp))) in
  long_of_double (if k =? 1 then orig else double_mul orig (double_of_int k)).

(** [n] times the character [c]. *)
Fixpoint repeat_char (c : ascii) (n : nat) : string :=
  match n with
  | O => ""
  | S n' => String c (repeat_char c n')
  end.

(** The lines for which [parse_command] returned true. *)
Fixpoint successes (lines : list string) (oks : list bool) : list string :=
  match lines, oks with
  | l :: lines', ok :: oks' =>
      if ok then l :: successes lines' oks' else successes lines' oks'
  | _, _ => []
  end.

Section DispatchStatements.
Variable CMS AMS AAMS : Z.

(** The tokenizer accepts [l] and gives it the keyword line. *)
Definition line_keyword (l : string) : Prop :=
  exists argc command argv,
    parse_line CMS AMS AAMS l [] [] = Ret (argc, command, argv)
    /\ 0 <= argc /\ load_string command = Ret "line".

(** The object that a line command describes. *)
Definition line_object (l : string) : outcome object_t :=
  '(argc, command, argv) <- parse_line CMS AMS AAMS l [] [] ;;
  build_object AMS AAMS TYPE_LINE argv.

End DispatchStatements.

(** The part of [s] before its first white-space character. *)
Fixpoint before_space (s : string) : string :=
  match s with
  | String c r => if isspace c then "" else String c (before_space r)
  | EmptyString => ""
  end.

(** The characters of a keyword: anything but NUL, [#] and white space. *)
Definition word_char (c : ascii) : bool :=
  negb (is_nul c) && negb (c =? "#")%char && negb (isspace c).

(** The characters of a plain argument: those of a keyword except the
    comma and the equals sign. *)
Definition arg_char (c : ascii) : bool :=
  word_char c && negb (c =? ",")%char && negb (c =? "=")%char.

(** The arguments written one after the other with commas in between. *)
Fixpoint join_args (args : list string) : string :=
  match args with
  | [] => ""
  | [a] => a
  | a :: rest => a ++ String "," (join_args rest)
  end.

(** A plain argument: at least one character, all of them in [arg_char]. *)
Definition plain_arg (a : string) : Prop :=
  a <> "" /\ all_chars arg_char a = true.

(** The cell that [chomp] leaves where it found the character [c]. *)
Definition blank_cell (c : ascii) : option ascii := Some (if isspace c then NUL else c).

(** Every argument followed by a comma. *)
Fixpoint args_then_comma (args : list string) : string :=
  match args with
  | [] => ""
  | a :: rest => a ++ String "," (args_then_comma rest)
  end.

(** The value of a decimal number of the standard library, continuing
    [acc]. *)
Fixpoint uint_value (d : Decimal.uint) (acc : Z) : Z :=
  match d with
  | Decimal.Nil => acc
  | Decimal.D0 l => uint_value l (10 * acc)
  | Decimal.D1 l => uint_value l (10 * acc + 1)
  | Decimal.D2 l => uint_value l (10 * acc + 2)
  | Decimal.D3 l => uint_value l (10 * acc + 3)
  | Decimal.D4 l => uint_value l (10 * acc + 4)
  | Decimal.D5 l => uint_value l (10 * acc + 5)
  | Decimal.D6 l => uint_value l (10 * acc + 6)
  | Decimal.D7 l => uint_value l (10 * acc + 7)
  | Decimal.D8 l => uint_value l (10 * acc + 8)
  | Decimal.D9 l => uint_value l (10 * acc + 9)
  end.

(** The decimal digits of [n], as [%lu] prints them. *)
Definition decimal (n : Z) : string :=
  NilZero.string_of_uint (N.to_uint (Z.to_N n)).

(** The object that [create_object] stores for a line from [c0] to [c1]. *)
Definition line_from (c0 c1 : coord_t) : object_t :=
  {| type := TYPE_LINE; coord_count := Some 2; coord := Some [c0; c1] |}.

(** The containers after one more object and one more variable. *)
Definition with_object (o : object_t) (e : engine) : engine :=
  {| objects := objects e ++ [o]; variables := variables e |}.

Definition with_variable (v : variable_t) (e : engine) : engine :=
  {| objects := objects e; variables := variables e ++ [v] |}.

(** The messages with which [to_base_unit] ends the program. *)
Definition length_exit (f : fatal) : Prop :=
  match f with
  | InvalidNumberChar c => numeral_char c = false /\ is_lower c = false
  | InvalidUnitChar c => is_lower c = false
  | InvalidUnit u => unit_scale u = None
  | _ => False
  end.

(** The messages with which [parse_coordinates] ends the program: those
    of [to_base_unit] and its own two. *)
Definition coordinate_exit (f : fatal) : Prop :=
  match f with
  | UnknownFirstCoordLetter _ | UnknownNextArgStart _ => True
  | _ => length_exit f
  end.

(** The characters that the state [PARSING_COORDX] appends: all but the
    semicolon (and NUL, which ends the string). *)
Definition coordx_char (c : ascii) : bool :=
  negb (is_nul c) && negb (c =? ";")%char.

(** [s] without its spaces and tabs. *)
Fixpoint drop_blanks (s : string) : string :=
  match s with
  | String c r => if is_blank c then drop_blanks r else String c (drop_blanks r)
  | EmptyString => ""
  end.

(** [line] without the spaces and tabs that follow its first one. *)
Fixpoint squeeze (line : string) : string :=
  match line with
  | String c r => if is_blank c then String c (drop_blanks r) else String c (squeeze r)
  | EmptyString => ""
  end.

(** A text that [atof] reads in decimal notation: after the white space
    and the sign it does not start with 0x or 0X, nor with one of the
    letters i, I, n and N (the hexadecimal, infinity and NaN spellings). *)
Definition decimal_text (s : string) : bool :=
  negb (outside_decimal (snd (read_sign (skip_space s)))).

(** * Properties *)

(** ** Evaluation with symbolic sizes *)

Lemma store_in {A : Type} (cap : Z) (b : cells A) (i : Z) (v : A) :
  0 <= i < cap -> store cap b i v = Ret (set_cell b (Z.to_nat i) v).
Proof.
  intros H. unfold store.
  replace (0 <=? i) with true by (symmetry; apply Z.leb_le; lia).
  replace (i <? cap) with true by (symmetry; apply Z.ltb_lt; lia).
  reflexivity.
Qed.

Lemma store_out {A : Type} (cap : Z) (b : cells A) (i : Z) (v : A) :
  cap <= i -> store cap b i v = Undef OutOfBounds.
Proof.
  intros H. unfold store.
  replace (i <? cap) with false by (symmetry; apply Z.ltb_ge; lia).
  rewrite andb_false_r. reflexivity.
Qed.

Lemma load_in {A : Type} (cap : Z) (b : cells A) (i : Z) :
  0 <= i < cap ->
  load cap b i = match nth_error b (Z.to_nat i) with
                 | Some (Some v) => Ret v
                 | _ => Undef IndeterminateRead
                 end.
Proof.
  intros H. unfold load.
  replace (0 <=? i) with true by (symmetry; apply Z.leb_le; lia).
  replace (i <? cap) with true by (symmetry; apply Z.ltb_lt; lia).
  reflexivity.
Qed.

(** One round of evaluation: array accesses whose index is in range are
    performed, comparisons that [lia] decides are replaced by their value. *)
Ltac decide_test :=
  match goal with
  | |- context [chomp ?b] =>
      let v := eval vm_compute in (chomp b) in change (chomp b) with v
  | |- context [load_string ?b] =>
      let v := eval vm_compute in (load_string b) in change (load_string b) with v
  | |- context [Pos.to_nat ?p] =>
      let v := eval vm_compute in (Pos.to_nat p) in
      change (Pos.to_nat p) with v
  | |- context [store ?cap ?b ?i ?v] => rewrite (store_in cap b i v) by lia
  | |- context [load ?cap ?b ?i] => rewrite (load_in cap b i) by lia
  | |- context [Z.ltb ?a ?b] =>
      first [ replace (Z.ltb a b) with true by (symmetry; apply Z.ltb_lt; lia)
            | replace (Z.ltb a b) with false by (symmetry; apply Z.ltb_ge; lia) ]
  | |- context [Z.leb ?a ?b] =>
      first [ replace (Z.leb a b) with true by (symmetry; apply Z.leb_le; lia)
            | replace (Z.leb a b) with false by (symmetry; apply Z.leb_gt; lia) ]
  | |- context [Z.eqb ?a ?b] =>
      first [ replace (Z.eqb a b) with true by (symmetry; apply Z.eqb_eq; lia)
            | replace (Z.eqb a b) with false by (symmetry; apply Z.eqb_neq; lia) ]
  end.

Ltac evaluate :=
  repeat (cbn -[store load Z.eqb]; unfold append_char, pl_store_arg, pl_finish, pc_zero, is_nul, u8, u16, to_char;
          try decide_test).

Lemma set_cell_app {A : Type} (pre tl : cells A) (k : nat) (v : A) :
  set_cell (pre ++ tl) (List.length pre + k) v = pre ++ set_cell tl k v.
Proof.
  induction pre as [|p pre IH]; simpl.
  - reflexivity.
  - rewrite IH. reflexivity.
Qed.

Lemma set_cell_end {A : Type} (pre tl : cells A) (v : A) :
  set_cell (pre ++ tl) (List.length pre) v = pre ++ Some v :: List.tl tl.
Proof.
  rewrite <- (Nat.add_0_r (List.length pre)), set_cell_app.
  destruct tl; reflexivity.
Qed.

Lemma chars_length (s : string) : List.length (chars s) = String.length s.
Proof.
  unfold chars. rewrite length_map.
  induction s; simpl; congruence.
Qed.

Lemma chars_snoc (s : string) (c : ascii) :
  chars (s ++ String c "") = chars s ++ [Some c].
Proof.
  unfold chars. induction s; simpl; [reflexivity | rewrite IHs; reflexivity].
Qed.

Lemma length_snoc (s : string) (c : ascii) :
  String.length (s ++ String c "") = S (String.length s).
Proof. induction s; simpl; congruence. Qed.

Lemma no_nul_snoc (s : string) (c : ascii) :
  no_nul (s ++ String c "") = no_nul s && negb (is_nul c).
Proof.
  induction s; simpl.
  - rewrite andb_true_r. reflexivity.
  - rewrite IHs, andb_assoc. reflexivity.
Qed.

Lemma no_nul_app (s t : string) : no_nul (s ++ t) = no_nul s && no_nul t.
Proof.
  induction s; simpl; [reflexivity | rewrite IHs, andb_assoc; reflexivity].
Qed.

Lemma app_snoc_cons (s t : string) (c : ascii) :
  ((s ++ String c "") ++ t = s ++ String c t)%string.
Proof. induction s; simpl; congruence. Qed.

(** Appending a character to a buffer whose first cells hold [s]. *)
Lemma append_char_chars (cap : Z) (wrap : Z -> Z) (s : string) (tl : buffer) (c : ascii) :
  Z.of_nat (String.length s) + 1 < cap ->
  wrap (Z.of_nat (String.length s) + 1) = Z.of_nat (String.length s) + 1 ->
  append_char cap wrap (chars s ++ tl) (Z.of_nat (String.length s)) c
  = Ret (chars (s ++ String c "") ++ Some NUL :: List.tl (List.tl tl),
         Z.of_nat (String.length s) + 1).
Proof.
  intros Hcap Hwrap. unfold append_char.
  rewrite store_in by lia. cbn [bind].
  rewrite Hwrap, store_in by lia. cbn [bind].
  rewrite Nat2Z.id.
  replace (Z.to_nat (Z.of_nat (String.length s) + 1)) with (S (String.length s)) by lia.
  rewrite <- (chars_length s) at 1. rewrite set_cell_end.
  replace (chars s ++ Some c :: List.tl tl) with ((chars s ++ [Some c]) ++ List.tl tl)
    by (rewrite <- app_assoc; reflexivity).
  replace (S (String.length s)) with (List.length (chars s ++ [Some c]))
    by (rewrite length_app, chars_length; simpl; lia).
  rewrite set_cell_end, chars_snoc. reflexivity.
Qed.

Lemma load_string_chars (s : string) (tl : buffer) :
  no_nul s = true -> load_string (chars s ++ Some NUL :: tl) = Ret s.
Proof.
  induction s as [|c s IH]; simpl; intros H.
  - reflexivity.
  - apply andb_prop in H. destruct H as [Hc Hs].
    apply negb_true_iff in Hc. unfold chars in IH |- *. simpl. rewrite Hc.
    rewrite (IH Hs). reflexivity.
Qed.

Lemma c_str_no_nul (s : string) : no_nul (c_str s) = true.
Proof.
  induction s as [|c s IH]; simpl; [reflexivity|].
  destruct (is_nul c) eqn:E; simpl; [reflexivity|]. rewrite E, IH. reflexivity.
Qed.

Lemma c_str_id (s : string) : no_nul s = true -> c_str s = s.
Proof.
  induction s as [|c s IH]; simpl; intros H; [reflexivity|].
  apply andb_prop in H. destruct H as [Hc Hs]. apply negb_true_iff in Hc.
  rewrite Hc, (IH Hs). reflexivity.
Qed.

Lemma c_str_length (s : string) : (String.length (c_str s) <= String.length s)%nat.
Proof.
  induction s as [|c s IH]; simpl; [lia|]. destruct (is_nul c); simpl; lia.
Qed.

(** ** The scans read a C string *)

Lemma tbu_scan_c_str (AMS : Z) (s : string) (st : tbu_state) :
  tbu_scan AMS (c_str s) st = tbu_scan AMS s st.
Proof.
  revert st. induction s as [|c s IH]; intros st; simpl; [reflexivity|].
  destruct (is_nul c) eqn:E; simpl; [reflexivity|].
  rewrite E. destruct (tbu_step AMS c st); simpl; auto.
Qed.

Lemma to_base_unit_c_str (AMS : Z) (s : string) :
  to_base_unit AMS (c_str s) = to_base_unit AMS s.
Proof. unfold to_base_unit. rewrite tbu_scan_c_str. reflexivity. Qed.

Lemma pc_scan_c_str (AMS : Z) (s : string) (st : pc_state) :
  pc_scan AMS (c_str s) st = pc_scan AMS s st.
Proof.
  revert st. induction s as [|c s IH]; intros st; simpl; [reflexivity|].
  destruct (is_nul c) eqn:E; simpl; [reflexivity|].
  rewrite E. destruct (pc_step AMS c st); simpl; auto.
Qed.

(** ** Copying stages of [parse_coordinates] *)

Lemma u8_small (z : Z) : 0 <= z < 256 -> u8 z = z.
Proof. intros H. unfold u8. apply Z.mod_small. lia. Qed.

Lemma u16_small (z : Z) : 0 <= z < 65536 -> u16 z = z.
Proof. intros H. unfold u16. apply Z.mod_small. lia. Qed.

Lemma pc_scan_cons (AMS : Z) (c : ascii) (s : string) (st : pc_state) :
  pc_scan AMS (String c s) st
  = if is_nul c then Ret st else st' <- pc_step AMS c st ;; pc_scan AMS s st'.
Proof. reflexivity. Qed.

(** The proof shared by the stages that copy every character. *)
Ltac copy_stage s :=
  let IH := fresh "IH" in
  let d := fresh "d" in
  induction s as [|d s IH]; intros c acc tl op other Hn Hcap Hw;
  [ simpl in Hn, Hcap, Hw |- *;
    rewrite andb_true_r in Hn; apply negb_true_iff in Hn; rewrite Hn;
    cbn [pc_step pc_stage pc_coord_x pc_cur_pos pc_operation pc_coord_y];
    rewrite append_char_chars by (try apply u8_small; lia);
    cbn [bind]; eexists; do 2 f_equal; lia
  | change (no_nul (String c (String d s)))
      with (negb (is_nul c) && no_nul (String d s)) in Hn;
    apply andb_prop in Hn; destruct Hn as [Hc Hn]; apply negb_true_iff in Hc;
    rewrite pc_scan_cons, Hc;
    cbn [pc_step pc_stage pc_coord_x pc_cur_pos pc_operation pc_coord_y];
    cbn [String.length] in Hcap, Hw;
    rewrite append_char_chars by (try apply u8_small; lia);
    cbn [bind];
    replace (Z.of_nat (String.length acc) + 1)
      with (Z.of_nat (String.length (acc ++ String c ""))) by (rewrite length_snoc; lia);
    let tl' := fresh "tl'" in
    let E := fresh "E" in
    destruct (IH d (acc ++ String c "")%string (Some NUL :: List.tl (List.tl tl)) op other Hn)
      as [tl' E];
    [ rewrite length_snoc; cbn [String.length]; lia
    | rewrite length_snoc; cbn [String.length]; lia
    | exists tl'; rewrite E, app_snoc_cons; do 2 f_equal;
      rewrite length_snoc; cbn [String.length]; lia ] ].

(** In the stage [PARSING_WIDTH] every character goes to [coord_x]. *)
Lemma pc_scan_width (AMS : Z) (s : string) :
  forall (c : ascii) (acc : string) (tl : buffer) (op : ascii) (cy : buffer),
    no_nul (String c s) = true ->
    Z.of_nat (String.length acc + String.length (String c s)) < AMS ->
    (String.length acc + String.length (String c s) < 256)%nat ->
    exists tl',
      pc_scan AMS (String c s)
        {| pc_stage := PARSING_WIDTH; pc_cur_pos := Z.of_nat (String.length acc);
           pc_operation := op; pc_coord_x := chars acc ++ tl; pc_coord_y := cy |}
      = Ret {| pc_stage := PARSING_WIDTH;
               pc_cur_pos := Z.of_nat (String.length acc + String.length (String c s));
               pc_operation := op;
               pc_coord_x := chars (acc ++ String c s) ++ Some NUL :: tl';
               pc_coord_y := cy |}.
Proof. copy_stage s. Qed.

(** In the stage [PARSING_HEIGHT] every character goes to [coord_y]. *)
Lemma pc_scan_height (AMS : Z) (s : string) :
  forall (c : ascii) (acc : string) (tl : buffer) (op : ascii) (cx : buffer),
    no_nul (String c s) = true ->
    Z.of_nat (String.length acc + String.length (String c s)) < AMS ->
    (String.length acc + String.length (String c s) < 256)%nat ->
    exists tl',
      pc_scan AMS (String c s)
        {| pc_stage := PARSING_HEIGHT; pc_cur_pos := Z.of_nat (String.length acc);
           pc_operation := op; pc_coord_x := cx; pc_coord_y := chars acc ++ tl |}
      = Ret {| pc_stage := PARSING_HEIGHT;
               pc_cur_pos := Z.of_nat (String.length acc + String.length (String c s));
               pc_operation := op;
               pc_coord_x := cx;
               pc_coord_y := chars (acc ++ String c s) ++ Some NUL :: tl' |}.
Proof. copy_stage s. Qed.

(** The default contents of the coordinate buffers convert to 0. *)
Lemma to_base_unit_zero (AMS : Z) : 2 <= AMS -> to_base_unit AMS "0" = Ret 0.
Proof.
  intros H. unfold to_base_unit. evaluate. reflexivity.
Qed.

Lemma pc_zero_ok (AMS : Z) : 2 <= AMS -> pc_zero AMS = Ret [Some "0"%char; Some NUL].
Proof. intros H. unfold pc_zero. evaluate. reflexivity. Qed.

(** A relative argument: the letter [w] or [h] followed by a length that
    [to_base_unit] accepts. *)
Lemma parse_coordinates_relative (AMS : Z) (len : string) (v : Z) (base : option coord_t) :
  to_base_unit AMS len = Ret v ->
  Z.of_nat (String.length len) < AMS ->
  (String.length len < 256)%nat ->
  parse_coordinates AMS (String "w" len) base
  = match base with
    | Some b => calc_coordinate "w" b {| x := v; y := 0 |}
    | None => Ret {| x := v; y := 0 |}
    end
  /\
  parse_coordinates AMS (String "h" len) base
  = match base with
    | Some b => calc_coordinate "h" b {| x := 0; y := v |}
    | None => Ret {| x := 0; y := v |}
    end.
Proof.
  intros Hv Hcap Hw.
  rewrite <- to_base_unit_c_str in Hv.
  pose proof (c_str_no_nul len) as Hn.
  pose proof (c_str_length len) as Hl.
  destruct (c_str len) as [|c s] eqn:E.
  { unfold to_base_unit in Hv. simpl in Hv. discriminate Hv. }
  assert (HA : 2 <= AMS) by (cbn [String.length] in Hl; lia).
  split.
  - unfold parse_coordinates. rewrite (pc_zero_ok AMS HA). cbn [bind].
    rewrite pc_scan_cons.
    change (is_nul "w") with false. cbn [pc_step pc_stage Ascii.eqb Bool.eqb orb
      pc_operation pc_coord_x pc_coord_y bind].
    change ("w" =? "x")%char with false. change ("w" =? "w")%char with true.
    cbn [orb bind].
    rewrite <- pc_scan_c_str, E.
    destruct (pc_scan_width AMS s c "" [Some "0"%char; Some NUL] "w"%char
                [Some "0"%char; Some NUL] Hn) as [tl' R].
    + cbn [String.length] in *. lia.
    + cbn [String.length] in *. lia.
    + cbn [String.length chars list_ascii_of_string map app Nat.add Z.of_nat] in R.
      rewrite R. cbn [bind pc_coord_x pc_coord_y pc_operation].
      change ("" ++ String c s)%string with (String c s).
      rewrite load_string_chars by exact Hn. cbn [bind]. rewrite Hv. cbn [bind].
      change (load_string [Some "0"%char; Some NUL]) with (Ret "0").
      cbn [bind]. rewrite (to_base_unit_zero AMS HA). cbn [bind].
      destruct base; reflexivity.
  - unfold parse_coordinates. rewrite (pc_zero_ok AMS HA). cbn [bind].
    rewrite pc_scan_cons.
    change (is_nul "h") with false. cbn [pc_step pc_stage bind].
    change ("h" =? "x")%char with false. change ("h" =? "w")%char with false.
    change ("h" =? "h")%char with true.
    cbn [orb bind]. cbv beta iota. cbn [pc_coord_x pc_coord_y].
    rewrite <- pc_scan_c_str, E.
    destruct (pc_scan_height AMS s c "" [Some "0"%char; Some NUL] "h"%char
                [Some "0"%char; Some NUL] Hn) as [tl' R].
    + cbn [String.length] in *. lia.
    + cbn [String.length] in *. lia.
    + cbn [String.length chars list_ascii_of_string map app Nat.add Z.of_nat] in R.
      rewrite R. cbn [bind pc_coord_x pc_coord_y pc_operation].
      change ("" ++ String c s)%string with (String c s).
      change (load_string [Some "0"%char; Some NUL]) with (Ret "0").
      cbn [bind]. rewrite (to_base_unit_zero AMS HA). cbn [bind].
      rewrite load_string_chars by exact Hn. cbn [bind]. rewrite Hv. cbn [bind].
      destruct base; reflexivity.
Qed.

(** Once the first character is read, [operation] does not change. *)
Lemma pc_step_operation (AMS : Z) (c : ascii) (st st' : pc_state) :
  pc_stage st <> PARSING_START ->
  pc_step AMS c st = Ret st' ->
  pc_operation st' = pc_operation st /\ pc_stage st' <> PARSING_START.
Proof.
  intros Hs H. unfold pc_step in H.
  destruct (pc_stage st) eqn:E; try congruence;
    repeat match type of H with
           | (if ?b then _ else _) = _ => destruct b
           | bind ?m _ = _ => destruct m as [[? ?]| |]; cbn [bind] in H
           end;
    try discriminate H; inversion H; subst; cbn; rewrite ?E; split; congruence.
Qed.

Lemma pc_scan_operation (AMS : Z) (s : string) :
  forall st st',
    pc_stage st <> PARSING_START ->
    pc_scan AMS s st = Ret st' ->
    pc_operation st' = pc_operation st.
Proof.
  induction s as [|c s IH]; intros st st' Hs H; simpl in H.
  - inversion H. reflexivity.
  - destruct (is_nul c); [inversion H; reflexivity|].
    destruct (pc_step AMS c st) as [st1| |] eqn:E; cbn [bind] in H; try discriminate H.
    destruct (pc_step_operation AMS c st st1 Hs E) as [Ho Hs1].
    rewrite <- Ho. eapply IH; eassumption.
Qed.

(** An argument that starts with [x] is parsed without regard to [base]. *)
Lemma parse_coordinates_absolute (AMS : Z) (rest : string) (base : option coord_t) :
  parse_coordinates AMS (String "x" rest) base
  = parse_coordinates AMS (String "x" rest) None.
Proof.
  destruct base as [b|]; [|reflexivity].
  unfold parse_coordinates.
  destruct (pc_zero AMS) as [z| |]; cbn [bind]; try reflexivity.
  rewrite pc_scan_cons. change (is_nul "x") with false.
  cbn [pc_step pc_stage bind]. change ("x" =? "x")%char with true. cbv beta iota.
  cbn [bind pc_operation pc_coord_x pc_coord_y].
  match goal with
  | |- context [pc_scan AMS rest ?s0] =>
      destruct (pc_scan AMS rest s0) as [st| |] eqn:E; cbn [bind]; try reflexivity;
      apply pc_scan_operation in E; [|cbn; discriminate]
  end.
  cbn [pc_operation] in E. rewrite E.
  change (negb (is_nul NUL)) with false. cbv beta iota.
  reflexivity.
Qed.

(** C2: the Coordinate Parser gives the reference results; an argument in
    the absolute form is parsed the same with and without a base; [w<len>]
    adds the length to [base.x] and copies [base.y], [h<len>] adds it to
    [base.y] and copies [base.x]. *)
Theorem parse_coordinates_reference (AMS : Z) :
  5 <= AMS ->
  parse_coordinates AMS "x10mm;y20mm" None = Ret {| x := 10; y := 20 |}
  /\ (forall rest base,
        parse_coordinates AMS (String "x" rest) (Some base)
        = parse_coordinates AMS (String "x" rest) None)
  /\ parse_coordinates AMS "w5mm" (Some {| x := 10; y := 20 |}) = Ret {| x := 15; y := 20 |}
  /\ parse_coordinates AMS "h5mm" (Some {| x := 10; y := 20 |}) = Ret {| x := 10; y := 25 |}
  /\ (forall len v base,
        to_base_unit AMS len = Ret v ->
        Z.of_nat (String.length len) < AMS ->
        (String.length len < 256)%nat ->
        in_long (v + x base) = true ->
        parse_coordinates AMS (String "w" len) (Some base)
        = Ret {| x := v + x base; y := y base |})
  /\ (forall len v base,
        to_base_unit AMS len = Ret v ->
        Z.of_nat (String.length len) < AMS ->
        (String.length len < 256)%nat ->
        in_long (v + y base) = true ->
        parse_coordinates AMS (String "h" len) (Some base)
        = Ret {| x := x base; y := v + y base |}).
Proof.
  intros H.
  split; [|split; [|split; [|split; [|split]]]].
  - unfold parse_coordinates, to_base_unit. evaluate. reflexivity.
  - intros rest base. apply parse_coordinates_absolute.
  - unfold parse_coordinates, to_base_unit. evaluate. reflexivity.
  - unfold parse_coordinates, to_base_unit. evaluate. reflexivity.
  - intros len v base Hv Hcap Hw Hr.
    destruct (parse_coordinates_relative AMS len v (Some base) Hv Hcap Hw) as [E _].
    rewrite E. unfold calc_coordinate, long_add.
    change ("w" =? "w")%char with true. cbv beta iota. cbn [x y].
    rewrite Hr. reflexivity.
  - intros len v base Hv Hcap Hw Hr.
    destruct (parse_coordinates_relative AMS len v (Some base) Hv Hcap Hw) as [_ E].
    rewrite E. unfold calc_coordinate, long_add.
    change ("h" =? "w")%char with false. change ("h" =? "h")%char with true.
    cbv beta iota. cbn [x y].
    rewrite Hr. reflexivity.
Qed.

Lemma parse_coordinates_reference_witness :
  5 <= 30
  /\ parse_coordinates 30 "x10mm;y20mm" None = Ret {| x := 10; y := 20 |}
  /\ parse_coordinates 30 "w7cm" (Some {| x := 1; y := 2 |}) = Ret {| x := 71; y := 2 |}.
Proof.
  assert (H : 5 <= 30) by lia.
  split; [exact H|].
  pose proof (parse_coordinates_reference 30 H) as [A [_ [_ [_ [W _]]]]].
  split; [exact A|].
  apply (W "7cm" 70 {| x := 1; y := 2 |}); [reflexivity | reflexivity | simpl; lia | reflexivity].
Defined.

(** C3 (as the code has it): with no base, for a length that the unit
    converter accepts and that fits the coordinate buffers (fewer than
    [ARGUMENT_MAX_SIZE] characters, and fewer than 256, the range of the
    8-bit cursor), [w<len>] yields [(len, 0)] and [h<len>] yields
    [(0, len)]; no error is raised. *)
Theorem parse_coordinates_relative_without_base (AMS : Z) (len : string) (v : Z) :
  to_base_unit AMS len = Ret v ->
  Z.of_nat (String.length len) < AMS ->
  (String.length len < 256)%nat ->
  parse_coordinates AMS (String "w" len) None = Ret {| x := v; y := 0 |}
  /\ parse_coordinates AMS (String "h" len) None = Ret {| x := 0; y := v |}.
Proof.
  intros Hv Hcap Hw.
  exact (parse_coordinates_relative AMS len v None Hv Hcap Hw).
Qed.

Lemma parse_coordinates_relative_without_base_witness :
  to_base_unit 30 "5mm" = Ret 5
  /\ parse_coordinates 30 "w5mm" None = Ret {| x := 5; y := 0 |}
  /\ parse_coordinates 30 "h5mm" None = Ret {| x := 0; y := 5 |}.
Proof.
  split; [reflexivity|].
  apply (parse_coordinates_relative_without_base 30 "5mm" 5);
    [reflexivity | reflexivity | simpl; lia].
Defined.

(** C3 as stated fails: [w5mm] with no base returns a coordinate. *)
Lemma relative_form_without_base_returns :
  parse_coordinates 30 "w5mm" None = Ret {| x := 5; y := 0 |}
  /\ ~ (exists f, CoordinateSyntaxError f /\ parse_coordinates 30 "w5mm" None = Exit f).
Proof.
  split; [reflexivity|].
  intros [f [_ H]]. discriminate H.
Qed.

(** C5 (what the code does): [rect] is dispatched like any object keyword;
    [parse_command] returns true and an object whose coordinates were never
    assigned is appended. *)
Theorem rect_appends_unfinished_object (CMS AMS AAMS VMS : Z) (e : engine) :
  5 <= CMS -> 10 <= AMS -> 2 <= AAMS ->
  parse_command CMS AMS AAMS VMS "rect x0mm;y0mm, x1mm;y1mm" e
  = Ret (true,
         {| objects := objects e ++ [{| type := 2; coord_count := None; coord := None |}];
            variables := variables e |}).
Proof.
  intros HC HA HN. unfold parse_command, parse_line. evaluate.
  unfold create_object, build_object. evaluate. reflexivity.
Qed.

Lemma rect_appends_unfinished_object_witness :
  parse_command 16 30 5 10 "rect x0mm;y0mm, x1mm;y1mm" nanocad_init
  = Ret (true,
         {| objects := [{| type := 2; coord_count := None; coord := None |}];
            variables := [] |}).
Proof. apply (rect_appends_unfinished_object 16 30 5 10 nanocad_init); lia. Defined.

(** C10: for a line that is empty or starts with [#], [parse_command]
    returns true and leaves both containers as they are. *)
Theorem parse_command_skips_empty_and_comment
    (CMS AMS AAMS VMS : Z) (line : string) (e : engine) :
  first_char line = NUL \/ first_char line = "#"%char ->
  parse_command CMS AMS AAMS VMS line e = Ret (true, e).
Proof.
  intros H. unfold parse_command. destruct line as [|c rest]; [reflexivity|].
  simpl in H. destruct H as [H|H]; subst c; reflexivity.
Qed.

Lemma parse_command_skips_empty_and_comment_witness :
  parse_command 16 30 5 10 "# sample" nanocad_init = Ret (true, nanocad_init)
  /\ parse_command 16 30 5 10 "" nanocad_init = Ret (true, nanocad_init).
Proof.
  split.
  - apply (parse_command_skips_empty_and_comment 16 30 5 10 "# sample"). right. reflexivity.
  - apply (parse_command_skips_empty_and_comment 16 30 5 10 ""). left. reflexivity.
Defined.

(** ** Comments *)

Lemma pl_scan_hash (CMS AMS AAMS : Z) (pre post : string) :
  forall st,
    pl_scan CMS AMS AAMS (pre ++ String "#" post) st = pl_scan CMS AMS AAMS pre st.
Proof.
  induction pre as [|c pre IH]; intros st; simpl.
  - reflexivity.
  - destruct (is_nul c); [reflexivity|].
    destruct (c =? "#")%char; [reflexivity|].
    destruct (pl_step CMS AMS AAMS c st) as [[st'|v st']| |]; cbn [bind]; auto.
Qed.

(** C9 (as the code has it): a [#] anywhere in the line, the capture tail
    included, ends the line: what follows it has no effect on the result
    of [parse_line]. *)
Theorem hash_truncates_line (CMS AMS AAMS : Z) (pre post : string)
    (command : buffer) (arguments : cells string) :
  parse_line CMS AMS AAMS (pre ++ String "#" post) command arguments
  = parse_line CMS AMS AAMS pre command arguments.
Proof.
  unfold parse_line. destruct (store CMS command 0 NUL); cbn [bind]; try reflexivity.
  rewrite pl_scan_hash. reflexivity.
Qed.

(** C9 as stated fails: a [#] in the capture tail ends the line as well. *)
Lemma hash_in_capture_tail_truncates :
  tokenize 16 30 5 "line a = &v#x" = Ret (Some ("line", ["a"; "&v"]))
  /\ tokenize 16 30 5 "line a = &v#x" = tokenize 16 30 5 "line a = &v"
  /\ tokenize 16 30 5 "line a = &v#x" <> Ret (Some ("line", ["a"; "&v#x"])).
Proof.
  split; [vm_compute; reflexivity|].
  split; [vm_compute; reflexivity|].
  vm_compute. discriminate.
Qed.

(** ** binary64 arithmetic on small integers is exact *)

Lemma iter_pos_iter {A : Type} (f : A -> A) (n : positive) (a : A) :
  iter_pos f n a = Pos.iter f a n.
Proof.
  revert a. induction n as [n IH|n IH|]; intros a; simpl.
  - rewrite !IH, !Pos.iter_swap. reflexivity.
  - rewrite !IH. reflexivity.
  - reflexivity.
Qed.

Lemma shr_1_double (z : Z) :
  0 < z ->
  shr_1 {| shr_m := 2 * z; shr_r := false; shr_s := false |}
  = {| shr_m := z; shr_r := false; shr_s := false |}.
Proof. destruct z; simpl; intros H; try lia; reflexivity. Qed.

Lemma shr_exact (v : Z) (n : positive) :
  0 < v ->
  Pos.iter shr_1 {| shr_m := v * 2 ^ Zpos n; shr_r := false; shr_s := false |} n
  = {| shr_m := v; shr_r := false; shr_s := false |}.
Proof.
  intros Hv. revert v Hv. induction n using Pos.peano_ind; intros v Hv.
  - replace (v * 2 ^ 1) with (2 * v) by lia. cbn [Pos.iter]. apply shr_1_double. exact Hv.
  - rewrite Pos.iter_succ.
    replace (v * 2 ^ Zpos (Pos.succ n)) with ((2 * v) * 2 ^ Zpos n)
      by (rewrite Pos2Z.inj_succ, Z.pow_succ_r by lia; lia).
    rewrite IHn by lia. apply shr_1_double. exact Hv.
Qed.

Lemma Zdigits2_double (z : Z) : 0 < z -> Zdigits2 (2 * z) = Zdigits2 z + 1.
Proof.
  destruct z; simpl; intros H; lia.
Qed.

Lemma Zdigits2_shift (v j : Z) :
  0 < v -> 0 <= j -> Zdigits2 (v * 2 ^ j) = Zdigits2 v + j.
Proof.
  intros Hv Hj. revert v Hv. pattern j. apply natlike_ind; [| |exact Hj].
  - intros v Hv. rewrite Z.mul_1_r. lia.
  - intros k Hk IH v Hv.
    replace (v * 2 ^ Z.succ k) with ((2 * v) * 2 ^ k)
      by (rewrite Z.pow_succ_r by lia; lia).
    rewrite IH by lia. rewrite Zdigits2_double by lia. lia.
Qed.

Lemma digits2_pos_bound (p : positive) (k : Z) :
  0 <= k -> Zpos p < 2 ^ k -> Zpos (digits2_pos p) <= k.
Proof.
  revert k. induction p as [p IH|p IH|]; intros k Hk H; simpl.
  - assert (1 <= k).
    { destruct (Z.eq_dec k 0); [subst; simpl in H; lia | lia]. }
    rewrite Pos2Z.inj_succ.
    enough (Zpos (digits2_pos p) <= k - 1) by lia.
    apply IH; [lia|].
    replace (2 ^ k) with (2 * 2 ^ (k - 1)) in H
      by (rewrite <- Z.pow_succ_r by lia; f_equal; lia).
    lia.
  - assert (1 <= k).
    { destruct (Z.eq_dec k 0); [subst; simpl in H; lia | lia]. }
    rewrite Pos2Z.inj_succ.
    enough (Zpos (digits2_pos p) <= k - 1) by lia.
    apply IH; [lia|].
    replace (2 ^ k) with (2 * 2 ^ (k - 1)) in H
      by (rewrite <- Z.pow_succ_r by lia; f_equal; lia).
    lia.
  - destruct (Z.eq_dec k 0); [subst; simpl in H; lia | lia].
Qed.

Lemma Zdigits2_range (v : Z) :
  0 < v -> v < 2 ^ 53 -> 1 <= Zdigits2 v <= 53.
Proof.
  destruct v as [|p|p]; intros Hp H; try lia. simpl. split.
  - lia.
  - apply digits2_pos_bound; [lia | exact H].
Qed.

(** Rounding [v * 2 ^ j * 2 ^ (- j)], an integer below [2 ^ 53], changes
    at most its representation. *)
Lemma binary_round_aux_integer (s : bool) (v j : Z) :
  0 < v -> v < 2 ^ 53 -> 0 <= j -> j <= 1000 ->
  exists j', 0 <= j' <= j /\
    binary_round_aux 53 1024 s (v * 2 ^ j) (- j) loc_Exact
    = S754_finite s (Z.to_pos (v * 2 ^ j')) (- j').
Proof.
  intros Hv Hb Hj Hj'.
  pose proof (Zdigits2_range v Hv Hb) as Hd.
  assert (Hfexp : forall d, 1 <= d <= 53 -> fexp 53 1024 d = d - 53).
  { intros d H. unfold fexp, emin. lia. }
  assert (Hnoshift : forall k, 0 <= k -> Zdigits2 v + k <= 53 ->
             shr_fexp 53 1024 (v * 2 ^ k) (- k) loc_Exact
             = ({| shr_m := v * 2 ^ k; shr_r := false; shr_s := false |}, - k)).
  { intros k Hk Hle. unfold shr_fexp. rewrite Zdigits2_shift by lia.
    replace (Zdigits2 v + k + - k) with (Zdigits2 v) by lia.
    rewrite Hfexp by lia. unfold shr.
    destruct (Zdigits2 v - 53 - - k) eqn:E; try reflexivity. lia. }
  assert (Hfin : forall k, 0 <= k -> k <= 1000 -> Zdigits2 v + k <= 53 ->
             binary_round_aux 53 1024 s (v * 2 ^ k) (- k) loc_Exact
             = S754_finite s (Z.to_pos (v * 2 ^ k)) (- k)).
  { intros k Hk Hk' Hle. unfold binary_round_aux.
    rewrite Hnoshift by assumption.
    cbn [shr_m loc_of_shr_record round_nearest_even].
    rewrite Hnoshift by assumption. cbn [shr_m].
    assert (0 < v * 2 ^ k) by (apply Z.mul_pos_pos; [lia | apply Z.pow_pos_nonneg; lia]).
    destruct (v * 2 ^ k) eqn:E; try lia.
    replace (- k <=? 1024 - 53) with true by (symmetry; apply Z.leb_le; lia).
    reflexivity. }
  destruct (Z_le_gt_dec (Zdigits2 v + j) 53) as [Hle|Hgt].
  - exists j. split; [lia|]. apply Hfin; assumption.
  - exists (53 - Zdigits2 v). split; [lia|].
    unfold binary_round_aux.
    assert (Hs : shr_fexp 53 1024 (v * 2 ^ j) (- j) loc_Exact
                 = ({| shr_m := v * 2 ^ (53 - Zdigits2 v); shr_r := false; shr_s := false |},
                    - (53 - Zdigits2 v))).
    { unfold shr_fexp. rewrite Zdigits2_shift by lia.
      replace (Zdigits2 v + j + - j) with (Zdigits2 v) by lia.
      rewrite Hfexp by lia. unfold shr.
      destruct (Zdigits2 v - 53 - - j) as [|n|n] eqn:E; try lia.
      rewrite iter_pos_iter. cbn [shr_record_of_loc].
      replace (v * 2 ^ j) with ((v * 2 ^ (53 - Zdigits2 v)) * 2 ^ Zpos n).
      2:{ rewrite <- Z.mul_assoc, <- Z.pow_add_r by lia. do 2 f_equal. lia. }
      rewrite shr_exact.
      2:{ apply Z.mul_pos_pos; [lia | apply Z.pow_pos_nonneg; lia]. }
      f_equal. lia. }
    rewrite Hs. cbn [shr_m loc_of_shr_record round_nearest_even].
    rewrite Hnoshift by lia. cbn [shr_m].
    assert (0 < v * 2 ^ (53 - Zdigits2 v))
      by (apply Z.mul_pos_pos; [lia | apply Z.pow_pos_nonneg; lia]).
    destruct (v * 2 ^ (53 - Zdigits2 v)) eqn:E; try lia.
    replace (- (53 - Zdigits2 v) <=? 1024 - 53) with true by (symmetry; apply Z.leb_le; lia).
    reflexivity.
Qed.

(** The integer held by a float of the form [v * 2 ^ j * 2 ^ (- j)]. *)
Lemma long_of_double_integer (s : bool) (v j : Z) :
  0 < v -> v < 2 ^ 53 -> 0 <= j ->
  long_of_double (S754_finite s (Z.to_pos (v * 2 ^ j)) (- j))
  = Ret (if s then - v else v).
Proof.
  intros Hv Hb Hj. unfold long_of_double.
  assert (0 < 2 ^ j) by (apply Z.pow_pos_nonneg; lia).
  assert (0 < v * 2 ^ j) by (apply Z.mul_pos_pos; lia).
  rewrite Z2Pos.id by assumption.
  assert (E : (if 0 <=? - j then v * 2 ^ j * 2 ^ (- j) else v * 2 ^ j / 2 ^ (- - j)) = v).
  { destruct (Z.leb_spec 0 (- j)).
    - replace j with 0 by lia. simpl. lia.
    - rewrite Z.opp_involutive. apply Z.div_mul. lia. }
  rewrite E.
  assert (R : in_long (if s then - v else v) = true).
  { unfold in_long, LONG_MIN, LONG_MAX.
    assert (2 ^ 53 < 2 ^ 63) by (apply Z.pow_lt_mono_r; lia).
    destruct s; apply andb_true_intro; split; apply Z.leb_le; lia. }
  rewrite R. reflexivity.
Qed.

(** The representation that [binary_round] gives to a small integer. *)
Lemma binary_round_integer (s : bool) (p : positive) :
  Zpos p < 2 ^ 53 ->
  exists j, 0 <= j <= 53 /\
    binary_round 53 1024 s p 0 = S754_finite s (Z.to_pos (Zpos p * 2 ^ j)) (- j).
Proof.
  intros Hb. unfold binary_round.
  pose proof (Zdigits2_range (Zpos p) eq_refl Hb) as Hd. simpl Zdigits2 in Hd.
  assert (Hf : fexp 53 1024 (Zpos (digits2_pos p) + 0) = Zpos (digits2_pos p) - 53).
  { unfold fexp, emin. lia. }
  rewrite Hf. unfold shl_align.
  destruct (Zpos (digits2_pos p) - 53 - 0) as [|n|n] eqn:E; try lia.
  - destruct (binary_round_aux_integer s (Zpos p) 0) as [j' [Hj' R]]; try lia.
    rewrite Z.mul_1_r in R. simpl Z.opp in R. rewrite R.
    exists j'. split; [lia | reflexivity].
  - destruct (binary_round_aux_integer s (Zpos p) (Zpos n)) as [j' [Hj' R]]; try lia.
    replace (Zpos (Pos.iter xO p n)) with (Zpos p * 2 ^ Zpos n).
    2:{ clear. induction n using Pos.peano_ind.
        - cbn [Pos.iter]. lia.
        - rewrite Pos.iter_succ, Pos2Z.inj_succ, Z.pow_succ_r by lia.
          change (Zpos (Pos.iter xO p n)~0) with (2 * Zpos (Pos.iter xO p n)).
          lia. }
    replace (Zpos (digits2_pos p) - 53) with (- Zpos n) by lia.
    rewrite R. exists j'. split; [lia | reflexivity].
Qed.

(** [atof] of an integer numeral below [2 ^ 53], then [(long)], gives the
    integer back. *)
Lemma long_of_double_round (s : bool) (p : positive) :
  Zpos p < 2 ^ 53 ->
  long_of_double (binary_round 53 1024 s p 0) = Ret (if s then Zneg p else Zpos p).
Proof.
  intros Hb. destruct (binary_round_integer s p Hb) as [j [Hj R]].
  rewrite R, long_of_double_integer by lia. reflexivity.
Qed.

(** The product with a small integer constant, when it stays below
    [2 ^ 53], is exact as well. *)
Lemma long_of_double_mul (s : bool) (p k : positive) :
  Zpos p * Zpos k < 2 ^ 53 ->
  long_of_double (double_mul (binary_round 53 1024 s p 0) (double_of_int (Zpos k)))
  = Ret (if s then - (Zpos p * Zpos k) else Zpos p * Zpos k).
Proof.
  intros Hb.
  assert (Hp : Zpos p < 2 ^ 53) by nia.
  assert (Hk : Zpos k < 2 ^ 53) by nia.
  destruct (binary_round_integer s p Hp) as [j1 [Hj1 R1]].
  destruct (binary_round_integer false k Hk) as [j2 [Hj2 R2]].
  unfold double_of_int, binary_normalize, double_mul. rewrite R1, R2.
  unfold SFmul. rewrite xorb_false_r.
  assert (P1 : 0 < Zpos p * 2 ^ j1)
    by (apply Z.mul_pos_pos; [lia | apply Z.pow_pos_nonneg; lia]).
  assert (P2 : 0 < Zpos k * 2 ^ j2)
    by (apply Z.mul_pos_pos; [lia | apply Z.pow_pos_nonneg; lia]).
  rewrite Pos2Z.inj_mul, !Z2Pos.id by assumption.
  replace (Zpos p * 2 ^ j1 * (Zpos k * 2 ^ j2)) with ((Zpos p * Zpos k) * 2 ^ (j1 + j2))
    by (rewrite Z.pow_add_r by lia; lia).
  replace (- j1 + - j2) with (- (j1 + j2)) by lia.
  destruct (binary_round_aux_integer s (Zpos p * Zpos k) (j1 + j2)) as [j' [Hj' R]];
    try lia.
  rewrite R, long_of_double_integer by lia. reflexivity.
Qed.

(** ** The scan of [to_base_unit] *)

Lemma tbu_scan_cons (AMS : Z) (c : ascii) (s : string) (st : tbu_state) :
  tbu_scan AMS (String c s) st
  = if is_nul c then Ret st else st' <- tbu_step AMS c st ;; tbu_scan AMS s st'.
Proof. reflexivity. Qed.

Lemma is_digit_code (c : ascii) : is_digit c = true -> 48 <= code c <= 57.
Proof. unfold is_digit. intros H. apply andb_prop in H. destruct H. lia. Qed.

Lemma is_lower_code (c : ascii) : is_lower c = true -> 97 <= code c <= 122.
Proof. unfold is_lower. intros H. apply andb_prop in H. destruct H. lia. Qed.

Lemma numeral_char_code (c : ascii) :
  numeral_char c = true -> 43 <= code c <= 57.
Proof.
  unfold numeral_char, is_digit. intros H. apply orb_prop in H.
  destruct H as [H|H]; apply andb_prop in H; destruct H; lia.
Qed.

Lemma code_not_nul (c : ascii) : 0 < code c -> is_nul c = false.
Proof. intros H. unfold is_nul. apply Z.eqb_neq. lia. Qed.

Lemma all_chars_no_nul (p : ascii -> bool) (s : string) :
  (forall c, p c = true -> is_nul c = false) ->
  all_chars p s = true -> no_nul s = true.
Proof.
  intros Hp. induction s as [|c s IH]; simpl; intros H; [reflexivity|].
  apply andb_prop in H. destruct H as [Hc Hs]. rewrite (Hp c Hc), (IH Hs). reflexivity.
Qed.

Lemma all_chars_app (p : ascii -> bool) (s t : string) :
  all_chars p (s ++ t) = all_chars p s && all_chars p t.
Proof.
  induction s as [|c s IH]; simpl; [reflexivity|]. rewrite IH, andb_assoc. reflexivity.
Qed.

(** In the numeral state the characters of the class are appended to
    [strnum]. *)
Lemma tbu_scan_number (AMS : Z) (n : string) :
  forall (c : ascii) (acc : string) (tl unit : buffer) (rest : string),
    all_chars numeral_char (String c n) = true ->
    Z.of_nat (String.length acc + String.length (String c n)) < AMS ->
    (String.length acc + String.length (String c n) < 256)%nat ->
    exists tl',
      tbu_scan AMS (String c n ++ rest)
        {| tbu_stage := PARSING_NUMBER; tbu_cur_pos := Z.of_nat (String.length acc);
           tbu_unit := unit; tbu_strnum := chars acc ++ tl |}
      = tbu_scan AMS rest
          {| tbu_stage := PARSING_NUMBER;
             tbu_cur_pos := Z.of_nat (String.length acc + String.length (String c n));
             tbu_unit := unit;
             tbu_strnum := chars (acc ++ String c n) ++ Some NUL :: tl' |}.
Proof.
  induction n as [|d n IH]; intros c acc tl unit rest Hn Hcap Hw;
    cbn [all_chars] in Hn; apply andb_prop in Hn; destruct Hn as [Hc Hn];
    pose proof (numeral_char_code c Hc) as Hcode;
    change (String c ?s ++ rest)%string with (String c (s ++ rest));
    rewrite tbu_scan_cons, (code_not_nul c) by lia;
    unfold tbu_step; cbn [tbu_stage tbu_strnum tbu_cur_pos tbu_unit];
    unfold numeral_char, is_digit in Hc; rewrite Hc;
    cbn [String.length] in Hcap, Hw;
    rewrite append_char_chars by (try apply u8_small; lia); cbn [bind].
  - eexists. cbn [append]. do 2 f_equal. cbn [String.length]. lia.
  - replace (Z.of_nat (String.length acc) + 1)
      with (Z.of_nat (String.length (acc ++ String c ""))) by (rewrite length_snoc; lia).
    destruct (IH d (acc ++ String c "")%string (Some NUL :: List.tl (List.tl tl)) unit rest Hn)
      as [tl' E].
    + rewrite length_snoc. cbn [String.length]. lia.
    + rewrite length_snoc. cbn [String.length]. lia.
    + exists tl'. rewrite E, app_snoc_cons. do 2 f_equal.
      rewrite length_snoc. cbn [String.length]. lia.
Qed.

Lemma tbu_scan_prefix (AMS : Z) (n u rest : string) :
  all_chars numeral_char n = true ->
  Z.of_nat (String.length n) < AMS ->
  (String.length n < 256)%nat ->
  all_chars is_lower u = true ->
  (String.length u <= 2)%nat ->
  exists st,
    tbu_scan AMS (n ++ u ++ rest) tbu_init = tbu_scan AMS rest st /\ tbu_after n u st.
Proof.
  intros Hn Hcap Hw Hu Hlen.
  assert (Hnn : no_nul n = true).
  { apply (all_chars_no_nul numeral_char); [|exact Hn].
    intros c Hc. apply code_not_nul. pose proof (numeral_char_code c Hc). lia. }
  assert (N : exists st1,
             tbu_scan AMS (n ++ u ++ rest) tbu_init = tbu_scan AMS (u ++ rest) st1
             /\ tbu_stage st1 = PARSING_NUMBER /\ tbu_unit st1 = [Some NUL]
             /\ match n with
                | EmptyString => tbu_strnum st1 = []
                | _ => load_string (tbu_strnum st1) = Ret n
                end).
  { destruct n as [|c n].
    - exists tbu_init. repeat split.
    - destruct (tbu_scan_number AMS n c "" [] [Some NUL] (u ++ rest) Hn) as [tl' E].
      + cbn [String.length Nat.add] in *. lia.
      + cbn [String.length Nat.add] in *. lia.
      + eexists. split; [exact E|]. cbn [tbu_stage tbu_unit tbu_strnum].
        repeat split. change ("" ++ String c n)%string with (String c n).
        apply load_string_chars. exact Hnn. }
  destruct N as [st1 [E1 [Hs1 [Hu1 Hn1]]]].
  destruct st1 as [stage1 pos1 unit1 strnum1]. cbn in Hs1, Hu1, Hn1. subst stage1 unit1.
  rewrite E1. clear E1.
  destruct u as [|c1 u].
  - exists {| tbu_stage := PARSING_NUMBER; tbu_cur_pos := pos1;
              tbu_unit := [Some NUL]; tbu_strnum := strnum1 |}.
    split; [reflexivity|]. repeat split. exact Hn1.
  - cbn [all_chars] in Hu. apply andb_prop in Hu. destruct Hu as [Hc1 Hu].
    pose proof (is_lower_code c1 Hc1) as Hcode1.
    change (String c1 u ++ rest)%string with (String c1 (u ++ rest)).
    rewrite tbu_scan_cons, (code_not_nul c1) by lia.
    unfold tbu_step at 1. cbn [tbu_stage tbu_strnum tbu_cur_pos tbu_unit].
    replace ((48 <=? code c1) && (code c1 <=? 57) || (43 <=? code c1) && (code c1 <=? 46))
      with false.
    2:{ symmetry. apply orb_false_iff. split; apply andb_false_iff; right; apply Z.leb_gt; lia. }
    unfold is_lower in Hc1. rewrite Hc1.
    change (append_char 3 u8 [Some NUL] 0 c1) with (Ret ([Some c1; Some NUL], 1)).
    cbn [bind].
    destruct u as [|c2 u].
    + eexists. split; [reflexivity|]. repeat split. exact Hn1.
    + destruct u as [|c3 u]; [|cbn [String.length] in Hlen; lia].
      cbn [all_chars] in Hu. apply andb_prop in Hu. destruct Hu as [Hc2 _].
      pose proof (is_lower_code c2 Hc2) as Hcode2.
      change (String c2 "" ++ rest)%string with (String c2 rest).
      rewrite tbu_scan_cons, (code_not_nul c2) by lia.
      unfold tbu_step at 1. cbn [tbu_stage tbu_strnum tbu_cur_pos tbu_unit].
      unfold is_lower in Hc2. rewrite Hc2.
      change (append_char 3 u8 [Some c1; Some NUL] 1 c2)
        with (Ret ([Some c1; Some c2; Some NUL], 2)).
      cbn [bind].
      eexists. split; [reflexivity|]. repeat split. exact Hn1.
Qed.

(** A character outside the class of the current state ends the program. *)
Lemma tbu_scan_violation (AMS : Z) (c : ascii) (rest : string) (st : tbu_state) :
  is_nul c = false ->
  is_lower c = false ->
  (tbu_stage st = PARSING_NUMBER -> numeral_char c = false ->
   tbu_scan AMS (String c rest) st = Exit (InvalidNumberChar c))
  /\ (tbu_stage st = PARSING_UNIT ->
      tbu_scan AMS (String c rest) st = Exit (InvalidUnitChar c)).
Proof.
  intros Hz Hl. unfold is_lower in Hl. split.
  - intros Hs Hc. rewrite tbu_scan_cons, Hz. unfold tbu_step. rewrite Hs.
    unfold numeral_char, is_digit in Hc. rewrite Hc, Hl. reflexivity.
  - intros Hs. rewrite tbu_scan_cons, Hz. unfold tbu_step. rewrite Hs, Hl. reflexivity.
Qed.

(** C8 (as the code has it): in the numeral state the digits and the four
    characters [+ , - .] are collected and a lowercase letter starts the
    unit; in the unit state lowercase letters are collected; any other
    character ends the program with the message of the state it is in. *)
Theorem unit_converter_character_classes
    (AMS : Z) (n u : string) (c : ascii) (rest : string) :
  all_chars numeral_char n = true ->
  Z.of_nat (String.length n) < AMS ->
  (String.length n < 256)%nat ->
  all_chars is_lower u = true ->
  (String.length u <= 2)%nat ->
  (exists st, tbu_scan AMS (n ++ u) tbu_init = Ret st /\ tbu_after n u st)
  /\ (is_nul c = false -> numeral_char c = false -> is_lower c = false ->
      to_base_unit AMS (n ++ String c rest) = Exit (InvalidNumberChar c))
  /\ (is_nul c = false -> is_lower c = false -> u <> "" ->
      to_base_unit AMS (n ++ u ++ String c rest) = Exit (InvalidUnitChar c)).
Proof.
  intros Hn Hcap Hw Hu Hlen. split; [|split].
  - destruct (tbu_scan_prefix AMS n u "" Hn Hcap Hw Hu Hlen) as [st [E A]].
    exists st. split; [|exact A].
    replace (n ++ u)%string with (n ++ u ++ "")%string; [exact E|].
    f_equal. clear. induction u; simpl; congruence.
  - intros Hz Hc Hl.
    destruct (tbu_scan_prefix AMS n "" (String c rest) Hn Hcap Hw eq_refl) as [st [E A]];
      [simpl; lia|].
    cbn [append] in E. unfold to_base_unit. rewrite E.
    destruct A as [Hs _].
    destruct (tbu_scan_violation AMS c rest st Hz Hl) as [V _].
    rewrite (V Hs Hc). reflexivity.
  - intros Hz Hl Hne.
    destruct (tbu_scan_prefix AMS n u (String c rest) Hn Hcap Hw Hu Hlen) as [st [E A]].
    unfold to_base_unit. rewrite E.
    destruct A as [Hs _].
    destruct (tbu_scan_violation AMS c rest st Hz Hl) as [_ V].
    destruct u; [congruence|].
    rewrite (V Hs). reflexivity.
Qed.

Lemma unit_converter_character_classes_witness :
  (exists st, tbu_scan 30 "1,5mm" tbu_init = Ret st /\ tbu_after "1,5" "mm" st)
  /\ to_base_unit 30 "1,5 " = Exit (InvalidNumberChar " ")
  /\ to_base_unit 30 "1,5mm2" = Exit (InvalidUnitChar "2").
Proof.
  destruct (unit_converter_character_classes 30 "1,5" "mm" " " "")
    as [A [B _]]; try reflexivity; try (simpl; lia).
  destruct (unit_converter_character_classes 30 "1,5" "mm" "2" "")
    as [_ [_ C]]; try reflexivity; try (simpl; lia).
  split; [exact A|]. split.
  - apply B; reflexivity.
  - apply C; [reflexivity | reflexivity | discriminate].
Defined.

(** C8 as stated fails: the comma is outside the stated class, and the
    numeral state accepts it. *)
Lemma comma_accepted_in_numeral :
  stated_numeral_char "," = false
  /\ to_base_unit 30 "1,5" = Ret 1
  /\ ~ (exists f, UnitError f /\ to_base_unit 30 "1,5" = Exit f).
Proof.
  split; [reflexivity|]. split; [vm_compute; reflexivity|].
  intros [f [_ H]]. vm_compute in H. discriminate H.
Qed.

Lemma dec_char_code (c : ascii) : dec_char c = true -> 46 <= code c <= 57.
Proof.
  unfold dec_char. intros H. apply orb_prop in H. destruct H as [H|H].
  - apply is_digit_code in H. lia.
  - apply Z.eqb_eq in H. lia.
Qed.

Ltac code_tests :=
  repeat match goal with
         | |- context [Z.eqb (code ?c) ?k] =>
             replace (Z.eqb (code c) k) with false by (symmetry; apply Z.eqb_neq; lia)
         | |- context [Z.leb (code ?c) ?k] =>
             first [ replace (Z.leb (code c) k) with true by (symmetry; apply Z.leb_le; lia)
                   | replace (Z.leb (code c) k) with false by (symmetry; apply Z.leb_gt; lia) ]
         | |- context [Z.leb ?k (code ?c)] =>
             first [ replace (Z.leb k (code c)) with true by (symmetry; apply Z.leb_le; lia)
                   | replace (Z.leb k (code c)) with false by (symmetry; apply Z.leb_gt; lia) ]
         end.

Lemma outside_decimal_dec (s : string) :
  all_chars dec_char s = true -> outside_decimal s = false.
Proof.
  destruct s as [|c [|d r]]; cbn [all_chars]; intros H; [reflexivity| |].
  - apply andb_prop in H. destruct H as [Hc _]. apply dec_char_code in Hc.
    unfold outside_decimal. code_tests. reflexivity.
  - apply andb_prop in H. destruct H as [Hc H]. apply andb_prop in H. destruct H as [Hd _].
    apply dec_char_code in Hc. apply dec_char_code in Hd.
    unfold outside_decimal. code_tests. rewrite andb_false_r. reflexivity.
Qed.

Lemma skip_space_dec (c : ascii) (r : string) :
  dec_char c = true -> skip_space (String c r) = String c r.
Proof.
  intros H. apply dec_char_code in H. cbn [skip_space]. unfold isspace.
  code_tests. reflexivity.
Qed.

Lemma read_sign_dec (c : ascii) (r : string) :
  dec_char c = true -> read_sign (String c r) = (false, String c r).
Proof.
  intros H. apply dec_char_code in H. unfold read_sign. code_tests. reflexivity.
Qed.

Lemma read_digits_app (ds rest : string) :
  forall acc k,
    all_chars is_digit ds = true ->
    match rest with
    | String c _ => is_digit c = false
    | EmptyString => True
    end ->
    read_digits (ds ++ rest) acc k
    = (digits_value ds acc, k + Z.of_nat (String.length ds), rest).
Proof.
  induction ds as [|d ds IH]; intros acc k Hd Hr.
  - cbn [append String.length digits_value]. rewrite Z.add_0_r.
    destruct rest as [|c r]; [reflexivity|]. cbn [read_digits]. rewrite Hr. reflexivity.
  - cbn [all_chars] in Hd. apply andb_prop in Hd. destruct Hd as [Hc Hd].
    cbn [append read_digits]. rewrite Hc, IH by assumption.
    cbn [digits_value String.length]. f_equal. f_equal. lia.
Qed.

Lemma digits_value_app (a b : string) (acc : Z) :
  digits_value (a ++ b) acc = digits_value b (digits_value a acc).
Proof.
  revert acc. induction a as [|c a IH]; intros acc; cbn; [reflexivity|]. apply IH.
Qed.

Lemma all_digits_dec (s : string) :
  all_chars is_digit s = true -> all_chars dec_char s = true.
Proof.
  induction s as [|c s IH]; cbn; intros H; [reflexivity|].
  apply andb_prop in H. destruct H as [Hc Hs]. unfold dec_char at 1. rewrite Hc, (IH Hs).
  reflexivity.
Qed.

(** [atof] reads the whole of a well-formed numeral: the result is the
    binary64 number nearest to its decimal value. *)
Lemma atof_numeral (sg : sign) (ip : string) (fp : option string) :
  well_formed_numeral ip fp ->
  atof (numeral_text sg ip fp)
  = Ret (b64_of_decimal (is_minus sg)
           (digits_value (ip ++ fraction_digits fp) 0)
           (- Z.of_nat (String.length (fraction_digits fp)))).
Proof.
  intros [Hi [Hf Hne]].
  set (frac := match fp with Some f => String "." f | None => "" end).
  assert (Hbody : all_chars dec_char (ip ++ frac) = true).
  { rewrite all_chars_app, (all_digits_dec ip Hi). subst frac.
    destruct fp as [f|]; [|reflexivity]. cbn [all_chars fraction_digits] in *.
    rewrite (all_digits_dec f Hf). reflexivity. }
  assert (Hnb : exists c r, (ip ++ frac)%string = String c r).
  { destruct ip as [|c ip]; [|exists c; eexists; reflexivity].
    subst frac. destruct fp as [f|]; [eexists; eexists; reflexivity|].
    exfalso. apply Hne. reflexivity. }
  destruct Hnb as [c [r Hcr]].
  assert (Hc : dec_char c = true).
  { rewrite Hcr in Hbody. cbn [all_chars] in Hbody. apply andb_prop in Hbody. tauto. }
  assert (Hsign : read_sign (skip_space (numeral_text sg ip fp))
                  = (is_minus sg, (ip ++ frac)%string)).
  { unfold numeral_text. fold frac. destruct sg; cbn [sign_text append is_minus].
    - rewrite Hcr, skip_space_dec, read_sign_dec by exact Hc. reflexivity.
    - reflexivity.
    - reflexivity. }
  unfold atof. rewrite Hsign, (outside_decimal_dec _ Hbody).
  assert (Hfrac : match frac with
                  | String c _ => is_digit c = false
                  | EmptyString => True
                  end).
  { subst frac. destruct fp; [reflexivity | exact I]. }
  rewrite (read_digits_app ip frac 0 0 Hi Hfrac).
  subst frac. destruct fp as [f|]; cbn [fraction_digits] in *.
  - change (code "." =? 46) with true. cbv beta iota.
    replace f with (f ++ "")%string at 1 by (clear; induction f; simpl; congruence).
    rewrite (read_digits_app f "" (digits_value ip 0) 0 Hf I).
    replace (0 + Z.of_nat (String.length ip) + (0 + Z.of_nat (String.length f)) =? 0)
      with false.
    2:{ symmetry. apply Z.eqb_neq. destruct ip, f; cbn [String.length]; try lia.
        exfalso. apply Hne. reflexivity. }
    cbn [read_exponent]. rewrite digits_value_app.
    replace (0 - (0 + Z.of_nat (String.length f))) with (- Z.of_nat (String.length f)) by lia.
    reflexivity.
  - replace (0 + Z.of_nat (String.length ip) + 0 =? 0) with false.
    2:{ symmetry. apply Z.eqb_neq. destruct ip; cbn [String.length]; try lia.
        exfalso. apply Hne. reflexivity. }
    cbn [read_exponent String.length]. 
    replace (ip ++ "")%string with ip by (clear; induction ip; simpl; congruence).
    reflexivity.
Qed.

Lemma numeral_text_chars (sg : sign) (ip : string) (fp : option string) :
  well_formed_numeral ip fp ->
  all_chars numeral_char (numeral_text sg ip fp) = true
  /\ numeral_text sg ip fp <> "".
Proof.
  intros [Hi [Hf Hne]].
  assert (D : forall s, all_chars is_digit s = true -> all_chars numeral_char s = true).
  { induction s as [|c s IH]; cbn; intros H; [reflexivity|].
    apply andb_prop in H. destruct H as [Hc Hs].
    unfold numeral_char at 1. rewrite Hc, (IH Hs). reflexivity. }
  split.
  - unfold numeral_text. rewrite !all_chars_app, (D ip Hi).
    replace (all_chars numeral_char (sign_text sg)) with true by (destruct sg; reflexivity).
    destruct fp as [f|]; [|reflexivity].
    cbn [all_chars fraction_digits] in *. rewrite (D f Hf). reflexivity.
  - unfold numeral_text. destruct sg; cbn [sign_text append]; try discriminate.
    destruct ip; cbn [append]; try discriminate.
    destruct fp; cbn [fraction_digits] in *; try discriminate.
    exact Hne.
Qed.

Lemma digits_value_nonneg (s : string) :
  forall acc, 0 <= acc -> all_chars is_digit s = true -> 0 <= digits_value s acc.
Proof.
  induction s as [|c s IH]; cbn [digits_value all_chars]; intros acc Ha H; [exact Ha|].
  apply andb_prop in H. destruct H as [Hc Hs]. apply is_digit_code in Hc.
  apply IH; [lia | exact Hs].
Qed.

Lemma app_empty_r (s : string) : (s ++ "")%string = s.
Proof. induction s; simpl; congruence. Qed.

(** The conversion after the scan of a numeral [n] and a unit [u]. *)
Lemma tbu_convert_after (n u : string) (st : tbu_state) (orig : spec_float) :
  tbu_after n u st ->
  n <> "" ->
  atof n = Ret orig ->
  all_chars is_lower u = true ->
  tbu_convert st
  = match unit_scale u with
    | Some k => long_of_double (if k =? 1 then orig else double_mul orig (double_of_int k))
    | None => Exit (InvalidUnit u)
    end.
Proof.
  intros [Hs [Hu Hn]] Hne Ha Hl. unfold tbu_convert.
  destruct n as [|c n]; [congruence|]. rewrite Hn. cbn [bind]. rewrite Ha. cbn [bind].
  rewrite Hu.
  destruct u as [|c1 u].
  - reflexivity.
  - cbn [all_chars] in Hl. apply andb_prop in Hl. destruct Hl as [Hc1 Hl].
    assert (Hz : is_nul c1 = false).
    { apply code_not_nul. apply is_lower_code in Hc1. lia. }
    change (load 3 (chars (String c1 u) ++ [Some NUL]) 0) with (@Ret ascii c1).
    cbn [bind]. rewrite Hz.
    rewrite load_string_chars.
    2:{ apply (all_chars_no_nul is_lower).
        - intros c' Hc. apply code_not_nul. apply is_lower_code in Hc. lia.
        - cbn [all_chars]. rewrite Hc1, Hl. reflexivity. }
    cbn [bind]. unfold unit_scale.
    change (String c1 u =? "")%string with false. cbv beta iota.
    destruct (String c1 u =? "m")%string; [reflexivity|].
    destruct (String c1 u =? "cm")%string; [reflexivity|].
    destruct (String c1 u =? "mm")%string; reflexivity.
Qed.

Lemma unit_scale_lower (u : string) (k : Z) :
  unit_scale u = Some k ->
  all_chars is_lower u = true /\ (String.length u <= 2)%nat /\ (k = 1 \/ k = 10 \/ k = 1000).
Proof.
  unfold unit_scale.
  destruct (String.eqb_spec u ""); [subst; intros H; inversion H; cbn; lia|].
  destruct (String.eqb_spec u "m"); [subst; intros H; inversion H; cbn; lia|].
  destruct (String.eqb_spec u "cm"); [subst; intros H; inversion H; cbn; lia|].
  destruct (String.eqb_spec u "mm"); [subst; intros H; inversion H; cbn; lia|].
  discriminate.
Qed.

(** [to_base_unit] on a well-formed numeral followed by lowercase
    letters. *)
Lemma to_base_unit_numeral (AMS : Z) (sg : sign) (ip : string) (fp : option string)
    (u : string) :
  well_formed_numeral ip fp ->
  Z.of_nat (String.length (numeral_text sg ip fp)) < AMS ->
  (String.length (numeral_text sg ip fp) < 256)%nat ->
  all_chars is_lower u = true ->
  (String.length u <= 2)%nat ->
  to_base_unit AMS (numeral_text sg ip fp ++ u)
  = match unit_scale u with
    | Some k => scaled_in_double sg ip fp k
    | None => Exit (InvalidUnit u)
    end.
Proof.
  intros Hwf Hcap Hw Hl Hlen.
  destruct (numeral_text_chars sg ip fp Hwf) as [Hn Hne].
  destruct (tbu_scan_prefix AMS _ u "" Hn Hcap Hw Hl Hlen) as [st [E A]].
  rewrite app_empty_r in E. cbn [tbu_scan] in E.
  unfold to_base_unit. rewrite E. cbn [bind].
  rewrite (tbu_convert_after _ u st _ A Hne (atof_numeral sg ip fp Hwf) Hl).
  reflexivity.
Qed.

(** The third letter of a unit is stored at [unit[2]] and its terminator
    at [unit[3]], outside the array. *)
Lemma tbu_three_letters (AMS : Z) (n : string) (a b c : ascii) (rest : string) :
  all_chars numeral_char n = true ->
  Z.of_nat (String.length n) < AMS -> (String.length n < 256)%nat ->
  is_lower a = true -> is_lower b = true -> is_lower c = true ->
  to_base_unit AMS (n ++ String a (String b (String c rest))) = Undef OutOfBounds.
Proof.
  intros Hn Hcap Hw La Lb Lc.
  destruct (tbu_scan_prefix AMS n "" (String a (String b (String c rest))) Hn Hcap Hw
              eq_refl) as [st [E [Hs [Hu _]]]]; [cbn; lia|].
  cbn [append] in E. unfold to_base_unit. rewrite E. clear E.
  destruct st as [sg pos unit num]. cbn in Hs, Hu. subst sg unit.
  pose proof (is_lower_code a La) as Ka.
  pose proof (is_lower_code b Lb) as Kb.
  pose proof (is_lower_code c Lc) as Kc.
  unfold is_lower in La, Lb, Lc.
  rewrite tbu_scan_cons, (code_not_nul a) by lia.
  unfold tbu_step at 1. cbn [tbu_stage tbu_strnum tbu_cur_pos tbu_unit].
  replace ((48 <=? code a) && (code a <=? 57) || (43 <=? code a) && (code a <=? 46))
    with false
    by (symmetry; apply orb_false_iff; split; apply andb_false_iff; right;
        apply Z.leb_gt; lia).
  rewrite La. unfold append_char at 1.
  rewrite store_in by lia. cbn [bind]. change (u8 (0 + 1)) with 1.
  rewrite store_in by lia. cbn [bind].
  rewrite tbu_scan_cons, (code_not_nul b) by lia.
  unfold tbu_step at 1. cbn [tbu_stage tbu_strnum tbu_cur_pos tbu_unit].
  rewrite Lb. unfold append_char at 1.
  rewrite store_in by lia. cbn [bind]. change (u8 (1 + 1)) with 2.
  rewrite store_in by lia. cbn [bind].
  rewrite tbu_scan_cons, (code_not_nul c) by lia.
  unfold tbu_step at 1. cbn [tbu_stage tbu_strnum tbu_cur_pos tbu_unit].
  rewrite Lc. unfold append_char at 1.
  rewrite store_in by lia. cbn [bind]. change (u8 (2 + 1)) with 3.
  rewrite store_out by lia. reflexivity.
Qed.

(** C1: the reference conversions; a well-formed numeral followed by no
    unit, mm, cm or m is read as a binary64 number, multiplied by 1, 10
    or 1000 and truncated toward zero, whenever that value is a [long];
    for a numeral without a fraction whose scaled value is below 2^53
    this is the exact product; a suffix of one or two lowercase letters
    that is not a unit ends the program with the message for an invalid
    unit.  A suffix of three letters or more, as in 10xyz, does not: its
    terminator is written past the end of [unit] before the unit is
    looked at. *)
Theorem to_base_unit_reference (AMS : Z) :
  3 <= AMS ->
  to_base_unit AMS "10mm" = Ret 10
  /\ to_base_unit AMS "1cm" = Ret 10
  /\ to_base_unit AMS "1m" = Ret 1000
  /\ (forall sg ip fp u k v,
        well_formed_numeral ip fp ->
        Z.of_nat (String.length (numeral_text sg ip fp)) < AMS ->
        (String.length (numeral_text sg ip fp) < 256)%nat ->
        unit_scale u = Some k ->
        scaled_in_double sg ip fp k = Ret v ->
        to_base_unit AMS (numeral_text sg ip fp ++ u) = Ret v)
  /\ (forall sg ip u k,
        well_formed_numeral ip None ->
        Z.of_nat (String.length (numeral_text sg ip None)) < AMS ->
        (String.length (numeral_text sg ip None) < 256)%nat ->
        unit_scale u = Some k ->
        digits_value ip 0 * k < 2 ^ 53 ->
        to_base_unit AMS (numeral_text sg ip None ++ u)
        = Ret (scaled_exactly sg ip None k))
  /\ (forall sg ip fp u,
        well_formed_numeral ip fp ->
        Z.of_nat (String.length (numeral_text sg ip fp)) < AMS ->
        (String.length (numeral_text sg ip fp) < 256)%nat ->
        all_chars is_lower u = true ->
        (String.length u <= 2)%nat ->
        unit_scale u = None ->
        exists f, UnitError f
                  /\ to_base_unit AMS (numeral_text sg ip fp ++ u) = Exit f)
  /\ (forall n a b c rest,
        all_chars numeral_char n = true ->
        Z.of_nat (String.length n) < AMS -> (String.length n < 256)%nat ->
        is_lower a = true -> is_lower b = true -> is_lower c = true ->
        to_base_unit AMS (n ++ String a (String b (String c rest)))
        = Undef OutOfBounds)
  /\ to_base_unit AMS "10xyz" = Undef OutOfBounds.
Proof.
  intros HA.
  split; [unfold to_base_unit; evaluate; reflexivity|].
  split; [unfold to_base_unit; evaluate; reflexivity|].
  split; [unfold to_base_unit; evaluate; reflexivity|].
  split; [|split; [|split; [|split]]].
  - intros sg ip fp u k v Hwf Hcap Hw Hk Hv.
    destruct (unit_scale_lower u k Hk) as [Hl [Hlen _]].
    rewrite (to_base_unit_numeral AMS sg ip fp u Hwf Hcap Hw Hl Hlen), Hk. exact Hv.
  - intros sg ip u k Hwf Hcap Hw Hk Hb.
    destruct (unit_scale_lower u k Hk) as [Hl [Hlen Hk3]].
    rewrite (to_base_unit_numeral AMS sg ip None u Hwf Hcap Hw Hl Hlen), Hk.
    unfold scaled_in_double, scaled_exactly. cbn [fraction_digits String.length Z.of_nat].
    rewrite app_empty_r. change (10 ^ 0) with 1. rewrite Z.quot_1_r.
    destruct Hwf as [Hi _].
    pose proof (digits_value_nonneg ip 0 (Z.le_refl 0) Hi) as Hv.
    unfold b64_of_decimal.
    destruct (digits_value ip 0) as [|p|p] eqn:Ev; try lia.
    + destruct Hk3 as [ -> | [ -> | -> ] ]; cbn [Z.eqb Pos.eqb]; cbv beta iota;
        destruct (is_minus sg); reflexivity.
    + change (- 0) with 0. change (0 <=? 0) with true. cbv beta iota.
      change (Z.to_pos (10 ^ 0)) with 1%positive. rewrite Pos.mul_1_r.
      destruct Hk3 as [ -> | [ -> | -> ] ].
      * change (1 =? 1) with true. cbv beta iota.
        rewrite long_of_double_round by lia.
        destruct (is_minus sg); f_equal; lia.
      * change (10 =? 1) with false. cbv beta iota.
        rewrite (long_of_double_mul (is_minus sg) p 10) by lia.
        destruct (is_minus sg); f_equal; lia.
      * change (1000 =? 1) with false. cbv beta iota.
        rewrite (long_of_double_mul (is_minus sg) p 1000) by lia.
        destruct (is_minus sg); f_equal; lia.
  - intros sg ip fp u Hwf Hcap Hw Hl Hlen Hk.
    rewrite (to_base_unit_numeral AMS sg ip fp u Hwf Hcap Hw Hl Hlen), Hk.
    exists (InvalidUnit u). split; [exact I | reflexivity].
  - intros n a b c rest. apply tbu_three_letters.
  - apply (tbu_three_letters AMS "10" "x" "y" "z" "");
      [reflexivity | cbn; lia | cbn; lia | reflexivity | reflexivity | reflexivity].
Qed.

Lemma to_base_unit_reference_witness :
  to_base_unit 30 "10mm" = Ret 10
  /\ to_base_unit 30 "-25cm" = Ret (-250)
  /\ to_base_unit 30 "2.5cm" = Ret 25
  /\ (exists f, UnitError f /\ to_base_unit 30 "10km" = Exit f)
  /\ to_base_unit 30 "10xyz" = Undef OutOfBounds.
Proof.
  assert (H : 3 <= 30) by lia.
  destruct (to_base_unit_reference 30 H) as [A [_ [_ [G [E [U [_ X]]]]]]].
  split; [exact A|]. split; [|split; [|split]].
  - apply (E Minus "25" "cm" 10);
      try reflexivity; try (simpl; lia); repeat split; discriminate.
  - apply (G NoSign "2" (Some "5") "cm" 10 25);
      [ repeat split; discriminate | simpl; lia | simpl; lia | reflexivity
      | vm_compute; reflexivity ].
  - apply (U NoSign "10" None "km");
      try reflexivity; try (simpl; lia); repeat split; discriminate.
  - exact X.
Defined.

Section Dispatch.
Variable CMS AMS AAMS VMS : Z.



Lemma set_variable_objects (name : string) (value : option string) (e e' : engine) :
  set_variable AMS name value e = Ret e' -> objects e' = objects e.
Proof.
  unfold set_variable. destruct name as [|t rest]; [discriminate|].
  destruct (is_nul t); [discriminate|].
  match goal with
  | |- bind ?m _ = _ -> _ => destruct m; cbn [bind]; try discriminate
  end.
  intros H. inversion H. reflexivity.
Qed.

Lemma create_object_objects (ty argc : Z) (argv : cells string) (e e' : engine) :
  create_object AMS AAMS VMS ty argc argv e = Ret e' ->
  exists o, build_object AMS AAMS ty argv = Ret o /\ objects e' = objects e ++ [o].
Proof.
  unfold create_object.
  destruct (build_object AMS AAMS ty argv) as [o| |]; cbn [bind]; try discriminate.
  destruct (load AAMS argv (to_char argc - 1)) as [last| |]; cbn [bind]; try discriminate.
  intros H. exists o. split; [reflexivity|].
  destruct last as [|c rest].
  - inversion H. reflexivity.
  - destruct (c =? "&")%char.
    + destruct (snprintf_lu VMS _) as [idx| |]; cbn [bind] in H; try discriminate.
      apply set_variable_objects in H. exact H.
    + inversion H. reflexivity.
Qed.

(** A line on which [parse_command] returns false changes nothing. *)
Lemma parse_command_false (l : string) (e e' : engine) :
  parse_command CMS AMS AAMS VMS l e = Ret (false, e') -> e' = e.
Proof.
  unfold parse_command. destruct l as [|c rest]; [discriminate|].
  destruct (is_nul c || (c =? "#")%char); [discriminate|].
  destruct (parse_line CMS AMS AAMS (String c rest) [] []) as [[[argc command] argv]| |];
    cbn [bind]; try discriminate.
  destruct (0 <=? argc).
  - destruct (load_string command) as [cmd| |]; cbn [bind]; try discriminate.
    destruct (0 <? is_obj_command cmd).
    + destruct (create_object _ _ _ _ _ _ _); cbn [bind]; discriminate.
    + destruct ("set" =? cmd)%string.
      * destruct (load AAMS argv 0); cbn [bind]; try discriminate.
        destruct (load_cell AAMS argv 1); cbn [bind]; try discriminate.
        destruct (set_variable _ _ _ _); cbn [bind]; discriminate.
      * intros H. inversion H. reflexivity.
  - intros H. inversion H. reflexivity.
Qed.

Lemma parse_line_comment (c : ascii) (rest : string) (argc : Z) (command : buffer)
    (argv : cells string) :
  is_nul c || (c =? "#")%char = true ->
  parse_line CMS AMS AAMS (String c rest) [] [] = Ret (argc, command, argv) ->
  argc = -1.
Proof.
  intros Hc. unfold parse_line.
  destruct (store CMS [] 0 NUL) as [b| |]; cbn [bind]; try discriminate.
  cbn [pl_scan].
  destruct (is_nul c); cbn [bind].
  - cbn. intros H. inversion H. reflexivity.
  - simpl in Hc. rewrite Hc. cbn. intros H. inversion H. reflexivity.
Qed.

(** A line command on which [parse_command] returns true appends the
    object it describes. *)
Lemma parse_command_line (l : string) (e e' : engine) :
  line_keyword CMS AMS AAMS l ->
  parse_command CMS AMS AAMS VMS l e = Ret (true, e') ->
  exists o, line_object CMS AMS AAMS l = Ret o /\ objects e' = objects e ++ [o].
Proof.
  intros [argc [command [argv [Hp [Ha Hc]]]]].
  unfold parse_command, line_object. destruct l as [|c rest].
  - exfalso. unfold parse_line in Hp.
    destruct (store CMS [] 0 NUL); cbn in Hp; try discriminate.
    inversion Hp. lia.
  - destruct (is_nul c || (c =? "#")%char) eqn:E.
    + exfalso. pose proof (parse_line_comment c rest argc command argv E Hp). lia.
    + rewrite Hp. cbn [bind].
      replace (0 <=? argc) with true by (symmetry; apply Z.leb_le; exact Ha).
      rewrite Hc. cbn [bind].
      change (is_obj_command "line") with TYPE_LINE.
      change (0 <? TYPE_LINE) with true. cbv beta iota.
      destruct (create_object AMS AAMS VMS TYPE_LINE argc argv e) as [e1| |] eqn:C;
        cbn [bind]; try discriminate.
      intros H. inversion H. subst e1.
      apply create_object_objects in C. exact C.
Qed.

(** C6: when every line on which [parse_command] returned true is a line
    command, the object container grows by one object per such line, the
    objects sit after the earlier ones in the order of their lines, and
    no earlier index changes its object. *)
Theorem line_commands_append_in_order (lines : list string) :
  forall (e e' : engine) (oks : list bool),
    dispatch_all CMS AMS AAMS VMS lines e = Ret (oks, e') ->
    (forall l, In l (successes lines oks) -> line_keyword CMS AMS AAMS l) ->
    exists created,
      objects e' = objects e ++ created
      /\ List.length created = count_occ bool_dec oks true
      /\ Forall2 (fun l o => line_object CMS AMS AAMS l = Ret o) (successes lines oks) created
      /\ (forall i o, nth_error (objects e) i = Some o ->
                      nth_error (objects e') i = Some o)
      /\ (forall k o, nth_error created k = Some o ->
                      nth_error (objects e') (List.length (objects e) + k) = Some o).
Proof.
  assert (Hidx : forall (a b : list object_t),
             (forall i o, nth_error a i = Some o -> nth_error (a ++ b) i = Some o)
             /\ (forall k o, nth_error b k = Some o ->
                             nth_error (a ++ b) (List.length a + k) = Some o)).
  { intros a b. split.
    - intros i o H. rewrite nth_error_app1; [exact H|].
      apply nth_error_Some. congruence.
    - intros k o H. rewrite nth_error_app2 by lia.
      replace (List.length a + k - List.length a)%nat with k by lia. exact H. }
  induction lines as [|l lines IH]; intros e e' oks H Hk.
  - simpl in H. inversion H. subst. exists []. rewrite app_nil_r.
    repeat split; try constructor; try (intros; assumption).
    intros k o Hn. destruct k; discriminate Hn.
  - simpl in H.
    destruct (parse_command CMS AMS AAMS VMS l e) as [[ok e1]| |] eqn:P;
      cbn [bind] in H; try discriminate.
    destruct (dispatch_all CMS AMS AAMS VMS lines e1) as [[oks1 e2]| |] eqn:D;
      cbn [bind] in H; try discriminate.
    inversion H. subst oks e'. clear H.
    destruct ok.
    + cbn [successes] in Hk.
      destruct (parse_command_line l e e1 (Hk l (or_introl eq_refl)) P) as [o [Ho Hobj]].
      destruct (IH e1 e2 oks1 D (fun l' H' => Hk l' (or_intror H')))
        as [created [Hc [Hlen [Hf _]]]].
      exists (o :: created).
      assert (Heq : objects e2 = objects e ++ o :: created).
      { rewrite Hc, Hobj, <- app_assoc. reflexivity. }
      rewrite Heq. split; [reflexivity|]. split.
      { cbn. rewrite Hlen. reflexivity. }
      split; [constructor; assumption|]. apply Hidx.
    + cbn [successes] in Hk |- *.
      apply parse_command_false in P. subst e1.
      destruct (IH e e2 oks1 D Hk) as [created [Hc [Hlen [Hf _]]]].
      exists created. rewrite Hc. split; [reflexivity|]. split.
      { cbn. exact Hlen. }
      split; [exact Hf|]. apply Hidx.
Qed.

End Dispatch.

Lemma line_commands_append_in_order_witness :
  let e2 :=
    {| objects :=
         [ {| type := 1; coord_count := Some 2;
              coord := Some [{| x := 0; y := 0 |}; {| x := 10; y := 0 |}] |};
           {| type := 1; coord_count := Some 2;
              coord := Some [{| x := 5; y := 5 |}; {| x := 5; y := 25 |}] |} ];
       variables := [ {| var_type := "&"; var_name := "a"; var_value_of := VObject 0 |} ] |} in
  dispatch_all 16 30 5 10
    ["line x0mm;y0mm, w10mm=&a"; "bogus"; "line x5mm;y5mm, h20mm"] nanocad_init
  = Ret ([true; false; true], e2)
  /\ exists created,
       objects e2 = objects nanocad_init ++ created /\ List.length created = 2%nat.
Proof.
  intros e2.
  assert (D : dispatch_all 16 30 5 10
                ["line x0mm;y0mm, w10mm=&a"; "bogus"; "line x5mm;y5mm, h20mm"] nanocad_init
              = Ret ([true; false; true], e2)) by (vm_compute; reflexivity).
  split; [exact D|].
  destruct (line_commands_append_in_order 16 30 5 10 _ _ _ _ D) as [created [Hc [Hl _]]].
  - intros l Hl. cbn in Hl.
    destruct Hl as [<-|[<-|[]]]; do 3 eexists;
      (split; [vm_compute; reflexivity | split; [lia | reflexivity]]).
  - exists created. split; [exact Hc | exact Hl].
Defined.

Lemma pl_scan_cons (CMS AMS AAMS : Z) (c : ascii) (s : string) (st : pl_state) :
  pl_scan CMS AMS AAMS (String c s) st
  = if is_nul c then Ret (PlNext st)
    else if (c =? "#")%char then Ret (PlNext st)
    else r <- pl_step CMS AMS AAMS c st ;;
         match r with
         | PlNext st' => pl_scan CMS AMS AAMS s st'
         | PlReturn v st' => Ret (PlReturn v st')
         end.
Proof. reflexivity. Qed.

(** In the capture stage the name is appended without a test of its
    length: the character that would fill the last cell of [cur_arg] puts
    the terminator one cell past the end. *)
Lemma pl_scan_capture_overrun (CMS AMS AAMS : Z) (k : nat) :
  forall (acc : string) (tl : buffer) (argc : Z) (command : buffer)
         (arguments : cells string),
    (1 <= String.length acc)%nat ->
    Z.of_nat (String.length acc + S k) = AMS ->
    AMS <= 65535 ->
    pl_scan CMS AMS AAMS (repeat_char "v" (S k))
      {| pl_stage := PARSING_SET_OBJVAR; pl_cur_cpos := Z.of_nat (String.length acc);
         pl_argc := argc; pl_cur_arg := chars acc ++ tl;
         pl_command := command; pl_arguments := arguments |}
    = Undef OutOfBounds.
Proof.
  induction k as [|k IH]; intros acc tl argc command arguments Hacc Hlen Hmax;
    cbn [repeat_char]; rewrite pl_scan_cons;
    change (is_nul "v") with false; change ("v" =? "#")%char with false; cbv beta iota;
    unfold pl_step; cbn [pl_stage pl_cur_cpos pl_cur_arg pl_argc pl_command pl_arguments];
    replace (Z.of_nat (String.length acc) =? 0) with false
      by (symmetry; apply Z.eqb_neq; lia);
    change (is_blank "v") with false; cbv beta iota.
  - unfold append_char. rewrite store_in by lia. cbn [bind].
    rewrite u16_small by lia. rewrite store_out by lia. reflexivity.
  - rewrite append_char_chars by (try apply u16_small; lia). cbn [bind].
    replace (Z.of_nat (String.length acc) + 1)
      with (Z.of_nat (String.length (acc ++ String "v" ""))) by (rewrite length_snoc; lia).
    apply IH.
    + rewrite length_snoc. lia.
    + rewrite length_snoc. lia.
    + exact Hmax.
Qed.

(** C7 (what the code does): a capture name as long as [cur_arg] is not
    refused; the tokenizer writes past the end of [cur_arg] instead of
    returning -1. *)
Theorem capture_name_overruns_cur_arg (CMS AMS AAMS : Z) :
  5 <= CMS -> 2 <= AMS <= 65535 -> 1 <= AAMS ->
  parse_line CMS AMS AAMS ("line a=&" ++ repeat_char "v" (Z.to_nat (AMS - 1))) [] []
  = Undef OutOfBounds.
Proof.
  intros HC HA HN. unfold parse_line.
  destruct (Z.to_nat (AMS - 1)) as [|k] eqn:E; [lia|].
  remember (repeat_char "v" (S k)) as rest eqn:R.
  cbn [append]. evaluate. subst rest.
  match goal with
  | |- context [pl_scan CMS AMS AAMS _
                  {| pl_stage := _; pl_cur_cpos := _; pl_argc := ?a; pl_cur_arg := _;
                     pl_command := ?c; pl_arguments := ?g |}] =>
      pose proof (pl_scan_capture_overrun CMS AMS AAMS k "&" [Some NUL] a c g) as L
  end.
  cbn [String.length chars list_ascii_of_string map app] in L.
  change (Z.of_nat 1) with 1 in L.
  rewrite L; [reflexivity | lia | lia | lia].
Qed.

Lemma capture_name_overruns_cur_arg_witness :
  parse_line 16 30 5 "line a=&vvvvvvvvvvvvvvvvvvvvvvvvvvvvv" [] [] = Undef OutOfBounds.
Proof. apply (capture_name_overruns_cur_arg 16 30 5); lia. Defined.

(** ** [chomp] *)

(** A buffer from which a string can be read holds its characters and a
    terminator. *)
Lemma load_string_inv (b : buffer) (s : string) :
  load_string b = Ret s ->
  no_nul s = true /\ exists tl, b = chars s ++ Some NUL :: tl.
Proof.
  revert s. induction b as [|x b IH]; intros s H; simpl in H; [discriminate|].
  destruct x as [c|]; [|discriminate].
  destruct (is_nul c) eqn:E.
  - inversion H. subst s. split; [reflexivity|]. exists b. simpl.
    unfold is_nul in E. apply Z.eqb_eq in E. do 2 f_equal.
    unfold code in E. destruct c as [[] [] [] [] [] [] [] []]; try discriminate E. reflexivity.
  - destruct (load_string b) as [s0| |] eqn:L; cbn [bind] in H; try discriminate.
    inversion H. subst s. destruct (IH s0 eq_refl) as [Hn [tl Hb]].
    split; [simpl; rewrite E, Hn; reflexivity|]. exists tl. rewrite Hb. reflexivity.
Qed.



Lemma chomp_from_cells (l : list ascii) :
  forall rest : buffer,
    chomp_from (map Some l ++ rest) (List.length l) = map blank_cell l ++ rest.
Proof.
  induction l as [|c l IH] using rev_ind; intros rest; [reflexivity|].
  rewrite length_app, Nat.add_comm. cbn [List.length Nat.add chomp_from].
  rewrite map_app, <- app_assoc. cbn [map app].
  rewrite nth_error_app2 by (rewrite length_map; lia).
  rewrite length_map, Nat.sub_diag. cbn [nth_error].
  rewrite map_app, <- app_assoc. cbn [map app]. unfold blank_cell at 2.
  destruct (isspace c).
  - rewrite <- (length_map Some l) at 1. rewrite set_cell_end. cbn [List.tl].
    apply IH.
  - apply IH.
Qed.

Lemma load_string_blanked (s : string) (tl : buffer) :
  no_nul s = true ->
  load_string (map blank_cell (list_ascii_of_string s) ++ Some NUL :: tl)
  = Ret (before_space s).
Proof.
  induction s as [|c s IH]; intros H; [reflexivity|].
  cbn [no_nul] in H. apply andb_prop in H. destruct H as [Hc Hs].
  apply negb_true_iff in Hc.
  cbn [list_ascii_of_string map app before_space]. unfold blank_cell at 1.
  destruct (isspace c); cbn [load_string].
  - reflexivity.
  - rewrite Hc, (IH Hs). reflexivity.
Qed.

(** X1: [chomp] ends the string at its first white-space character, wherever
    that character stands. *)
Theorem chomp_cuts_at_first_space (str : buffer) (s : string) :
  load_string str = Ret s ->
  exists str', chomp str = Ret str' /\ load_string str' = Ret (before_space s).
Proof.
  intros H. destruct (load_string_inv str s H) as [Hn [tl Hb]].
  unfold chomp. rewrite H. cbn [bind]. eexists. split; [reflexivity|].
  rewrite Hb. unfold chars.
  replace (String.length s) with (List.length (list_ascii_of_string s))
    by (clear; induction s; simpl; congruence).
  rewrite chomp_from_cells. apply load_string_blanked. exact Hn.
Qed.

Lemma chomp_cuts_at_first_space_witness :
  load_string (chars "ab cd " ++ [Some NUL]) = Ret "ab cd "
  /\ exists str', chomp (chars "ab cd " ++ [Some NUL]) = Ret str'
                  /\ load_string str' = Ret "ab".
Proof.
  split; [reflexivity|].
  apply (chomp_cuts_at_first_space (chars "ab cd " ++ [Some NUL]) "ab cd "). reflexivity.
Defined.

Lemma before_space_id (s : string) :
  all_chars (fun c => negb (isspace c)) s = true -> before_space s = s.
Proof.
  induction s as [|c s IH]; cbn; intros H; [reflexivity|].
  apply andb_prop in H. destruct H as [Hc Hs]. apply negb_true_iff in Hc.
  rewrite Hc, (IH Hs). reflexivity.
Qed.

(** On a string without white space [chomp] changes nothing. *)
Lemma chomp_plain (s : string) (tl : buffer) :
  no_nul s = true ->
  all_chars (fun c => negb (isspace c)) s = true ->
  chomp (chars s ++ Some NUL :: tl) = Ret (chars s ++ Some NUL :: tl).
Proof.
  intros Hn Hs. unfold chomp. rewrite load_string_chars by exact Hn. cbn [bind].
  unfold chars.
  replace (String.length s) with (List.length (list_ascii_of_string s))
    by (clear; induction s; simpl; congruence).
  rewrite chomp_from_cells. do 2 f_equal.
  clear Hn. induction s as [|c s IH]; [reflexivity|].
  cbn [all_chars] in Hs. apply andb_prop in Hs. destruct Hs as [Hc Hs].
  apply negb_true_iff in Hc. cbn [list_ascii_of_string map]. unfold blank_cell at 1.
  rewrite Hc, (IH Hs). reflexivity.
Qed.

(** ** The tokenizer on plain tokens *)

Lemma set_cell_chars (s : string) (tl : buffer) (v : ascii) :
  set_cell (chars s ++ tl) (String.length s) v = chars s ++ Some v :: List.tl tl.
Proof. rewrite <- (chars_length s) at 1. apply set_cell_end. Qed.

Lemma ascii_eqb_code (c d : ascii) : code c <> code d -> (c =? d)%char = false.
Proof.
  intros H. apply Ascii.eqb_neq. intros E. apply H. rewrite E. reflexivity.
Qed.

Lemma word_char_facts (c : ascii) :
  word_char c = true ->
  is_nul c = false /\ (c =? "#")%char = false /\ isspace c = false /\ is_blank c = false.
Proof.
  unfold word_char. intros H.
  apply andb_prop in H. destruct H as [H H3]. apply andb_prop in H. destruct H as [H1 H2].
  apply negb_true_iff in H1, H2, H3. repeat split; try assumption.
  unfold isspace in H3. apply orb_false_iff in H3. destruct H3 as [Hs Ht].
  apply Z.eqb_neq in Hs.
  unfold is_blank. apply orb_false_iff. split; apply ascii_eqb_code.
  - exact Hs.
  - change (code "009") with 9. intros E. rewrite E in Ht. discriminate Ht.
Qed.

Lemma arg_char_facts (c : ascii) :
  arg_char c = true ->
  word_char c = true /\ (c =? ",")%char = false /\ (c =? "=")%char = false.
Proof.
  unfold arg_char. intros H.
  apply andb_prop in H. destruct H as [H H3]. apply andb_prop in H. destruct H as [H1 H2].
  apply negb_true_iff in H2, H3. repeat split; assumption.
Qed.

Lemma all_word_plain (s : string) :
  all_chars word_char s = true ->
  no_nul s = true /\ all_chars (fun c => negb (isspace c)) s = true.
Proof.
  induction s as [|c s IH]; cbn [all_chars no_nul]; intros H; [split; reflexivity|].
  apply andb_prop in H. destruct H as [Hc Hs].
  destruct (word_char_facts c Hc) as [Hz [_ [Hsp _]]].
  destruct (IH Hs) as [A B]. rewrite Hz, Hsp, A, B. split; reflexivity.
Qed.

Lemma all_arg_word (s : string) :
  all_chars arg_char s = true -> all_chars word_char s = true.
Proof.
  induction s as [|c s IH]; cbn [all_chars]; intros H; [reflexivity|].
  apply andb_prop in H. destruct H as [Hc Hs].
  destruct (arg_char_facts c Hc) as [Hw _]. rewrite Hw, (IH Hs). reflexivity.
Qed.

Section Tokenizer.
Variable CMS AMS AAMS : Z.

(** In the stage [PARSING_COMMAND] the characters of the keyword are
    stored one after the other. *)
Lemma pl_scan_keyword (kw : string) :
  forall (acc : string) (tl : buffer) (ca : buffer) (ar : cells string) (rest : string),
    all_chars word_char kw = true ->
    Z.of_nat (String.length acc + String.length kw) < CMS ->
    CMS <= 65536 ->
    exists tl',
      pl_scan CMS AMS AAMS (kw ++ rest)
        {| pl_stage := PARSING_COMMAND; pl_cur_cpos := Z.of_nat (String.length acc);
           pl_argc := -1; pl_cur_arg := ca;
           pl_command := chars acc ++ tl; pl_arguments := ar |}
      = pl_scan CMS AMS AAMS rest
          {| pl_stage := PARSING_COMMAND;
             pl_cur_cpos := Z.of_nat (String.length acc + String.length kw);
             pl_argc := -1; pl_cur_arg := ca;
             pl_command := chars (acc ++ kw) ++ tl'; pl_arguments := ar |}.
Proof.
  induction kw as [|c kw IH]; intros acc tl ca ar rest Hk Hcap Hmax.
  - exists tl. cbn [append String.length]. rewrite Nat.add_0_r, app_empty_r. reflexivity.
  - cbn [all_chars] in Hk. apply andb_prop in Hk. destruct Hk as [Hc Hk].
    destruct (word_char_facts c Hc) as [Hz [Hh [_ Hb]]].
    cbn [String.length] in Hcap.
    destruct (IH (acc ++ String c "")%string (List.tl tl) ca ar rest Hk) as [tl' E];
      [rewrite length_snoc; lia | exact Hmax |].
    exists tl'.
    cbn [append]. rewrite pl_scan_cons, Hz, Hh.
    unfold pl_step. cbn [pl_stage pl_cur_cpos pl_command pl_argc pl_cur_arg pl_arguments].
    rewrite Hb.
    replace (Z.of_nat (String.length acc) + 1 <? CMS) with true
      by (symmetry; apply Z.ltb_lt; lia).
    rewrite store_in by lia. cbn [bind].
    rewrite Nat2Z.id, set_cell_chars.
    rewrite u16_small by lia.
    replace (chars acc ++ Some c :: List.tl tl)
      with (chars (acc ++ String c "") ++ List.tl tl)
      by (rewrite chars_snoc, <- app_assoc; reflexivity).
    replace (Z.of_nat (String.length acc) + 1)
      with (Z.of_nat (String.length (acc ++ String c ""))) by (rewrite length_snoc; lia).
    rewrite E, app_snoc_cons, length_snoc. do 2 f_equal.
    cbn [String.length]. lia.
Qed.

(** The keyword at the start of a line, up to the blank that ends it. *)
Lemma pl_scan_keyword_blank (kw : string) (b : ascii) (rest : string) :
  all_chars word_char kw = true ->
  is_blank b = true ->
  Z.of_nat (String.length kw) < CMS ->
  CMS <= 65536 ->
  exists tl,
    pl_scan CMS AMS AAMS (kw ++ String b rest)
      {| pl_stage := PARSING_COMMAND; pl_cur_cpos := 0; pl_argc := -1; pl_cur_arg := [];
         pl_command := [Some NUL]; pl_arguments := [] |}
    = pl_scan CMS AMS AAMS rest
        {| pl_stage := PARSING_ARGUMENTS; pl_cur_cpos := 0; pl_argc := 0; pl_cur_arg := [];
           pl_command := chars kw ++ Some NUL :: tl; pl_arguments := [] |}.
Proof.
  intros Hk Hb Hcap Hmax.
  destruct (pl_scan_keyword kw "" [Some NUL] [] [] (String b rest) Hk) as [tl' E];
    [cbn [String.length Nat.add]; lia | exact Hmax |].
  cbn [String.length Nat.add append] in E.
  change (Z.of_nat 0) with 0 in E.
  change (chars "" ++ [Some NUL]) with [Some NUL] in E.
  eexists. rewrite E. clear E.
  assert (Hbz : is_nul b = false /\ (b =? "#")%char = false).
  { unfold is_blank in Hb. apply orb_prop in Hb.
    destruct Hb as [Hb|Hb]; apply Ascii.eqb_eq in Hb; subst b; split; reflexivity. }
  destruct Hbz as [Hz Hh].
  rewrite pl_scan_cons, Hz, Hh.
  unfold pl_step. cbn [pl_stage pl_cur_cpos pl_command pl_argc pl_cur_arg pl_arguments].
  rewrite Hb. rewrite store_in by lia. cbn [bind].
  rewrite Nat2Z.id, set_cell_chars.
  destruct (all_word_plain kw Hk) as [Hn Hs].
  rewrite chomp_plain by assumption. cbn [bind].
  reflexivity.
Qed.

(** In the stage [PARSING_ARGUMENTS] the characters of an argument are
    appended to [cur_arg]; the first one counts the argument. *)
Lemma pl_scan_arg_tail (a : string) :
  forall (acc : string) (tl : buffer) (k : Z) (cmd : buffer) (ar : cells string)
         (rest : string),
    all_chars arg_char a = true ->
    (1 <= String.length acc)%nat ->
    Z.of_nat (String.length acc + String.length a) < AMS ->
    AMS <= 65536 ->
    exists tl',
      pl_scan CMS AMS AAMS (a ++ rest)
        {| pl_stage := PARSING_ARGUMENTS; pl_cur_cpos := Z.of_nat (String.length acc);
           pl_argc := k; pl_cur_arg := chars acc ++ Some NUL :: tl;
           pl_command := cmd; pl_arguments := ar |}
      = pl_scan CMS AMS AAMS rest
          {| pl_stage := PARSING_ARGUMENTS;
             pl_cur_cpos := Z.of_nat (String.length acc + String.length a);
             pl_argc := k; pl_cur_arg := chars (acc ++ a) ++ Some NUL :: tl';
             pl_command := cmd; pl_arguments := ar |}.
Proof.
  induction a as [|c a IH]; intros acc tl k cmd ar rest Ha Hacc Hcap Hmax.
  - exists tl. cbn [append String.length]. rewrite Nat.add_0_r, app_empty_r. reflexivity.
  - cbn [all_chars] in Ha. apply andb_prop in Ha. destruct Ha as [Hc Ha].
    destruct (arg_char_facts c Hc) as [Hw [Hcomma Heq]].
    destruct (word_char_facts c Hw) as [Hz [Hh [_ Hb]]].
    cbn [String.length] in Hcap.
    destruct (IH (acc ++ String c "")%string (List.tl tl) k cmd ar rest Ha) as [tl' E];
      [rewrite length_snoc; lia | rewrite length_snoc; lia | exact Hmax |].
    exists tl'.
    cbn [append]. rewrite pl_scan_cons, Hz, Hh.
    unfold pl_step. cbn [pl_stage pl_cur_cpos pl_command pl_argc pl_cur_arg pl_arguments].
    rewrite Hcomma, Hb, Heq.
    replace (Z.of_nat (String.length acc) =? 0) with false
      by (symmetry; apply Z.eqb_neq; lia).
    replace (Z.of_nat (String.length acc) + 1 <? AMS) with true
      by (symmetry; apply Z.ltb_lt; lia).
    rewrite append_char_chars by (try apply u16_small; lia). cbn [bind List.tl].
    replace (Z.of_nat (String.length acc) + 1)
      with (Z.of_nat (String.length (acc ++ String c ""))) by (rewrite length_snoc; lia).
    rewrite E, app_snoc_cons, length_snoc. do 2 f_equal.
    cbn [String.length]. lia.
Qed.

Lemma pl_scan_arg (a : string) (tl : buffer) (k : Z) (cmd : buffer) (ar : cells string)
    (rest : string) :
  plain_arg a ->
  Z.of_nat (String.length a) < AMS ->
  AMS <= 65536 ->
  exists tl',
    pl_scan CMS AMS AAMS (a ++ rest)
      {| pl_stage := PARSING_ARGUMENTS; pl_cur_cpos := 0;
         pl_argc := k; pl_cur_arg := tl;
         pl_command := cmd; pl_arguments := ar |}
    = pl_scan CMS AMS AAMS rest
        {| pl_stage := PARSING_ARGUMENTS;
           pl_cur_cpos := Z.of_nat (String.length a);
           pl_argc := k + 1; pl_cur_arg := chars a ++ Some NUL :: tl';
           pl_command := cmd; pl_arguments := ar |}.
Proof.
  intros [Hne Ha] Hcap Hmax. destruct a as [|c a]; [congruence|].
  cbn [all_chars] in Ha. apply andb_prop in Ha. destruct Ha as [Hc Ha].
  destruct (arg_char_facts c Hc) as [Hw [Hcomma Heq]].
  destruct (word_char_facts c Hw) as [Hz [Hh [_ Hb]]].
  cbn [String.length] in Hcap.
  destruct (pl_scan_arg_tail a (String c "") (List.tl (List.tl tl)) (k + 1) cmd ar rest Ha)
    as [tl' E]; [cbn [String.length]; lia | cbn [String.length]; lia | exact Hmax |].
  exists tl'.
  cbn [append]. rewrite pl_scan_cons, Hz, Hh.
  unfold pl_step. cbn [pl_stage pl_cur_cpos pl_command pl_argc pl_cur_arg pl_arguments].
  rewrite Hcomma, Hb, Heq. change (0 =? 0) with true. cbv beta iota.
  replace (0 + 1 <? AMS) with true by (symmetry; apply Z.ltb_lt; lia).
  change tl with (chars "" ++ tl) at 1. change 0 with (Z.of_nat (String.length "")) at 1.
  rewrite append_char_chars by (try apply u16_small; cbn [String.length]; lia).
  cbn [bind String.length Z.of_nat Z.add append].
  cbn [String.length Nat.add append] in E.
  change (Z.of_nat 1) with 1 in E. rewrite E. reflexivity.
Qed.

(** What [chomp(cur_arg); arguments[argc - 1] = strdup(cur_arg);] does
    after a plain argument. *)
Lemma pl_store_arg_plain (a : string) (tl : buffer) (k pos : Z) (st : stage)
    (cmd : buffer) (done : list string) :
  all_chars word_char a = true ->
  k = Z.of_nat (List.length done) ->
  k < AAMS ->
  pl_store_arg AAMS
    {| pl_stage := st; pl_cur_cpos := pos; pl_argc := k + 1;
       pl_cur_arg := chars a ++ Some NUL :: tl;
       pl_command := cmd; pl_arguments := map Some done |}
  = Ret {| pl_stage := st; pl_cur_cpos := pos; pl_argc := k + 1;
           pl_cur_arg := chars a ++ Some NUL :: tl;
           pl_command := cmd; pl_arguments := map Some (done ++ [a]) |}.
Proof.
  intros Ha Hk Hcap. unfold pl_store_arg.
  cbn [pl_stage pl_cur_cpos pl_command pl_argc pl_cur_arg pl_arguments].
  destruct (all_word_plain a Ha) as [Hn Hs].
  rewrite chomp_plain by assumption. cbn [bind].
  rewrite load_string_chars by assumption. cbn [bind].
  rewrite store_in by lia. cbn [bind].
  replace (Z.to_nat (k + 1 - 1)) with (List.length (map Some done))
    by (rewrite length_map; lia).
  rewrite <- (app_nil_r (map Some done)) at 1. rewrite set_cell_end.
  rewrite map_app. reflexivity.
Qed.

(** Arguments that are each followed by a comma. *)
Lemma pl_scan_args_comma (args : list string) :
  forall (done : list string) (tl : buffer) (cmd : buffer) (rest : string),
    Forall plain_arg args ->
    Forall (fun a => Z.of_nat (String.length a) < AMS) args ->
    AMS <= 65536 ->
    Z.of_nat (List.length done + List.length args) < AAMS ->
    exists tl',
      pl_scan CMS AMS AAMS (args_then_comma args ++ rest)
        {| pl_stage := PARSING_ARGUMENTS; pl_cur_cpos := 0;
           pl_argc := Z.of_nat (List.length done); pl_cur_arg := tl;
           pl_command := cmd; pl_arguments := map Some done |}
      = pl_scan CMS AMS AAMS rest
          {| pl_stage := PARSING_ARGUMENTS; pl_cur_cpos := 0;
             pl_argc := Z.of_nat (List.length done + List.length args);
             pl_cur_arg := tl';
             pl_command := cmd; pl_arguments := map Some (done ++ args) |}.
Proof.
  induction args as [|a args IH]; intros done tl cmd rest Hp Hl Hmax Hn.
  - exists tl. cbn [args_then_comma append List.length].
    rewrite Nat.add_0_r, app_nil_r. reflexivity.
  - inversion Hp as [|? ? Hpa Hp']. inversion Hl as [|? ? Hla Hl']. subst.
    cbn [args_then_comma List.length] in *.
    replace ((a ++ String "," (args_then_comma args)) ++ rest)%string
      with (a ++ String "," (args_then_comma args ++ rest))%string
      by (clear; induction a; simpl; congruence).
    destruct (pl_scan_arg a tl (Z.of_nat (List.length done)) cmd (map Some done)
                (String "," (args_then_comma args ++ rest)) Hpa Hla Hmax) as [tl1 E1].
    destruct (IH (done ++ [a]) (set_cell (chars a ++ Some NUL :: tl1) (Z.to_nat 0) NUL)
                cmd rest Hp' Hl' Hmax) as [tl' E];
      [rewrite length_app; cbn [List.length]; lia|].
    exists tl'.
    rewrite E1. clear E1.
    rewrite pl_scan_cons. change (is_nul ",") with false.
    change ("," =? "#")%char with false. cbv beta iota.
    unfold pl_step at 1.
    cbn [pl_stage pl_cur_cpos pl_command pl_argc pl_cur_arg pl_arguments].
    change ("," =? ",")%char with true. cbv beta iota.
    destruct Hpa as [Hne Ha].
    rewrite (pl_store_arg_plain a tl1 _ _ _ cmd done (all_arg_word a Ha) eq_refl) by lia.
    cbn [bind pl_stage pl_cur_cpos pl_command pl_argc pl_cur_arg pl_arguments].
    rewrite store_in by lia. cbn [bind].
    replace (Z.of_nat (List.length done) + 1 =? AAMS) with false
      by (symmetry; apply Z.eqb_neq; lia).
    replace (Z.of_nat (List.length done) + 1)
      with (Z.of_nat (List.length (done ++ [a]))) by (rewrite length_app; cbn; lia).
    cbn [bind]. rewrite E, <- app_assoc, length_app. cbn [List.length app].
    do 2 f_equal. lia.
Qed.

End Tokenizer.

Lemma append_assoc (a b c : string) : ((a ++ b) ++ c = a ++ (b ++ c))%string.
Proof. induction a; simpl; congruence. Qed.

Lemma args_then_comma_app (l1 l2 : list string) :
  args_then_comma (l1 ++ l2) = (args_then_comma l1 ++ args_then_comma l2)%string.
Proof.
  induction l1 as [|a l1 IH]; cbn [app args_then_comma append]; [reflexivity|].
  rewrite IH, append_assoc. reflexivity.
Qed.

Lemma join_args_snoc (init : list string) (last : string) :
  join_args (init ++ [last]) = (args_then_comma init ++ last)%string.
Proof.
  induction init as [|a init IH]; [reflexivity|].
  cbn [app args_then_comma]. rewrite append_assoc. cbn [append].
  rewrite <- IH. cbn [join_args]. destruct (init ++ [last]) eqn:E; [|reflexivity].
  destruct init; discriminate E.
Qed.

Lemma read_args_cells (cap : Z) (l : list string) :
  forall pre : list string,
    Z.of_nat (List.length pre + List.length l) <= cap ->
    read_args cap (map Some (pre ++ l)) (Z.of_nat (List.length pre)) (List.length l)
    = Ret l.
Proof.
  induction l as [|a l IH]; intros pre H; [reflexivity|].
  cbn [List.length] in H. cbn [read_args List.length].
  rewrite load_in by lia. rewrite Nat2Z.id, map_app.
  rewrite nth_error_app2 by (rewrite length_map; lia).
  rewrite length_map, Nat.sub_diag. cbn [map nth_error bind].
  replace (Z.of_nat (List.length pre) + 1) with (Z.of_nat (List.length (pre ++ [a])))
    by (rewrite length_app; cbn; lia).
  replace (map Some pre ++ Some a :: map Some l) with (map Some ((pre ++ [a]) ++ l))
    by (rewrite <- app_assoc, map_app; reflexivity).
  rewrite IH by (rewrite length_app; cbn [List.length]; lia).
  reflexivity.
Qed.

Section TokenizerTheorems.
Variable CMS AMS AAMS : Z.

(** A keyword, a blank, arguments followed by commas and one more
    argument: the result of [parse_line]. *)
Lemma parse_line_plain (kw : string) (init : list string) (last : string) :
  all_chars word_char kw = true ->
  Z.of_nat (String.length kw) < CMS -> CMS <= 65536 ->
  Forall plain_arg (init ++ [last]) ->
  Forall (fun a => Z.of_nat (String.length a) < AMS) (init ++ [last]) ->
  AMS <= 65536 ->
  Z.of_nat (List.length init) < AAMS ->
  exists tl,
    parse_line CMS AMS AAMS (kw ++ String " " (args_then_comma init ++ last)) [] []
    = Ret (Z.of_nat (List.length init) + 1, chars kw ++ Some NUL :: tl,
           map Some (init ++ [last])).
Proof.
  intros Hk Hkl Hcm Hp Hl Ham Hn.
  apply Forall_app in Hp. destruct Hp as [Hpi Hlast]. apply Forall_inv in Hlast.
  apply Forall_app in Hl. destruct Hl as [Hli Hlen]. apply Forall_inv in Hlen.
  unfold parse_line. rewrite store_in by lia. cbn [bind Z.to_nat set_cell].
  destruct (pl_scan_keyword_blank CMS AMS AAMS kw " " (args_then_comma init ++ last)
              Hk eq_refl Hkl Hcm) as [tl E].
  rewrite E. clear E.
  destruct (pl_scan_args_comma CMS AMS AAMS init [] [] (chars kw ++ Some NUL :: tl) last
              Hpi Hli Ham) as [tl1 E]; [cbn [List.length Nat.add]; lia|].
  cbn [List.length Nat.add map app] in E. change (Z.of_nat 0) with 0 in E.
  rewrite E. clear E.
  destruct (pl_scan_arg CMS AMS AAMS last tl1 (Z.of_nat (List.length init))
              (chars kw ++ Some NUL :: tl) (map Some init) "" Hlast Hlen Ham) as [tl2 E].
  rewrite app_empty_r in E. rewrite E. clear E.
  cbn [pl_scan bind]. unfold pl_finish. cbn [pl_stage pl_argc pl_cur_cpos pl_cur_arg
    pl_command pl_arguments].
  replace (0 <? Z.of_nat (List.length init) + 1) with true by (symmetry; apply Z.ltb_lt; lia).
  destruct Hlast as [_ Ha].
  rewrite (pl_store_arg_plain AAMS last tl2 _ _ _ _ init (all_arg_word last Ha) eq_refl) by lia.
  cbn [bind pl_stage pl_argc pl_cur_cpos pl_cur_arg pl_command pl_arguments].
  exists tl. reflexivity.
Qed.

(** The tokenizer on a keyword, a space and plain arguments. *)
Lemma tokenize_plain (kw : string) (args : list string) :
  all_chars word_char kw = true ->
  Z.of_nat (String.length kw) < CMS -> CMS <= 65536 ->
  Forall plain_arg args ->
  Forall (fun a => Z.of_nat (String.length a) < AMS) args ->
  AMS <= 65536 ->
  Z.of_nat (List.length args) <= AAMS ->
  tokenize CMS AMS AAMS (kw ++ String " " (join_args args)) = Ret (Some (kw, args)).
Proof.
  intros Hk Hkl Hcm Hp Hl Ham Hn.
  destruct (all_word_plain kw Hk) as [Hnn _].
  induction args as [|last init _] using rev_ind.
  2:{ rewrite join_args_snoc.
    rewrite length_app in Hn. cbn [List.length] in Hn.
    destruct (parse_line_plain kw init last Hk Hkl Hcm Hp Hl Ham) as [tl E]; [lia|].
    unfold tokenize. rewrite E. cbn [bind].
    replace (0 <=? Z.of_nat (List.length init) + 1) with true
      by (symmetry; apply Z.leb_le; lia).
    rewrite load_string_chars by exact Hnn. cbn [bind].
    replace (Z.to_nat (Z.of_nat (List.length init) + 1)) with (List.length (init ++ [last]))
      by (rewrite length_app; cbn [List.length]; lia).
    pose proof (read_args_cells AAMS (init ++ [last]) []) as R.
    cbn [app List.length] in R. change (Z.of_nat 0) with 0 in R.
    rewrite R; [reflexivity|].
    rewrite length_app. cbn [List.length]. lia. }
  cbn [join_args].
  unfold tokenize, parse_line. rewrite store_in by lia. cbn [bind Z.to_nat set_cell].
  destruct (pl_scan_keyword_blank CMS AMS AAMS kw " " "" Hk eq_refl Hkl Hcm) as [tl E].
  rewrite E. cbn [pl_scan bind]. unfold pl_finish. cbn [pl_stage pl_argc bind Z.ltb Z.compare
    pl_cur_cpos pl_cur_arg pl_command pl_arguments Z.leb Z.to_nat read_args].
  rewrite load_string_chars by exact Hnn. reflexivity.
Qed.

(** X2: The tokenizer gives back the keyword and the arguments of a line
    written as a keyword, a space, and plain arguments separated by
    commas, when they fit the three limits. *)
Theorem tokenize_plain_line (kw : string) (args : list string) :
  all_chars word_char kw = true ->
  Z.of_nat (String.length kw) < CMS -> CMS <= 65536 ->
  Forall plain_arg args ->
  Forall (fun a => Z.of_nat (String.length a) < AMS) args ->
  AMS <= 65536 ->
  Z.of_nat (List.length args) <= AAMS ->
  tokenize CMS AMS AAMS (kw ++ String " " (join_args args)) = Ret (Some (kw, args)).
Proof. apply tokenize_plain. Qed.

(** X3: A keyword of [COMMAND_MAX_SIZE] characters or more makes [parse_line]
    return -1: [command] holds at most [COMMAND_MAX_SIZE - 1] characters. *)
Theorem keyword_too_long_is_refused (kw : string) (c : ascii) (rest : string) :
  all_chars word_char kw = true ->
  word_char c = true ->
  Z.of_nat (String.length kw) = CMS - 1 ->
  1 <= CMS <= 65536 ->
  tokenize CMS AMS AAMS (kw ++ String c rest) = Ret None.
Proof.
  intros Hk Hc Hlen Hcm.
  destruct (word_char_facts c Hc) as [Hz [Hh [_ Hb]]].
  unfold tokenize, parse_line. rewrite store_in by lia. cbn [bind Z.to_nat set_cell].
  destruct (pl_scan_keyword CMS AMS AAMS kw "" [Some NUL] [] [] (String c rest) Hk)
    as [tl E]; [cbn [String.length Nat.add]; lia | lia |].
  cbn [String.length Nat.add append] in E. change (Z.of_nat 0) with 0 in E.
  change (chars "" ++ [Some NUL]) with [Some NUL] in E.
  rewrite E. clear E.
  rewrite pl_scan_cons, Hz, Hh. unfold pl_step.
  cbn [pl_stage pl_cur_cpos pl_command pl_argc pl_cur_arg pl_arguments].
  rewrite Hb.
  replace (Z.of_nat (String.length kw) + 1 <? CMS) with false
    by (symmetry; apply Z.ltb_ge; lia).
  reflexivity.
Qed.

(** X4: An argument of [ARGUMENT_MAX_SIZE] characters or more, read in the
    stage [PARSING_ARGUMENTS], makes [parse_line] return -1. *)
Theorem argument_too_long_is_refused
    (kw : string) (init : list string) (a : string) (c : ascii) (rest : string) :
  all_chars word_char kw = true ->
  Z.of_nat (String.length kw) < CMS -> CMS <= 65536 ->
  Forall plain_arg init ->
  Forall (fun a => Z.of_nat (String.length a) < AMS) init ->
  Z.of_nat (List.length init) < AAMS ->
  plain_arg a -> arg_char c = true ->
  Z.of_nat (String.length a) = AMS - 1 ->
  AMS <= 65536 ->
  tokenize CMS AMS AAMS
    (kw ++ String " " (args_then_comma init ++ a ++ String c rest)) = Ret None.
Proof.
  intros Hk Hkl Hcm Hp Hl Hn Ha Hc Hlen Ham.
  destruct (arg_char_facts c Hc) as [Hw [Hcomma Heq]].
  destruct (word_char_facts c Hw) as [Hz [Hh [_ Hb]]].
  unfold tokenize, parse_line. rewrite store_in by lia. cbn [bind Z.to_nat set_cell].
  destruct (pl_scan_keyword_blank CMS AMS AAMS kw " "
              (args_then_comma init ++ a ++ String c rest) Hk eq_refl Hkl Hcm) as [tl E].
  rewrite E. clear E.
  destruct (pl_scan_args_comma CMS AMS AAMS init [] [] (chars kw ++ Some NUL :: tl)
              (a ++ String c rest) Hp Hl Ham) as [tl1 E]; [cbn [List.length Nat.add]; lia|].
  cbn [List.length Nat.add map app] in E. change (Z.of_nat 0) with 0 in E.
  rewrite E. clear E.
  destruct (pl_scan_arg CMS AMS AAMS a tl1 (Z.of_nat (List.length init))
              (chars kw ++ Some NUL :: tl) (map Some init) (String c rest) Ha)
    as [tl2 E]; [lia | exact Ham |].
  rewrite E. clear E.
  rewrite pl_scan_cons, Hz, Hh. unfold pl_step.
  cbn [pl_stage pl_cur_cpos pl_command pl_argc pl_cur_arg pl_arguments].
  rewrite Hcomma, Hb, Heq.
  replace (Z.of_nat (String.length a) + 1 <? AMS) with false
    by (symmetry; apply Z.ltb_ge; lia).
  cbn [bind]. 
  destruct (Z.of_nat (String.length a) =? 0); reflexivity.
Qed.

(** X5: A comma after the argument number [ARGUMENT_ARRAY_MAX_SIZE] makes
    [parse_line] return -1. *)
Theorem too_many_arguments_are_refused
    (kw : string) (init : list string) (last : string) (rest : string) :
  all_chars word_char kw = true ->
  Z.of_nat (String.length kw) < CMS -> CMS <= 65536 ->
  Forall plain_arg (init ++ [last]) ->
  Forall (fun a => Z.of_nat (String.length a) < AMS) (init ++ [last]) ->
  AMS <= 65536 ->
  Z.of_nat (List.length (init ++ [last])) = AAMS ->
  tokenize CMS AMS AAMS
    (kw ++ String " " (args_then_comma (init ++ [last]) ++ rest)) = Ret None.
Proof.
  intros Hk Hkl Hcm Hp Hl Ham Hn.
  rewrite length_app in Hn. cbn [List.length] in Hn.
  apply Forall_app in Hp. destruct Hp as [Hpi Hlast]. apply Forall_inv in Hlast.
  apply Forall_app in Hl. destruct Hl as [Hli Hlen]. apply Forall_inv in Hlen.
  rewrite args_then_comma_app. cbn [args_then_comma]. rewrite !append_assoc.
  cbn [append].
  unfold tokenize, parse_line. rewrite store_in by lia. cbn [bind Z.to_nat set_cell].
  destruct (pl_scan_keyword_blank CMS AMS AAMS kw " "
              (args_then_comma init ++ last ++ String "," rest) Hk eq_refl Hkl Hcm)
    as [tl E].
  rewrite E. clear E.
  destruct (pl_scan_args_comma CMS AMS AAMS init [] [] (chars kw ++ Some NUL :: tl)
              (last ++ String "," rest) Hpi Hli Ham) as [tl1 E];
    [cbn [List.length Nat.add]; lia|].
  cbn [List.length Nat.add map app] in E. change (Z.of_nat 0) with 0 in E.
  rewrite E. clear E.
  destruct (pl_scan_arg CMS AMS AAMS last tl1 (Z.of_nat (List.length init))
              (chars kw ++ Some NUL :: tl) (map Some init) (String "," rest) Hlast Hlen Ham)
    as [tl2 E].
  rewrite E. clear E.
  rewrite pl_scan_cons. change (is_nul ",") with false.
  change ("," =? "#")%char with false. cbv beta iota.
  unfold pl_step.
  cbn [pl_stage pl_cur_cpos pl_command pl_argc pl_cur_arg pl_arguments].
  change ("," =? ",")%char with true. cbv beta iota.
  destruct Hlast as [Hne Ha].
  rewrite (pl_store_arg_plain AAMS last tl2 _ _ _ _ init (all_arg_word last Ha) eq_refl) by lia.
  cbn [bind pl_stage pl_cur_cpos pl_command pl_argc pl_cur_arg pl_arguments].
  rewrite store_in by lia. cbn [bind].
  replace (Z.of_nat (List.length init) + 1 =? AAMS) with true
    by (symmetry; apply Z.eqb_eq; lia).
  cbn [bind]. replace (0 <=? -1) with false by reflexivity. reflexivity.
Qed.

(** In the stage [PARSING_COMMAND], on a string without a space or a tab,
    the loop leaves [argc] at -1 or returns -1. *)
Lemma pl_scan_no_blank (s : string) :
  forall st,
    all_chars (fun c => negb (is_blank c)) s = true ->
    pl_stage st = PARSING_COMMAND -> pl_argc st = -1 -> 0 <= pl_cur_cpos st ->
    exists r, pl_scan CMS AMS AAMS s st = Ret r
              /\ match r with
                 | PlNext st' => pl_stage st' = PARSING_COMMAND /\ pl_argc st' = -1
                 | PlReturn v _ => v = -1
                 end.
Proof.
  induction s as [|c s IH]; intros st Hs Hst Ha Hp.
  - exists (PlNext st). split; [reflexivity | split; assumption].
  - cbn [all_chars] in Hs. apply andb_prop in Hs. destruct Hs as [Hc Hs].
    apply negb_true_iff in Hc.
    rewrite pl_scan_cons.
    destruct (is_nul c); [exists (PlNext st); split; [reflexivity | split; assumption]|].
    destruct (c =? "#")%char;
      [exists (PlNext st); split; [reflexivity | split; assumption]|].
    unfold pl_step. rewrite Hst, Hc.
    destruct (Z.ltb_spec (pl_cur_cpos st + 1) CMS) as [Hlt|Hge].
    + rewrite store_in by lia. cbn [bind].
      apply IH; cbn [pl_stage pl_argc pl_cur_cpos]; try assumption; try reflexivity.
      unfold u16. apply Z.mod_pos_bound. lia.
    + cbn [bind]. exists (PlReturn (-1) st). split; reflexivity.
Qed.

(** X6: A line without a space or a tab is refused: a keyword alone is not
    a command. *)
Theorem line_without_blank_is_refused (VMS : Z) (line : string) (e : engine) :
  1 <= CMS ->
  all_chars (fun c => negb (is_blank c)) line = true ->
  tokenize CMS AMS AAMS line = Ret None
  /\ (first_char line <> NUL -> first_char line <> "#"%char ->
      parse_command CMS AMS AAMS VMS line e = Ret (false, e)).
Proof.
  intros Hcm Hs.
  assert (P : exists cmd ar, parse_line CMS AMS AAMS line [] [] = Ret (-1, cmd, ar)).
  { unfold parse_line. rewrite store_in by lia. cbn [bind Z.to_nat set_cell].
    destruct (pl_scan_no_blank line
                {| pl_stage := PARSING_COMMAND; pl_cur_cpos := 0; pl_argc := -1;
                   pl_cur_arg := []; pl_command := [Some NUL]; pl_arguments := [] |} Hs)
      as [r [E Hr]]; try reflexivity; try (cbn; lia).
    rewrite E. cbn [bind]. destruct r as [st'|v st'].
    - destruct Hr as [Hst Ha]. unfold pl_finish. rewrite Hst, Ha.
      cbn [Z.ltb Z.compare bind pl_argc pl_command pl_arguments]. eexists. eexists. reflexivity.
    - subst v. eexists. eexists. reflexivity. }
  destruct P as [cmd [ar P]]. split.
  - unfold tokenize. rewrite P. reflexivity.
  - intros H1 H2. unfold parse_command.
    destruct line as [|c rest]; [exfalso; apply H1; reflexivity|].
    cbn [first_char] in H1, H2.
    replace (is_nul c || (c =? "#")%char) with false.
    + rewrite P. reflexivity.
    + symmetry. apply orb_false_iff. split.
      * unfold is_nul. apply Z.eqb_neq. intros E. apply H1.
        unfold code in E. destruct c as [[] [] [] [] [] [] [] []]; try discriminate E.
        reflexivity.
      * apply Ascii.eqb_neq. exact H2.
Qed.

End TokenizerTheorems.

Lemma tokenize_plain_line_witness :
  tokenize 16 30 5 "set $a,1.5" = Ret (Some ("set", ["$a"; "1.5"])).
Proof.
  apply (tokenize_plain_line 16 30 5 "set" ["$a"; "1.5"]); try reflexivity; try lia.
  - repeat constructor; discriminate.
  - repeat constructor.
  - simpl. lia.
Defined.

Lemma keyword_too_long_is_refused_witness :
  tokenize 5 30 5 "lines x0;y0" = Ret None.
Proof.
  apply (keyword_too_long_is_refused 5 30 5 "line" "s" " x0;y0"); try reflexivity; lia.
Defined.

Lemma argument_too_long_is_refused_witness :
  tokenize 16 4 5 "line a,x1;y1" = Ret None.
Proof.
  apply (argument_too_long_is_refused 16 4 5 "line" ["a"] "x1;" "y" "1");
    try reflexivity; try lia.
  - repeat constructor; discriminate.
  - repeat constructor.
  - split; [discriminate | reflexivity].
Defined.

Lemma too_many_arguments_are_refused_witness :
  tokenize 16 30 2 "line a,b,c" = Ret None.
Proof.
  apply (too_many_arguments_are_refused 16 30 2 "line" ["a"] "b" "c");
    try reflexivity; try lia.
  - repeat constructor; discriminate.
  - repeat constructor.
Defined.

Lemma line_without_blank_is_refused_witness :
  tokenize 16 30 5 "line" = Ret None
  /\ parse_command 16 30 5 10 "line" nanocad_init = Ret (false, nanocad_init).
Proof.
  destruct (line_without_blank_is_refused 16 30 5 10 "line" nanocad_init) as [A B];
    [lia | reflexivity |].
  split; [exact A|]. apply B; discriminate.
Defined.

(** ** Printing an index and reading it back *)

Lemma read_digits_uint (d : Decimal.uint) :
  forall acc k,
    read_digits (NilEmpty.string_of_uint d) acc k
    = (uint_value d acc, k + Z.of_nat (String.length (NilEmpty.string_of_uint d)), "").
Proof.
  induction d; intros acc k;
    cbn [NilEmpty.string_of_uint read_digits uint_value String.length].
  1: rewrite Z.add_0_r; reflexivity.
  all: match goal with
       | |- context [is_digit ?c] => change (is_digit c) with true
       end;
    cbv beta iota; rewrite IHd;
    match goal with
    | |- context [code ?c - 48] =>
        let v := eval vm_compute in (code c - 48) in change (code c - 48) with v
    end;
    rewrite ?Z.add_0_r; f_equal; f_equal; try reflexivity; lia.
Qed.

Lemma read_digits_decimal (d : Decimal.uint) (k : Z) :
  read_digits (NilZero.string_of_uint d) 0 k
  = (uint_value d 0, k + Z.of_nat (String.length (NilZero.string_of_uint d)), "").
Proof.
  destruct d; try apply read_digits_uint. reflexivity.
Qed.

Lemma uint_value_acc (d : Decimal.uint) :
  forall p : positive, uint_value d (Zpos p) = Zpos (Pos.of_uint_acc d p).
Proof.
  induction d; intros p; cbn [uint_value Pos.of_uint_acc]; try reflexivity;
    rewrite <- IHd; f_equal; lia.
Qed.

Lemma uint_value_of_uint (d : Decimal.uint) :
  uint_value d 0 = Z.of_N (Pos.of_uint d).
Proof.
  induction d; cbn [uint_value Pos.of_uint]; try reflexivity; try exact IHd;
    cbn [Z.mul Z.add]; rewrite uint_value_acc; reflexivity.
Qed.

Lemma decimal_first_digit (n : Z) :
  exists c r, decimal n = String c r /\ is_digit c = true.
Proof.
  unfold decimal.
  assert (H : N.to_uint (Z.to_N n) <> Decimal.Nil).
  { destruct (Z.to_N n); cbn; [discriminate | apply DecimalPos.Unsigned.to_uint_nonnil]. }
  destruct (N.to_uint (Z.to_N n)); try congruence;
    cbn [NilZero.string_of_uint]; eexists; eexists; split; reflexivity.
Qed.

Lemma substring_all (s : string) (m : nat) :
  (String.length s <= m)%nat -> substring 0 m s = s.
Proof.
  revert m. induction s as [|c s IH]; intros m H.
  - destruct m; reflexivity.
  - destruct m; cbn [String.length] in H; [lia|]. cbn [substring]. rewrite IH by lia.
    reflexivity.
Qed.

(** The index that [create_object] prints with [snprintf] is the one that
    [set_variable] reads with [sscanf], when its digits fit the buffer. *)
Lemma sscanf_snprintf (size n : Z) :
  0 <= n <= SIZE_MAX ->
  Z.of_nat (String.length (decimal n)) < size ->
  exists s, snprintf_lu size n = Ret s /\ sscanf_zu s = Ret (Some n).
Proof.
  intros Hn Hs. exists (decimal n). split.
  - unfold snprintf_lu. replace (size <=? 0) with false by (symmetry; apply Z.leb_gt; lia).
    fold (decimal n). rewrite substring_all by lia. reflexivity.
  - destruct (decimal_first_digit n) as [c [r [E Hc]]].
    assert (Hd : dec_char c = true) by (unfold dec_char; rewrite Hc; reflexivity).
    unfold sscanf_zu. rewrite E, skip_space_dec, read_sign_dec by exact Hd.
    rewrite <- E. unfold decimal. rewrite read_digits_decimal.
    rewrite uint_value_of_uint.
    change (Pos.of_uint (N.to_uint (Z.to_N n))) with (N.of_uint (N.to_uint (Z.to_N n))).
    rewrite DecimalN.Unsigned.of_to, Z2N.id by lia.
    fold (decimal n). rewrite E. cbn [String.length].
    replace (0 + Z.of_nat (S (String.length r)) =? 0) with false
      by (symmetry; apply Z.eqb_neq; lia).
    replace (SIZE_MAX <? n) with false by (symmetry; apply Z.ltb_ge; lia).
    reflexivity.
Qed.

(** ** Lines that name the object they create *)

Section Capture.
Variable CMS AMS AAMS : Z.

(** In the stage [PARSING_SET_OBJVAR], after the ampersand, the characters
    of the name are appended to [cur_arg]. *)
Lemma pl_scan_capture_name (name : string) :
  forall (acc : string) (tl : buffer) (k : Z) (cmd : buffer) (ar : cells string)
         (rest : string),
    all_chars word_char name = true ->
    (1 <= String.length acc)%nat ->
    Z.of_nat (String.length acc + String.length name) < AMS ->
    AMS <= 65536 ->
    exists tl',
      pl_scan CMS AMS AAMS (name ++ rest)
        {| pl_stage := PARSING_SET_OBJVAR; pl_cur_cpos := Z.of_nat (String.length acc);
           pl_argc := k; pl_cur_arg := chars acc ++ Some NUL :: tl;
           pl_command := cmd; pl_arguments := ar |}
      = pl_scan CMS AMS AAMS rest
          {| pl_stage := PARSING_SET_OBJVAR;
             pl_cur_cpos := Z.of_nat (String.length acc + String.length name);
             pl_argc := k; pl_cur_arg := chars (acc ++ name) ++ Some NUL :: tl';
             pl_command := cmd; pl_arguments := ar |}.
Proof.
  induction name as [|c name IH]; intros acc tl k cmd ar rest Ha Hacc Hcap Hmax.
  - exists tl. cbn [append String.length]. rewrite Nat.add_0_r, app_empty_r. reflexivity.
  - cbn [all_chars] in Ha. apply andb_prop in Ha. destruct Ha as [Hc Ha].
    destruct (word_char_facts c Hc) as [Hz [Hh [_ Hb]]].
    cbn [String.length] in Hcap.
    destruct (IH (acc ++ String c "")%string (List.tl tl) k cmd ar rest Ha) as [tl' E];
      [rewrite length_snoc; lia | rewrite length_snoc; lia | exact Hmax |].
    exists tl'.
    cbn [append]. rewrite pl_scan_cons, Hz, Hh.
    unfold pl_step. cbn [pl_stage pl_cur_cpos pl_command pl_argc pl_cur_arg pl_arguments].
    rewrite Hb.
    replace (Z.of_nat (String.length acc) =? 0) with false
      by (symmetry; apply Z.eqb_neq; lia).
    rewrite append_char_chars by (try apply u16_small; lia). cbn [bind List.tl].
    replace (Z.of_nat (String.length acc) + 1)
      with (Z.of_nat (String.length (acc ++ String c ""))) by (rewrite length_snoc; lia).
    rewrite E, app_snoc_cons, length_snoc. do 2 f_equal.
    cbn [String.length]. lia.
Qed.

(** A keyword, a blank, plain arguments, and [=&name] after the last of
    them: the name, with its ampersand, is one more argument. *)
Lemma parse_line_capture (kw : string) (init : list string) (last name : string) :
  all_chars word_char kw = true ->
  Z.of_nat (String.length kw) < CMS -> CMS <= 65536 ->
  Forall plain_arg (init ++ [last]) ->
  Forall (fun a => Z.of_nat (String.length a) < AMS) (init ++ [last]) ->
  all_chars word_char name = true ->
  Z.of_nat (String.length name) + 1 < AMS ->
  AMS <= 65536 ->
  Z.of_nat (List.length init) + 1 < AAMS ->
  exists tl,
    parse_line CMS AMS AAMS
      (kw ++ String " " (args_then_comma init ++ last ++ String "=" (String "&" name))) [] []
    = Ret (Z.of_nat (List.length init) + 2, chars kw ++ Some NUL :: tl,
           map Some (init ++ [last; String "&" name])).
Proof.
  intros Hk Hkl Hcm Hp Hl Hname Hnl Ham Hn.
  apply Forall_app in Hp. destruct Hp as [Hpi Hlast]. apply Forall_inv in Hlast.
  apply Forall_app in Hl. destruct Hl as [Hli Hlen]. apply Forall_inv in Hlen.
  unfold parse_line. rewrite store_in by lia. cbn [bind Z.to_nat set_cell].
  destruct (pl_scan_keyword_blank CMS AMS AAMS kw " "
              (args_then_comma init ++ last ++ String "=" (String "&" name))
              Hk eq_refl Hkl Hcm) as [tl E].
  rewrite E. clear E.
  destruct (pl_scan_args_comma CMS AMS AAMS init [] [] (chars kw ++ Some NUL :: tl)
              (last ++ String "=" (String "&" name)) Hpi Hli Ham) as [tl1 E];
    [cbn [List.length Nat.add]; lia|].
  cbn [List.length Nat.add map app] in E. change (Z.of_nat 0) with 0 in E.
  rewrite E. clear E.
  destruct (pl_scan_arg CMS AMS AAMS last tl1 (Z.of_nat (List.length init))
              (chars kw ++ Some NUL :: tl) (map Some init) (String "=" (String "&" name))
              Hlast Hlen Ham) as [tl2 E].
  rewrite E. clear E.
  (* the equals sign *)
  rewrite pl_scan_cons. change (is_nul "=") with false.
  change ("=" =? "#")%char with false. cbv beta iota.
  unfold pl_step at 1.
  cbn [pl_stage pl_cur_cpos pl_command pl_argc pl_cur_arg pl_arguments].
  change ("=" =? ",")%char with false. change (is_blank "=") with false.
  change ("=" =? "=")%char with true. cbv beta iota.
  destruct Hlast as [_ Ha].
  rewrite (pl_store_arg_plain AAMS last tl2 _ _ _ _ init (all_arg_word last Ha) eq_refl)
    by lia.
  cbn [bind pl_stage pl_cur_cpos pl_command pl_argc pl_cur_arg pl_arguments].
  (* the ampersand *)
  rewrite pl_scan_cons. change (is_nul "&") with false.
  change ("&" =? "#")%char with false. cbv beta iota.
  unfold pl_step at 1.
  cbn [pl_stage pl_cur_cpos pl_command pl_argc pl_cur_arg pl_arguments].
  change (0 =? 0) with true. change ("&" =? " ")%char with false.
  change ("&" =? "009")%char with false. change ("&" =? "&")%char with true.
  cbn [negb andb]. cbv beta iota.
  pose proof (append_char_chars AMS u16 "" (chars last ++ Some NUL :: tl2) "&") as A.
  cbn [String.length Z.of_nat Z.add append] in A.
  change (chars "" ++ chars last ++ Some NUL :: tl2)
    with (chars last ++ Some NUL :: tl2) in A.
  rewrite A by (try apply u16_small; lia). clear A. cbn [bind].
  (* the name *)
  destruct (pl_scan_capture_name name "&"
              (List.tl (List.tl (chars last ++ Some NUL :: tl2)))
              (Z.of_nat (List.length init) + 1)
              (chars kw ++ Some NUL :: tl) (map Some (init ++ [last])) "" Hname)
    as [tl3 E]; [cbn [String.length]; lia | cbn [String.length]; lia | exact Ham |].
  rewrite app_empty_r in E. cbn [String.length Nat.add append] in E.
  change (Z.of_nat 1) with 1 in E. rewrite E. clear E.
  cbn [pl_scan bind]. unfold pl_finish.
  cbn [pl_stage pl_argc pl_cur_cpos pl_cur_arg pl_command pl_arguments].
  replace (0 <? Z.of_nat (List.length init) + 1 + 1) with true
    by (symmetry; apply Z.ltb_lt; lia).
  assert (Hw : all_chars word_char (String "&" name) = true).
  { cbn [all_chars]. rewrite Hname. reflexivity. }
  rewrite (pl_store_arg_plain AAMS (String "&" name) tl3 (Z.of_nat (List.length init) + 1)
             _ _ _ (init ++ [last]) Hw)
    by (rewrite ?length_app; cbn [List.length]; lia).
  cbn [bind pl_stage pl_argc pl_cur_cpos pl_cur_arg pl_command pl_arguments].
  exists tl. rewrite <- app_assoc. cbn [app].
  do 2 f_equal. f_equal. lia.
Qed.

(** The tokenizer on a line that ends in a capture. *)
Lemma tokenize_capture (kw : string) (args : list string) (last name : string) :
  all_chars word_char kw = true ->
  Z.of_nat (String.length kw) < CMS -> CMS <= 65536 ->
  Forall plain_arg (args ++ [last]) ->
  Forall (fun a => Z.of_nat (String.length a) < AMS) (args ++ [last]) ->
  all_chars word_char name = true ->
  Z.of_nat (String.length name) + 1 < AMS ->
  AMS <= 65536 ->
  Z.of_nat (List.length args) + 1 < AAMS ->
  tokenize CMS AMS AAMS
    (kw ++ String " " (join_args (args ++ [last]) ++ String "=" (String "&" name)))
  = Ret (Some (kw, args ++ [last; String "&" name])).
Proof.
  intros Hk Hkl Hcm Hp Hl Hname Hnl Ham Hn.
  destruct (all_word_plain kw Hk) as [Hnn _].
  rewrite join_args_snoc, append_assoc.
  destruct (parse_line_capture kw args last name Hk Hkl Hcm Hp Hl Hname Hnl Ham Hn)
    as [tl E].
  unfold tokenize. rewrite E. cbn [bind].
  replace (0 <=? Z.of_nat (List.length args) + 2) with true
    by (symmetry; apply Z.leb_le; lia).
  rewrite load_string_chars by exact Hnn. cbn [bind].
  replace (Z.to_nat (Z.of_nat (List.length args) + 2))
    with (List.length (args ++ [last; String "&" name]))
    by (rewrite length_app; cbn [List.length]; lia).
  pose proof (read_args_cells AAMS (args ++ [last; String "&" name]) []) as R.
  cbn [app List.length] in R. change (Z.of_nat 0) with 0 in R.
  rewrite R; [reflexivity|].
  rewrite length_app. cbn [List.length]. lia.
Qed.

(** X7: The tokenizer on a line that ends in [=&name]: the keyword, the
    arguments, and the name with its ampersand as the last argument. *)
Theorem tokenize_capture_line (kw : string) (args : list string) (last name : string) :
  all_chars word_char kw = true ->
  Z.of_nat (String.length kw) < CMS -> CMS <= 65536 ->
  Forall plain_arg (args ++ [last]) ->
  Forall (fun a => Z.of_nat (String.length a) < AMS) (args ++ [last]) ->
  all_chars word_char name = true ->
  Z.of_nat (String.length name) + 1 < AMS ->
  AMS <= 65536 ->
  Z.of_nat (List.length args) + 1 < AAMS ->
  tokenize CMS AMS AAMS
    (kw ++ String " " (join_args (args ++ [last]) ++ String "=" (String "&" name)))
  = Ret (Some (kw, args ++ [last; String "&" name])).
Proof. apply tokenize_capture. Qed.

End Capture.

Lemma tokenize_capture_line_witness :
  tokenize 16 30 5 "line x0;y0,w5=&base"
  = Ret (Some ("line", ["x0;y0"; "w5"; "&base"])).
Proof.
  apply (tokenize_capture_line 16 30 5 "line" ["x0;y0"] "w5" "base");
    try reflexivity; try lia.
  - repeat constructor; discriminate.
  - repeat constructor.
Defined.

(** ** Commands from the line to the containers *)

(** An argument that [parse_coordinates] accepts does not start with an
    ampersand. *)
Lemma parse_coordinates_not_capture (AMS : Z) (c : ascii) (r : string)
    (base : option coord_t) (v : coord_t) :
  parse_coordinates AMS (String c r) base = Ret v -> (c =? "&")%char = false.
Proof.
  intros H. destruct (c =? "&")%char eqn:E; [|reflexivity].
  apply Ascii.eqb_eq in E. subst c. exfalso.
  unfold parse_coordinates in H.
  destruct (pc_zero AMS) as [z| |]; cbn [bind] in H; discriminate H.
Qed.

Lemma is_obj_command_unknown (kw : string) :
  ~ In kw valid_objects -> is_obj_command kw = -1.
Proof.
  intros H. unfold is_obj_command, valid_objects in *. cbn [is_obj_command_from].
  assert (E : forall n, In n ["line"; "rect"; "circle"] -> (kw =? n)%string = false).
  { intros n Hn. apply String.eqb_neq. intros ->. apply H. exact Hn. }
  rewrite !E by (cbn; tauto). reflexivity.
Qed.

Lemma load_cell_in {A : Type} (cap : Z) (b : cells A) (i : Z) :
  0 <= i < cap ->
  load_cell cap b i = match nth_error b (Z.to_nat i) with
                      | Some c => Ret c
                      | None => Ret None
                      end.
Proof.
  intros H. unfold load_cell.
  replace (0 <=? i) with true by (symmetry; apply Z.leb_le; lia).
  replace (i <? cap) with true by (symmetry; apply Z.ltb_lt; lia).
  reflexivity.
Qed.

(** On a text in decimal notation [atof] returns. *)
Lemma atof_decimal (s : string) :
  decimal_text s = true -> exists d, atof s = Ret d.
Proof.
  unfold decimal_text, atof.
  destruct (read_sign (skip_space s)) as [neg s1]. cbn [snd].
  intros H. apply negb_true_iff in H. rewrite H.
  destruct (read_digits s1 0 0) as [[ip ni] s2].
  destruct s2 as [|c r].
  - cbv beta iota. destruct (ni + 0 =? 0); eexists; reflexivity.
  - destruct (code c =? 46).
    + destruct (read_digits r ip 0) as [[m nf] s3].
      destruct (ni + nf =? 0); eexists; reflexivity.
    + cbv beta iota. destruct (ni + 0 =? 0); eexists; reflexivity.
Qed.

Lemma set_variable_appends (AMS : Z) (name : string) (value : option string)
    (e e' : engine) :
  set_variable AMS name value e = Ret e' ->
  exists v, e' = with_variable v e.
Proof.
  unfold set_variable. destruct name as [|t rest]; [discriminate|].
  destruct (is_nul t); [discriminate|].
  match goal with
  | |- bind ?m _ = _ -> _ => destruct m as [v| |]; cbn [bind]; try discriminate
  end.
  intros H. inversion H. eexists. reflexivity.
Qed.

Lemma create_object_appends (AMS AAMS VMS ty argc : Z) (argv : cells string)
    (e e' : engine) :
  create_object AMS AAMS VMS ty argc argv e = Ret e' ->
  exists o, e' = with_object o e \/ exists v, e' = with_variable v (with_object o e).
Proof.
  unfold create_object.
  destruct (build_object AMS AAMS ty argv) as [o| |]; cbn [bind]; try discriminate.
  destruct (load AAMS argv (to_char argc - 1)) as [last| |]; cbn [bind]; try discriminate.
  intros H. exists o.
  destruct last as [|c rest].
  - inversion H. left. reflexivity.
  - destruct (c =? "&")%char.
    + destruct (snprintf_lu VMS _) as [idx| |]; cbn [bind] in H; try discriminate.
      apply set_variable_appends in H. right. exact H.
    + inversion H. left. reflexivity.
Qed.

Ltac forall_args :=
  cbn [app]; repeat (apply Forall_cons; [assumption|]); apply Forall_nil.

Section Commands.
Variable CMS AMS AAMS VMS : Z.

(** X8: Whatever the line, [parse_command] leaves the objects and the
    variables that were there, in their places; it adds at most one of
    each, and none when it returns false. *)
Theorem parse_command_only_appends (line : string) (e e' : engine) (ok : bool) :
  parse_command CMS AMS AAMS VMS line e = Ret (ok, e') ->
  exists os vs,
    objects e' = objects e ++ os /\ variables e' = variables e ++ vs
    /\ (List.length os <= 1)%nat /\ (List.length vs <= 1)%nat
    /\ (ok = false -> os = [] /\ vs = []).
Proof.
  assert (Same : forall e0 : engine,
             exists os vs,
               objects e0 = objects e0 ++ os /\ variables e0 = variables e0 ++ vs
               /\ (List.length os <= 1)%nat /\ (List.length vs <= 1)%nat
               /\ (false = false -> os = [] /\ vs = [])).
  { intros e0. exists [], []. rewrite !app_nil_r. cbn. repeat split; lia. }
  assert (Same' : forall (e0 : engine) (b : bool),
             exists os vs,
               objects e0 = objects e0 ++ os /\ variables e0 = variables e0 ++ vs
               /\ (List.length os <= 1)%nat /\ (List.length vs <= 1)%nat
               /\ (b = false -> os = [] /\ vs = [])).
  { intros e0 b. exists [], []. rewrite !app_nil_r. cbn. repeat split; lia. }
  unfold parse_command. destruct line as [|c rest].
  { intros H. inversion H. apply Same'. }
  destruct (is_nul c || (c =? "#")%char).
  { intros H. inversion H. apply Same'. }
  destruct (parse_line CMS AMS AAMS (String c rest) [] []) as [[[argc command] argv]| |];
    cbn [bind]; try discriminate.
  destruct (0 <=? argc).
  - destruct (load_string command) as [cmd| |]; cbn [bind]; try discriminate.
    destruct (0 <? is_obj_command cmd).
    + destruct (create_object _ _ _ _ _ _ _) as [e1| |] eqn:C; cbn [bind]; try discriminate.
      intros H. inversion H. subst.
      apply create_object_appends in C. destruct C as [o [-> | [v ->]]].
      * exists [o], []. cbn. rewrite app_nil_r. repeat split; try lia; discriminate.
      * exists [o], [v]. cbn. repeat split; try lia; discriminate.
    + destruct ("set" =? cmd)%string.
      * destruct (load AAMS argv 0); cbn [bind]; try discriminate.
        destruct (load_cell AAMS argv 1); cbn [bind]; try discriminate.
        destruct (set_variable _ _ _ _) as [e1| |] eqn:S; cbn [bind]; try discriminate.
        intros H. inversion H. subst.
        apply set_variable_appends in S. destruct S as [v ->].
        exists [], [v]. cbn. rewrite app_nil_r. repeat split; try lia; discriminate.
      * intros H. inversion H. apply Same'.
  - intros H. inversion H. apply Same'.
Qed.

(** X9: The line command with two plain arguments: the object appended is
    the line from the first coordinate to the second, the second parsed
    with the first as its base; the variables stay as they were. *)
Theorem line_command_creates_line (a0 a1 : string) (c0 c1 : coord_t) (e : engine) :
  plain_arg a0 -> plain_arg a1 ->
  Z.of_nat (String.length a0) < AMS -> Z.of_nat (String.length a1) < AMS ->
  AMS <= 65536 -> 5 <= CMS <= 65536 -> 2 <= AAMS ->
  parse_coordinates AMS a0 None = Ret c0 ->
  parse_coordinates AMS a1 (Some c0) = Ret c1 ->
  parse_command CMS AMS AAMS VMS ("line " ++ a0 ++ String "," a1) e
  = Ret (true, with_object (line_from c0 c1) e).
Proof.
  intros H0 H1 L0 L1 Ham Hcm Haa P0 P1.
  destruct (parse_line_plain CMS AMS AAMS "line" [a0] a1) as [tl E];
    [ reflexivity | cbn; lia | lia | forall_args
    | forall_args | lia | cbn; lia | ].
  cbn [args_then_comma List.length app] in E.
  change (Z.of_nat 1 + 1) with 2 in E.
  rewrite append_assoc in E. cbn [append] in E.
  unfold parse_command. cbn [append].
  change (is_nul "l" || ("l" =? "#")%char) with false. cbv beta iota.
  cbn [append] in E. rewrite E. clear E. cbn [bind].
  change (0 <=? 2) with true. cbv beta iota.
  rewrite load_string_chars by reflexivity. cbn [bind].
  change (is_obj_command "line") with TYPE_LINE.
  change (0 <? TYPE_LINE) with true. cbv beta iota.
  unfold create_object, build_object.
  change (TYPE_LINE =? TYPE_LINE) with true. cbv beta iota.
  rewrite !load_in by (change (to_char 2 - 1) with 1; lia).
  change (to_char 2 - 1) with 1.
  change (Z.to_nat 0) with 0%nat. change (Z.to_nat 1) with 1%nat.
    change (Z.to_nat 2) with 2%nat. cbn [map nth_error bind].
  rewrite P0. cbn [bind]. rewrite P1. cbn [bind].
  destruct a1 as [|c r]; [reflexivity|].
  rewrite (parse_coordinates_not_capture AMS c r (Some c0) c1 P1).
  reflexivity.
Qed.

(** X10: The line command that ends in [=&name]: the line is appended, and
    the variable appended is an object variable with that name whose
    value is the index of the line, the one [get_object] answers with
    that line. *)
Theorem line_command_captures_index (a0 a1 name : string) (c0 c1 : coord_t)
    (e : engine) :
  let n := Z.of_nat (List.length (objects e)) in
  let e' := with_variable {| var_type := "&"; var_name := name; var_value_of := VObject n |}
              (with_object (line_from c0 c1) e) in
  plain_arg a0 -> plain_arg a1 ->
  Z.of_nat (String.length a0) < AMS -> Z.of_nat (String.length a1) < AMS ->
  all_chars word_char name = true -> Z.of_nat (String.length name) + 1 < AMS ->
  AMS <= 65536 -> 5 <= CMS <= 65536 -> 3 <= AAMS ->
  n <= SIZE_MAX -> Z.of_nat (String.length (decimal n)) < VMS ->
  parse_coordinates AMS a0 None = Ret c0 ->
  parse_coordinates AMS a1 (Some c0) = Ret c1 ->
  parse_command CMS AMS AAMS VMS
    ("line " ++ a0 ++ String "," (a1 ++ String "=" (String "&" name))) e
  = Ret (true, e')
  /\ get_object n e' = Ret (line_from c0 c1).
Proof.
  intros n e' H0 H1 L0 L1 Hname Ln Ham Hcm Haa Hn Hd P0 P1.
  split.
  - destruct (parse_line_capture CMS AMS AAMS "line" [a0] a1 name) as [tl E];
      [ reflexivity | cbn; lia | lia | forall_args
      | forall_args | assumption | lia | lia | cbn; lia | ].
    cbn [args_then_comma List.length app] in E.
    change (Z.of_nat 1 + 2) with 3 in E.
    rewrite append_assoc in E. cbn [append] in E.
    unfold parse_command. cbn [append].
    change (is_nul "l" || ("l" =? "#")%char) with false. cbv beta iota.
    rewrite E. clear E. cbn [bind].
    change (0 <=? 3) with true. cbv beta iota.
    rewrite load_string_chars by reflexivity. cbn [bind].
    change (is_obj_command "line") with TYPE_LINE.
    change (0 <? TYPE_LINE) with true. cbv beta iota.
    unfold create_object, build_object.
    change (TYPE_LINE =? TYPE_LINE) with true. cbv beta iota.
    change (to_char 3 - 1) with 2.
    rewrite !load_in by lia.
    change (Z.to_nat 0) with 0%nat. change (Z.to_nat 1) with 1%nat.
    change (Z.to_nat 2) with 2%nat. cbn [map nth_error bind].
    rewrite P0. cbn [bind]. rewrite P1. cbn [bind].
    change ("&" =? "&")%char with true. cbv beta iota.
    cbn [objects]. rewrite length_app. cbn [List.length].
    replace (Z.of_nat (List.length (objects e) + 1) - 1) with n by (unfold n; lia).
    destruct (sscanf_snprintf VMS n) as [s [Es Er]]; [unfold n; lia | exact Hd |].
    rewrite Es. cbn [bind].
    unfold set_variable. change (is_nul "&") with false. cbv beta iota.
    change ("&" =? "$")%char with false. change ("&" =? "@")%char with false.
    change ("&" =? "&")%char with true. cbv beta iota.
    cbn [deref bind]. rewrite Er. cbn [bind].
    destruct (all_word_plain name Hname) as [Hnn _].
    rewrite c_str_id by exact Hnn. reflexivity.
  - unfold get_object, e', with_variable, with_object. cbn [objects].
    rewrite length_app. cbn [List.length].
    replace ((0 <=? n) && (n <? Z.of_nat (List.length (objects e) + 1))) with true
      by (symmetry; apply andb_true_intro; split;
          [apply Z.leb_le | apply Z.ltb_lt]; unfold n; lia).
    unfold n. rewrite Nat2Z.id, nth_error_app2 by lia.
    rewrite Nat.sub_diag. reflexivity.
Qed.

(** X11: A keyword that is neither an object keyword nor [set], followed by
    plain arguments: [parse_command] returns false and changes nothing. *)
Theorem unknown_keyword_is_refused (kw : string) (init : list string) (last : string)
    (e : engine) :
  all_chars word_char kw = true ->
  Z.of_nat (String.length kw) < CMS -> CMS <= 65536 ->
  Forall plain_arg (init ++ [last]) ->
  Forall (fun a => Z.of_nat (String.length a) < AMS) (init ++ [last]) ->
  AMS <= 65536 ->
  Z.of_nat (List.length init) < AAMS ->
  ~ In kw valid_objects -> kw <> "set" ->
  parse_command CMS AMS AAMS VMS (kw ++ String " " (join_args (init ++ [last]))) e
  = Ret (false, e).
Proof.
  intros Hk Hkl Hcm Hp Hl Ham Hn Hobj Hset.
  destruct (all_word_plain kw Hk) as [Hnn _].
  rewrite join_args_snoc.
  destruct (parse_line_plain CMS AMS AAMS kw init last Hk Hkl Hcm Hp Hl Ham Hn) as [tl E].
  unfold parse_command.
  assert (F : exists c r, (kw ++ String " " (args_then_comma init ++ last))%string = String c r
                          /\ is_nul c || (c =? "#")%char = false).
  { destruct kw as [|c kw]; cbn [append].
    - eexists; eexists; split; reflexivity.
    - cbn [all_chars] in Hk. apply andb_prop in Hk. destruct Hk as [Hc _].
      destruct (word_char_facts c Hc) as [Hz [Hh _]].
      eexists; eexists; split; [reflexivity|]. rewrite Hz, Hh. reflexivity. }
  destruct F as [c [r [F1 F2]]]. rewrite F1 in *. rewrite F2, E. cbn [bind].
  replace (0 <=? Z.of_nat (List.length init) + 1) with true
    by (symmetry; apply Z.leb_le; lia).
  rewrite load_string_chars by exact Hnn. cbn [bind].
  rewrite is_obj_command_unknown by exact Hobj.
  change (0 <? -1) with false. cbv beta iota.
  replace ("set" =? kw)%string with false
    by (symmetry; apply String.eqb_neq; congruence).
  reflexivity.
Qed.

(** X12: The set command: the first argument gives the type character and the
    name of the variable, the second its value, converted as the type
    says ([atof] for a text in decimal notation); the variable is
    appended and the objects stay as they were.  A type character other
    than [$], [@] and [&] ends the program. *)
Theorem set_command_binds_variable (t : ascii) (name value : string) (e : engine) :
  let bound v :=
    Ret (true, with_variable {| var_type := t; var_name := name; var_value_of := v |} e) in
  let run := parse_command CMS AMS AAMS VMS
               ("set " ++ String t name ++ String "," value) e in
  plain_arg (String t name) -> plain_arg value ->
  Z.of_nat (String.length (String t name)) < AMS -> Z.of_nat (String.length value) < AMS ->
  AMS <= 65536 -> 4 <= CMS <= 65536 -> 2 <= AAMS ->
  (t = "$"%char -> decimal_text value = true ->
   exists d, atof value = Ret d /\ run = bound (VFixed d))
  /\ (t = "@"%char -> run = c <- parse_coordinates AMS value None ;; bound (VCoord c))
  /\ (t = "&"%char ->
      run = r <- sscanf_zu value ;;
            match r with
            | Some i => bound (VObject i)
            | None => Exit BadObjectIndex
            end)
  /\ (t <> "$"%char -> t <> "@"%char -> t <> "&"%char ->
      run = Exit (InvalidVariableType t name)).
Proof.
  intros bound run H0 H1 L0 L1 Ham Hcm Haa.
  destruct (parse_line_plain CMS AMS AAMS "set" [String t name] value) as [tl E];
    [ reflexivity | cbn; lia | lia | forall_args
    | forall_args | lia | cbn; lia | ].
  cbn [args_then_comma List.length app] in E.
  change (Z.of_nat 1 + 1) with 2 in E.
  rewrite append_assoc in E. cbn [append] in E.
  destruct H0 as [_ H0]. cbn [all_chars] in H0. apply andb_prop in H0.
  destruct H0 as [Ht Hnm].
  destruct (arg_char_facts t Ht) as [Hw _].
  destruct (word_char_facts t Hw) as [Hz _].
  destruct (all_word_plain name (all_arg_word name Hnm)) as [Hnn _].
  assert (R : run = (e' <- set_variable AMS (String t name) (Some value) e ;;
                     Ret (true, e'))).
  { unfold run, parse_command. cbn [append].
    change (is_nul "s" || ("s" =? "#")%char) with false. cbv beta iota.
    rewrite E. cbn [bind].
    change (0 <=? 2) with true. cbv beta iota.
    rewrite load_string_chars by reflexivity. cbn [bind].
    change (0 <? is_obj_command "set") with false.
    change ("set" =? "set")%string with true. cbv beta iota.
    rewrite load_in, load_cell_in by lia.
    change (Z.to_nat 0) with 0%nat. change (Z.to_nat 1) with 1%nat.
    cbn [map nth_error bind].
    reflexivity. }
  rewrite R. clear R E. unfold set_variable. rewrite Hz, c_str_id by exact Hnn.
  cbn [deref bind].
  repeat split.
  - intros -> Hd. change ("$" =? "$")%char with true. cbv beta iota.
    destruct (atof_decimal value Hd) as [d Ed]. exists d. split; [exact Ed|].
    rewrite Ed. reflexivity.
  - intros ->. change ("@" =? "$")%char with false. change ("@" =? "@")%char with true.
    cbv beta iota. destruct (parse_coordinates AMS value None); reflexivity.
  - intros ->. change ("&" =? "$")%char with false. change ("&" =? "@")%char with false.
    change ("&" =? "&")%char with true. cbv beta iota.
    destruct (sscanf_zu value) as [[i|]| |]; reflexivity.
  - intros N1 N2 N3.
    apply Ascii.eqb_neq in N1, N2, N3. rewrite N1, N2, N3. reflexivity.
Qed.

End Commands.

Lemma parse_command_only_appends_witness :
  exists os vs,
    objects (with_variable {| var_type := "&"; var_name := "a"; var_value_of := VObject 0 |}
               (with_object (line_from {| x := 0; y := 0 |} {| x := 10; y := 0 |})
                  nanocad_init))
    = objects nanocad_init ++ os
    /\ variables (with_variable
                    {| var_type := "&"; var_name := "a"; var_value_of := VObject 0 |}
                    (with_object (line_from {| x := 0; y := 0 |} {| x := 10; y := 0 |})
                       nanocad_init))
       = variables nanocad_init ++ vs
    /\ (List.length os <= 1)%nat /\ (List.length vs <= 1)%nat
    /\ (true = false -> os = [] /\ vs = []).
Proof.
  apply (parse_command_only_appends 16 30 5 10 "line x0mm;y0mm, w10mm=&a" nanocad_init).
  vm_compute. reflexivity.
Defined.

Lemma line_command_creates_line_witness :
  parse_command 16 30 5 10 "line x0;y0,w5" nanocad_init
  = Ret (true, with_object (line_from {| x := 0; y := 0 |} {| x := 5; y := 0 |})
                 nanocad_init).
Proof.
  apply (line_command_creates_line 16 30 5 10 "x0;y0" "w5");
    [ split; [discriminate | reflexivity] | split; [discriminate | reflexivity]
    | simpl; lia | simpl; lia | lia | lia | lia
    | vm_compute; reflexivity | vm_compute; reflexivity ].
Defined.

Lemma line_command_captures_index_witness :
  parse_command 16 30 5 10 "line x0;y0,w5=&base" nanocad_init
  = Ret (true,
         with_variable {| var_type := "&"; var_name := "base"; var_value_of := VObject 0 |}
           (with_object (line_from {| x := 0; y := 0 |} {| x := 5; y := 0 |})
              nanocad_init))
  /\ get_object 0
       (with_variable {| var_type := "&"; var_name := "base"; var_value_of := VObject 0 |}
          (with_object (line_from {| x := 0; y := 0 |} {| x := 5; y := 0 |})
             nanocad_init))
     = Ret (line_from {| x := 0; y := 0 |} {| x := 5; y := 0 |}).
Proof.
  pose proof (line_command_captures_index 16 30 5 10 "x0;y0" "w5" "base"
                {| x := 0; y := 0 |} {| x := 5; y := 0 |} nanocad_init) as T.
  cbv zeta in T.
  apply T;
    [ split; [discriminate | reflexivity] | split; [discriminate | reflexivity]
    | simpl; lia | simpl; lia | reflexivity | simpl; lia | lia | lia | lia
    | vm_compute; discriminate | vm_compute; reflexivity
    | vm_compute; reflexivity | vm_compute; reflexivity ].
Defined.

Lemma unknown_keyword_is_refused_witness :
  parse_command 16 30 5 10 "arc x0;y0,w5" nanocad_init = Ret (false, nanocad_init).
Proof.
  apply (unknown_keyword_is_refused 16 30 5 10 "arc" ["x0;y0"] "w5" nanocad_init).
  - reflexivity.
  - simpl. lia.
  - lia.
  - repeat (apply Forall_cons; [split; [discriminate | reflexivity]|]). apply Forall_nil.
  - repeat (apply Forall_cons; [simpl; lia|]). apply Forall_nil.
  - lia.
  - simpl. lia.
  - intros [H|[H|[H|[]]]]; discriminate H.
  - discriminate.
Defined.

Lemma set_command_binds_variable_witness :
  exists d,
    atof "1.5" = Ret d
    /\ parse_command 16 30 5 10 "set $a,1.5" nanocad_init
       = Ret (true, with_variable
                      {| var_type := "$"; var_name := "a"; var_value_of := VFixed d |}
                      nanocad_init).
Proof.
  pose proof (set_command_binds_variable 16 30 5 10 "$" "a" "1.5" nanocad_init) as T.
  cbv zeta in T.
  destruct T as [T _];
    [ split; [discriminate | reflexivity] | split; [discriminate | reflexivity]
    | simpl; lia | simpl; lia | lia | lia | lia | ].
  exact (T eq_refl eq_refl).
Defined.

(** ** What [to_base_unit] accepts *)

Lemma bind_ret {A B : Type} (m : outcome A) (k : A -> outcome B) (b : B) :
  bind m k = Ret b -> exists a, m = Ret a /\ k a = Ret b.
Proof. destruct m as [a| |]; cbn [bind]; intros H; try discriminate H. eauto. Qed.

Lemma bind_exit {A B : Type} (m : outcome A) (k : A -> outcome B) (f : fatal) :
  bind m k = Exit f -> m = Exit f \/ exists a, m = Ret a /\ k a = Exit f.
Proof.
  destruct m as [a|f0|u]; cbn [bind]; intros H.
  - right. eauto.
  - left. inversion H. reflexivity.
  - discriminate H.
Qed.

Lemma store_no_exit {A : Type} (cap : Z) (b : cells A) (i : Z) (v : A) (f : fatal) :
  store cap b i v <> Exit f.
Proof. unfold store. destruct ((0 <=? i) && (i <? cap)); discriminate. Qed.

Lemma load_no_exit {A : Type} (cap : Z) (b : cells A) (i : Z) (f : fatal) :
  load cap b i <> Exit f.
Proof.
  unfold load. destruct ((0 <=? i) && (i <? cap)); [|discriminate].
  destruct (nth_error b (Z.to_nat i)) as [[v|]|]; discriminate.
Qed.

Lemma load_string_no_exit (b : buffer) (f : fatal) : load_string b <> Exit f.
Proof.
  induction b as [|[c|] b IH]; cbn [load_string]; try discriminate.
  destruct (is_nul c); [discriminate|].
  destruct (load_string b); cbn [bind]; try discriminate. congruence.
Qed.

Lemma append_char_no_exit (cap : Z) (wrap : Z -> Z) (b : buffer) (p : Z) (c : ascii)
    (f : fatal) :
  append_char cap wrap b p c <> Exit f.
Proof.
  unfold append_char. intros H.
  apply bind_exit in H. destruct H as [H|[b1 [_ H]]]; [exact (store_no_exit _ _ _ _ _ H)|].
  apply bind_exit in H. destruct H as [H|[b2 [_ H]]]; [exact (store_no_exit _ _ _ _ _ H)|].
  discriminate H.
Qed.

Lemma atof_no_exit (s : string) (f : fatal) : atof s <> Exit f.
Proof.
  unfold atof. destruct (read_sign (skip_space s)) as [neg s1].
  destruct (outside_decimal s1); [discriminate|].
  destruct (read_digits s1 0 0) as [[ip ni] s2].
  destruct s2 as [|c r].
  - cbv beta iota. destruct (ni + 0 =? 0); discriminate.
  - destruct (code c =? 46).
    + destruct (read_digits r ip 0) as [[m nf] s3]. destruct (ni + nf =? 0); discriminate.
    + cbv beta iota. destruct (ni + 0 =? 0); discriminate.
Qed.

Lemma long_of_double_no_exit (d : spec_float) (f : fatal) : long_of_double d <> Exit f.
Proof.
  unfold long_of_double. destruct d; try discriminate.
  match goal with |- (if ?b then _ else _) <> _ => destruct b; discriminate end.
Qed.

Lemma long_add_no_exit (a b : Z) (f : fatal) : long_add a b <> Exit f.
Proof. unfold long_add. destruct (in_long (a + b)); discriminate. Qed.

Lemma unit_scale_none (u : string) :
  (u =? "m")%string = false -> (u =? "cm")%string = false ->
  (u =? "mm")%string = false -> u <> "" -> unit_scale u = None.
Proof.
  intros A B C D. unfold unit_scale. rewrite A, B, C.
  replace (u =? "")%string with false by (symmetry; apply String.eqb_neq; exact D).
  reflexivity.
Qed.

Section Lengths.
Variable AMS : Z.

Lemma tbu_step_exit (c : ascii) (st : tbu_state) (f : fatal) :
  tbu_step AMS c st = Exit f ->
  (f = InvalidNumberChar c /\ numeral_char c = false /\ is_lower c = false)
  \/ (f = InvalidUnitChar c /\ is_lower c = false).
Proof.
  unfold tbu_step, numeral_char, is_digit, is_lower.
  destruct (tbu_stage st); try discriminate.
  - destruct ((48 <=? code c) && (code c <=? 57) || (43 <=? code c) && (code c <=? 46)).
    { intros H. apply bind_exit in H.
      destruct H as [H|[[b p] [_ H]]]; [|discriminate H].
      exfalso. exact (append_char_no_exit _ _ _ _ _ _ H). }
    destruct ((97 <=? code c) && (code c <=? 122)).
    { intros H. apply bind_exit in H.
      destruct H as [H|[[b p] [_ H]]]; [|discriminate H].
      exfalso. exact (append_char_no_exit _ _ _ _ _ _ H). }
    intros H. inversion H. left. repeat split.
  - destruct ((97 <=? code c) && (code c <=? 122)).
    { intros H. apply bind_exit in H.
      destruct H as [H|[[b p] [_ H]]]; [|discriminate H].
      exfalso. exact (append_char_no_exit _ _ _ _ _ _ H). }
    intros H. inversion H. right. repeat split.
Qed.

Lemma tbu_scan_exit (s : string) :
  forall (st : tbu_state) (f : fatal), tbu_scan AMS s st = Exit f -> length_exit f.
Proof.
  induction s as [|c s IH]; intros st f H; [discriminate H|].
  rewrite tbu_scan_cons in H. destruct (is_nul c); [discriminate H|].
  apply bind_exit in H. destruct H as [H|[st1 [_ H]]].
  - apply tbu_step_exit in H. destruct H as [[-> [A B]]|[-> A]]; cbn; auto.
  - exact (IH st1 f H).
Qed.

Lemma tbu_convert_exit (st : tbu_state) (f : fatal) :
  tbu_convert st = Exit f -> length_exit f.
Proof.
  unfold tbu_convert. intros H.
  apply bind_exit in H.
  destruct H as [H|[n [_ H]]]; [exfalso; exact (load_string_no_exit _ _ H)|].
  apply bind_exit in H.
  destruct H as [H|[d [_ H]]]; [exfalso; exact (atof_no_exit _ _ H)|].
  apply bind_exit in H.
  destruct H as [H|[u0 [Hu0 H]]]; [exfalso; exact (load_no_exit _ _ _ _ H)|].
  destruct (is_nul u0) eqn:Z0; [exfalso; exact (long_of_double_no_exit _ _ H)|].
  apply bind_exit in H.
  destruct H as [H|[u [Hu H]]]; [exfalso; exact (load_string_no_exit _ _ H)|].
  destruct (u =? "m")%string eqn:E1; [exfalso; exact (long_of_double_no_exit _ _ H)|].
  destruct (u =? "cm")%string eqn:E2; [exfalso; exact (long_of_double_no_exit _ _ H)|].
  destruct (u =? "mm")%string eqn:E3; [exfalso; exact (long_of_double_no_exit _ _ H)|].
  inversion H. cbn. apply unit_scale_none; try assumption.
  intros ->.
  (* the unit buffer starts with [u0], which is not NUL *)
  unfold load in Hu0. destruct ((0 <=? 0) && (0 <? 3)); [|discriminate Hu0].
  destruct (tbu_unit st) as [|[c|] t]; cbn in Hu0; try discriminate Hu0.
  inversion Hu0. subst c. cbn [load_string] in Hu. rewrite Z0 in Hu.
  destruct (load_string t); cbn [bind] in Hu; discriminate Hu.
Qed.

(** [to_base_unit] ends the program only with one of its three
    messages, each for the reason it states. *)
Lemma to_base_unit_exit (s : string) (f : fatal) :
  to_base_unit AMS s = Exit f -> length_exit f.
Proof.
  unfold to_base_unit. intros H. apply bind_exit in H.
  destruct H as [H|[st [_ H]]].
  - exact (tbu_scan_exit s _ f H).
  - exact (tbu_convert_exit st f H).
Qed.

(** The scan in the state [PARSING_UNIT], entered with one letter in
    [unit]: at most one more letter fits. *)
Lemma tbu_scan_unit (s : string) (c : ascii) (num : buffer) (st' : tbu_state) :
  tbu_scan AMS s {| tbu_stage := PARSING_UNIT; tbu_cur_pos := 1;
                    tbu_unit := [Some c; Some NUL]; tbu_strnum := num |} = Ret st' ->
  exists u, c_str s = u /\ (String.length u <= 1)%nat
            /\ tbu_unit st' = chars (String c u) ++ [Some NUL]
            /\ tbu_strnum st' = num.
Proof.
  intros H. destruct s as [|d s].
  { inversion H. exists "". repeat split. cbn. lia. }
  rewrite tbu_scan_cons in H. cbn [c_str]. destruct (is_nul d) eqn:Zd.
  { inversion H. exists "". repeat split. cbn. lia. }
  unfold tbu_step in H. cbn [tbu_stage tbu_cur_pos tbu_unit tbu_strnum] in H.
  destruct ((97 <=? code d) && (code d <=? 122)); [|discriminate H].
  unfold append_char in H. rewrite store_in in H by lia. cbn [bind] in H.
  change (u8 (1 + 1)) with 2 in H. rewrite store_in in H by lia. cbn [bind] in H.
  change (set_cell (set_cell [Some c; Some NUL] (Z.to_nat 1) d) (Z.to_nat 2) NUL)
    with [Some c; Some d; Some NUL] in H.
  destruct s as [|d2 s].
  { inversion H. exists (String d ""). repeat split. cbn. lia. }
  rewrite tbu_scan_cons in H. cbn [c_str]. destruct (is_nul d2) eqn:Zd2.
  { inversion H. exists (String d ""). repeat split. cbn. lia. }
  exfalso.
  unfold tbu_step in H. cbn [tbu_stage tbu_cur_pos tbu_unit tbu_strnum] in H.
  destruct ((97 <=? code d2) && (code d2 <=? 122)); [|discriminate H].
  unfold append_char in H. rewrite store_in in H by lia. cbn [bind] in H.
  change (u8 (2 + 1)) with 3 in H. rewrite store_out in H by lia.
  discriminate H.
Qed.

(** The scan from the state [PARSING_NUMBER]: numeral characters, then
    at most two letters. *)
Lemma tbu_scan_shape (s : string) :
  forall (st st' : tbu_state),
    tbu_stage st = PARSING_NUMBER -> tbu_unit st = [Some NUL] ->
    tbu_scan AMS s st = Ret st' ->
    exists n u,
      c_str s = (n ++ u)%string /\ all_chars numeral_char n = true
      /\ all_chars is_lower u = true /\ (String.length u <= 2)%nat
      /\ tbu_unit st' = chars u ++ [Some NUL]
      /\ (n = "" -> tbu_strnum st' = tbu_strnum st).
Proof.
  induction s as [|c s IH]; intros st st' Hs Hu H.
  { inversion H. subst st'. exists "", "". rewrite Hu. repeat split. cbn. lia. }
  rewrite tbu_scan_cons in H. cbn [c_str]. destruct (is_nul c) eqn:Zc.
  { inversion H. subst st'. exists "", "". rewrite Hu. repeat split. cbn. lia. }
  apply bind_ret in H. destruct H as [st1 [S1 H]].
  unfold tbu_step in S1. rewrite Hs in S1.
  destruct ((48 <=? code c) && (code c <=? 57) || (43 <=? code c) && (code c <=? 46))
    eqn:Nc.
  - apply bind_ret in S1. destruct S1 as [[b p] [_ S1]]. inversion S1. subst st1.
    eapply IH in H; [|reflexivity|exact Hu].
    destruct H as [n [u [E [Hn [Hl [Hlen [Hunit _]]]]]]].
    exists (String c n), u. cbn [append all_chars]. rewrite E, Hn.
    unfold numeral_char at 1, is_digit. rewrite Nc.
    repeat split; try assumption. intros D. discriminate D.
  - destruct ((97 <=? code c) && (code c <=? 122)) eqn:Lc; [|discriminate S1].
    rewrite Hu in S1. unfold append_char in S1.
    rewrite store_in in S1 by lia. cbn [bind] in S1.
    change (u8 (0 + 1)) with 1 in S1. rewrite store_in in S1 by lia. cbn [bind] in S1.
    change (set_cell (set_cell [Some NUL] (Z.to_nat 0) c) (Z.to_nat 1) NUL)
      with [Some c; Some NUL] in S1.
    inversion S1. subst st1.
    destruct (tbu_scan_unit s c _ st' H) as [u [E [Hlen [Hunit Hnum]]]].
    exists "", (String c u). cbn [append all_chars].
    assert (Hl : all_chars is_lower u = true).
    { clear - H E Hlen. subst u. destruct s as [|d s]; [reflexivity|].
      rewrite tbu_scan_cons in H. cbn [c_str] in *. destruct (is_nul d); [reflexivity|].
      unfold tbu_step in H. cbn [tbu_stage] in H.
      destruct ((97 <=? code d) && (code d <=? 122)) eqn:Ld; [|discriminate H].
      cbn [String.length] in Hlen. destruct (c_str s); [|cbn in Hlen; lia].
      cbn [all_chars]. unfold is_lower. rewrite Ld. reflexivity. }
    rewrite E. unfold is_lower at 1. rewrite Lc, Hl.
    repeat split; try assumption; [cbn [String.length]; lia | intros _; exact Hnum].
Qed.

(** X13: [to_base_unit] returns a value only for numeral characters
    followed by nothing or by one of the units m, cm and mm. *)
Theorem to_base_unit_accepts_only_lengths (s : string) (v : Z) :
  to_base_unit AMS s = Ret v ->
  exists n u,
    c_str s = (n ++ u)%string /\ all_chars numeral_char n = true
    /\ In u [""; "m"; "cm"; "mm"].
Proof.
  unfold to_base_unit. intros H.
  apply bind_ret in H. destruct H as [st [S H]].
  destruct (tbu_scan_shape s tbu_init st eq_refl eq_refl S)
    as [n [u [E [Hn [Hl [Hlen [Hunit Hnum]]]]]]].
  exists n, u. split; [exact E|]. split; [exact Hn|].
  unfold tbu_convert in H.
  apply bind_ret in H. destruct H as [sn [_ H]].
  apply bind_ret in H. destruct H as [d [_ H]].
  apply bind_ret in H. destruct H as [u0 [Hu0 H]].
  rewrite Hunit in *.
  destruct u as [|c u]; [cbn; auto|].
  assert (Hnn : no_nul (String c u) = true).
  { apply (all_chars_no_nul is_lower); [|exact Hl].
    intros a Ha. apply code_not_nul. pose proof (is_lower_code a Ha). lia. }
  rewrite load_in in Hu0 by lia. cbn in Hu0. inversion Hu0. subst u0.
  cbn [no_nul] in Hnn. apply andb_prop in Hnn. destruct Hnn as [Zc Hnn0].
  apply negb_true_iff in Zc. rewrite Zc in H.
  change (chars (String c u) ++ [Some NUL]) with (chars (String c u) ++ Some NUL :: []) in H.
  rewrite load_string_chars in H by (cbn [no_nul]; rewrite Zc, Hnn0; reflexivity).
  cbn [bind] in H.
  destruct (String c u =? "m")%string eqn:E1.
  { apply String.eqb_eq in E1. rewrite E1. cbn. auto. }
  destruct (String c u =? "cm")%string eqn:E2.
  { apply String.eqb_eq in E2. rewrite E2. cbn. auto. }
  destruct (String c u =? "mm")%string eqn:E3.
  { apply String.eqb_eq in E3. rewrite E3. cbn. auto. }
  discriminate H.
Qed.

End Lengths.

Lemma to_base_unit_accepts_only_lengths_witness :
  exists n u,
    c_str "12.5cm" = (n ++ u)%string /\ all_chars numeral_char n = true
    /\ In u [""; "m"; "cm"; "mm"].
Proof.
  apply (to_base_unit_accepts_only_lengths 30 "12.5cm" 125).
  vm_compute. reflexivity.
Defined.

(** ** The absolute form and the errors of [parse_coordinates] *)

Lemma numeral_lower_coordx (n u : string) :
  all_chars numeral_char n = true -> all_chars is_lower u = true ->
  all_chars coordx_char (n ++ u) = true.
Proof.
  intros Hn Hu. rewrite all_chars_app. apply andb_true_intro. split.
  - clear Hu. induction n as [|c n IH]; [reflexivity|].
    cbn [all_chars] in *. apply andb_prop in Hn. destruct Hn as [Hc Hn].
    rewrite (IH Hn), andb_true_r. pose proof (numeral_char_code c Hc) as K.
    unfold coordx_char. rewrite (code_not_nul c) by lia.
    rewrite ascii_eqb_code by (change (code ";") with 59; lia). reflexivity.
  - clear Hn. induction u as [|c u IH]; [reflexivity|].
    cbn [all_chars] in *. apply andb_prop in Hu. destruct Hu as [Hc Hu].
    rewrite (IH Hu), andb_true_r. pose proof (is_lower_code c Hc) as K.
    unfold coordx_char. rewrite (code_not_nul c) by lia.
    rewrite ascii_eqb_code by (change (code ";") with 59; lia). reflexivity.
Qed.

Section Coordinates.
Variable AMS : Z.

(** In the stage [PARSING_COORDX] the characters before the semicolon go
    to [coord_x]. *)
Lemma pc_scan_coordx_tail (lx : string) :
  forall (acc : string) (tl : buffer) (op : ascii) (cy : buffer) (rest : string),
    all_chars coordx_char lx = true ->
    Z.of_nat (String.length acc + String.length lx) < AMS ->
    (String.length acc + String.length lx < 256)%nat ->
    exists tl',
      pc_scan AMS (lx ++ rest)
        {| pc_stage := PARSING_COORDX; pc_cur_pos := Z.of_nat (String.length acc);
           pc_operation := op; pc_coord_x := chars acc ++ Some NUL :: tl;
           pc_coord_y := cy |}
      = pc_scan AMS rest
          {| pc_stage := PARSING_COORDX;
             pc_cur_pos := Z.of_nat (String.length acc + String.length lx);
             pc_operation := op;
             pc_coord_x := chars (acc ++ lx) ++ Some NUL :: tl';
             pc_coord_y := cy |}.
Proof.
  induction lx as [|c lx IH]; intros acc tl op cy rest Hx Hcap Hw.
  - exists tl. cbn [append String.length]. rewrite Nat.add_0_r, app_empty_r. reflexivity.
  - cbn [all_chars] in Hx. apply andb_prop in Hx. destruct Hx as [Hc Hx].
    unfold coordx_char in Hc. apply andb_prop in Hc. destruct Hc as [Hz Hs].
    apply negb_true_iff in Hz, Hs.
    cbn [String.length] in Hcap, Hw.
    destruct (IH (acc ++ String c "")%string (List.tl tl) op cy rest Hx) as [tl' E];
      [rewrite length_snoc; lia | rewrite length_snoc; lia |].
    exists tl'.
    cbn [append]. rewrite pc_scan_cons, Hz.
    unfold pc_step. cbn [pc_stage pc_cur_pos pc_operation pc_coord_x pc_coord_y].
    rewrite Hs.
    rewrite append_char_chars by (try apply u8_small; lia). cbn [bind List.tl].
    replace (Z.of_nat (String.length acc) + 1)
      with (Z.of_nat (String.length (acc ++ String c ""))) by (rewrite length_snoc; lia).
    rewrite E, app_snoc_cons, length_snoc. do 2 f_equal.
    cbn [String.length]. lia.
Qed.

(** The same from the start of the stage, where [coord_x] holds the
    string 0: an empty coordinate leaves it. *)
Lemma pc_scan_coordx (lx : string) (op : ascii) (cy : buffer) (rest : string) :
  all_chars coordx_char lx = true ->
  Z.of_nat (String.length lx) < AMS ->
  (String.length lx < 256)%nat ->
  exists bx,
    pc_scan AMS (lx ++ rest)
      {| pc_stage := PARSING_COORDX; pc_cur_pos := 0; pc_operation := op;
         pc_coord_x := [Some "0"%char; Some NUL]; pc_coord_y := cy |}
    = pc_scan AMS rest
        {| pc_stage := PARSING_COORDX; pc_cur_pos := Z.of_nat (String.length lx);
           pc_operation := op; pc_coord_x := bx; pc_coord_y := cy |}
    /\ load_string bx = Ret (match lx with EmptyString => "0" | _ => lx end).
Proof.
  intros Hx Hcap Hw. destruct lx as [|c lx].
  { eexists. split; reflexivity. }
  assert (Hnn : no_nul (String c lx) = true).
  { apply (all_chars_no_nul coordx_char); [|exact Hx].
    intros a Ha. unfold coordx_char in Ha. apply andb_prop in Ha. destruct Ha as [Ha _].
    apply negb_true_iff in Ha. exact Ha. }
  cbn [all_chars] in Hx. apply andb_prop in Hx. destruct Hx as [Hc Hx].
  unfold coordx_char in Hc. apply andb_prop in Hc. destruct Hc as [Hz Hs].
  apply negb_true_iff in Hz, Hs.
  cbn [String.length] in Hcap, Hw.
  destruct (pc_scan_coordx_tail lx (String c "") [] op cy rest Hx) as [tl' E];
    [cbn [String.length]; lia | cbn [String.length]; lia |].
  exists (chars (String c lx) ++ Some NUL :: tl'). split.
  - cbn [append]. rewrite pc_scan_cons, Hz.
    unfold pc_step. cbn [pc_stage pc_cur_pos pc_operation pc_coord_x pc_coord_y].
    rewrite Hs.
    pose proof (append_char_chars AMS u8 "" [Some "0"%char; Some NUL] c) as A.
    cbn [String.length Z.of_nat Z.add append List.tl] in A.
    change (chars "" ++ [Some "0"%char; Some NUL]) with [Some "0"%char; Some NUL] in A.
    rewrite A by (try apply u8_small; lia). clear A. cbn [bind].
    cbn [String.length Nat.add append] in E. change (Z.of_nat 1) with 1 in E.
    rewrite E. reflexivity.
  - apply load_string_chars. exact Hnn.
Qed.

(** In the stage [PARSING_COORDY] every character goes to [coord_y]. *)
Lemma pc_scan_coordy (s : string) :
  forall (c : ascii) (acc : string) (tl : buffer) (op : ascii) (cx : buffer),
    no_nul (String c s) = true ->
    Z.of_nat (String.length acc + String.length (String c s)) < AMS ->
    (String.length acc + String.length (String c s) < 256)%nat ->
    exists tl',
      pc_scan AMS (String c s)
        {| pc_stage := PARSING_COORDY; pc_cur_pos := Z.of_nat (String.length acc);
           pc_operation := op; pc_coord_x := cx; pc_coord_y := chars acc ++ tl |}
      = Ret {| pc_stage := PARSING_COORDY;
               pc_cur_pos := Z.of_nat (String.length acc + String.length (String c s));
               pc_operation := op;
               pc_coord_x := cx;
               pc_coord_y := chars (acc ++ String c s) ++ Some NUL :: tl' |}.
Proof. copy_stage s. Qed.

Lemma to_base_unit_chars (s : string) (v : Z) :
  to_base_unit AMS s = Ret v -> all_chars coordx_char (c_str s) = true /\ c_str s <> "".
Proof.
  intros H. unfold to_base_unit in H.
  apply bind_ret in H. destruct H as [st [S H]].
  destruct (tbu_scan_shape AMS s tbu_init st eq_refl eq_refl S)
    as [n [u [E [Hn [Hl [_ [_ Hnum]]]]]]].
  rewrite E. split; [apply numeral_lower_coordx; assumption|].
  intros D. destruct n; [|discriminate D].
  unfold tbu_convert in H. rewrite (Hnum eq_refl) in H. discriminate H.
Qed.

(** X14: The absolute form: [x], a length, and optionally a semicolon, [y]
    and a second length.  The two lengths are converted by
    [to_base_unit]; a missing [y] part is 0; [base] plays no part. *)
Theorem parse_coordinates_absolute_form (lx ly : string) (vx vy : Z)
    (base : option coord_t) :
  to_base_unit AMS lx = Ret vx -> to_base_unit AMS ly = Ret vy ->
  no_nul lx = true ->
  Z.of_nat (String.length lx) < AMS -> (String.length lx < 256)%nat ->
  Z.of_nat (String.length ly) < AMS -> (String.length ly < 256)%nat ->
  parse_coordinates AMS (String "x" (lx ++ String ";" (String "y" ly))) base
  = Ret {| x := vx; y := vy |}
  /\ parse_coordinates AMS (String "x" lx) base = Ret {| x := vx; y := 0 |}.
Proof.
  intros Hvx Hvy Hnn Lx Wx Ly Wy.
  destruct (to_base_unit_chars lx vx Hvx) as [Cx Nx].
  destruct (to_base_unit_chars ly vy Hvy) as [_ Ny].
  rewrite c_str_id in Cx, Nx by exact Hnn.
  assert (H2 : 2 <= AMS).
  { destruct lx; [congruence|]. cbn [String.length] in Lx. lia. }
  assert (Start : forall rest,
             parse_coordinates AMS (String "x" (lx ++ rest)) base
             = (st <- pc_scan AMS (lx ++ rest)
                        {| pc_stage := PARSING_COORDX; pc_cur_pos := 0;
                           pc_operation := NUL;
                           pc_coord_x := [Some "0"%char; Some NUL];
                           pc_coord_y := [Some "0"%char; Some NUL] |} ;;
                sx <- load_string (pc_coord_x st) ;;
                cx <- to_base_unit AMS sx ;;
                sy <- load_string (pc_coord_y st) ;;
                cy <- to_base_unit AMS sy ;;
                Ret {| x := cx; y := cy |})).
  { intros rest. rewrite parse_coordinates_absolute. unfold parse_coordinates.
    rewrite pc_zero_ok by exact H2. cbn [bind].
    rewrite pc_scan_cons. change (is_nul "x") with false. cbv beta iota.
    unfold pc_step at 1. cbn [pc_stage pc_cur_pos pc_operation pc_coord_x pc_coord_y].
    change ("x" =? "x")%char with true. cbv beta iota. cbn [bind]. reflexivity. }
  split.
  - rewrite Start.
    destruct (pc_scan_coordx lx NUL [Some "0"%char; Some NUL]
                (String ";" (String "y" ly)) Cx Lx Wx) as [bx [E Lb]].
    rewrite E. clear E.
    rewrite pc_scan_cons. change (is_nul ";") with false. cbv beta iota.
    unfold pc_step at 1. cbn [pc_stage pc_cur_pos pc_operation pc_coord_x pc_coord_y].
    change (";" =? ";")%char with true. cbv beta iota. cbn [bind].
    rewrite pc_scan_cons. change (is_nul "y") with false. cbv beta iota.
    unfold pc_step at 1. cbn [pc_stage pc_cur_pos pc_operation pc_coord_x pc_coord_y].
    change ("y" =? "y")%char with true. cbv beta iota. cbn [bind].
    rewrite <- pc_scan_c_str.
    pose proof (c_str_no_nul ly) as Hn. pose proof (c_str_length ly) as Hl.
    rewrite <- to_base_unit_c_str in Hvy.
    destruct (c_str ly) as [|c s] eqn:Ec; [congruence|].
    destruct (pc_scan_coordy s c "" [Some "0"%char; Some NUL] NUL bx Hn) as [tl' E];
      [cbn [String.length Nat.add] in *; lia | cbn [String.length Nat.add] in *; lia |].
    cbn [String.length Nat.add append] in E. change (Z.of_nat 0) with 0 in E.
    change (chars "" ++ [Some "0"%char; Some NUL]) with [Some "0"%char; Some NUL] in E.
    rewrite E. clear E. cbn [bind pc_coord_x pc_coord_y].
    rewrite Lb. cbn [bind].
    replace (match lx with EmptyString => "0" | String _ _ => lx end) with lx
      by (destruct lx; [congruence | reflexivity]).
    rewrite Hvx. cbn [bind].
    rewrite load_string_chars by exact Hn. cbn [bind].
    rewrite Hvy. reflexivity.
  - rewrite <- (app_empty_r lx) at 1. rewrite Start.
    destruct (pc_scan_coordx lx NUL [Some "0"%char; Some NUL] "" Cx Lx Wx) as [bx [E Lb]].
    rewrite E. clear E. cbn [pc_scan bind pc_coord_x pc_coord_y].
    rewrite Lb. cbn [bind].
    replace (match lx with EmptyString => "0" | String _ _ => lx end) with lx
      by (destruct lx; [congruence | reflexivity]).
    rewrite Hvx. cbn [bind].
    change (load_string [Some "0"%char; Some NUL]) with (Ret (A := string) "0").
    cbn [bind]. rewrite to_base_unit_zero by exact H2. reflexivity.
Qed.

(** X15: The two syntax errors of [parse_coordinates]: a first letter other
    than [x], [w] and [h], and, after the semicolon of the absolute form,
    a letter other than [y].  Each ends the program with its message. *)
Theorem parse_coordinates_syntax_errors (c d : ascii) (lx rest : string)
    (base : option coord_t) :
  2 <= AMS ->
  is_nul c = false -> c <> "x"%char -> c <> "w"%char -> c <> "h"%char ->
  all_chars coordx_char lx = true ->
  Z.of_nat (String.length lx) < AMS -> (String.length lx < 256)%nat ->
  is_nul d = false -> d <> "y"%char ->
  parse_coordinates AMS (String c rest) base = Exit (UnknownFirstCoordLetter c)
  /\ parse_coordinates AMS (String "x" (lx ++ String ";" (String d rest))) base
     = Exit (UnknownNextArgStart d).
Proof.
  intros H2 Hz Nx Nw Nh Cx Lx Wx Hzd Ny. split.
  - apply Ascii.eqb_neq in Nx, Nw, Nh.
    unfold parse_coordinates. rewrite pc_zero_ok by exact H2. cbn [bind].
    rewrite pc_scan_cons, Hz. unfold pc_step at 1. cbn [pc_stage].
    rewrite Nx, Nw, Nh. reflexivity.
  - apply Ascii.eqb_neq in Ny.
    unfold parse_coordinates. rewrite pc_zero_ok by exact H2. cbn [bind].
    rewrite pc_scan_cons. change (is_nul "x") with false. cbv beta iota.
    unfold pc_step at 1. cbn [pc_stage pc_cur_pos pc_operation pc_coord_x pc_coord_y].
    change ("x" =? "x")%char with true. cbv beta iota. cbn [bind].
    destruct (pc_scan_coordx lx NUL [Some "0"%char; Some NUL]
                (String ";" (String d rest)) Cx Lx Wx) as [bx [E _]].
    rewrite E. clear E.
    rewrite pc_scan_cons. change (is_nul ";") with false. cbv beta iota.
    unfold pc_step at 1. cbn [pc_stage pc_cur_pos pc_operation pc_coord_x pc_coord_y].
    change (";" =? ";")%char with true. cbv beta iota. cbn [bind].
    rewrite pc_scan_cons, Hzd.
    unfold pc_step at 1. cbn [pc_stage pc_cur_pos pc_operation pc_coord_x pc_coord_y].
    rewrite Ny. reflexivity.
Qed.

Lemma pc_step_exit (c : ascii) (st : pc_state) (f : fatal) :
  pc_step AMS c st = Exit f -> coordinate_exit f.
Proof.
  unfold pc_step. intros H.
  destruct (pc_stage st);
    repeat match type of H with
           | (if ?b then _ else _) = _ => destruct b
           | bind ?m _ = _ =>
               apply bind_exit in H;
               destruct H as [H|[[? ?] [_ H]]];
               [exfalso; exact (append_char_no_exit _ _ _ _ _ _ H)|]
           end;
    try discriminate H; inversion H; exact I.
Qed.

Lemma pc_scan_exit (s : string) :
  forall (st : pc_state) (f : fatal), pc_scan AMS s st = Exit f -> coordinate_exit f.
Proof.
  induction s as [|c s IH]; intros st f H; [discriminate H|].
  rewrite pc_scan_cons in H. destruct (is_nul c); [discriminate H|].
  apply bind_exit in H. destruct H as [H|[st1 [_ H]]].
  - exact (pc_step_exit c st f H).
  - exact (IH st1 f H).
Qed.

(** After the scan [operation] is NUL, [w] or [h]. *)
Lemma pc_scan_start_operation (s : string) (zx zy : buffer) (st : pc_state) :
  pc_scan AMS s {| pc_stage := PARSING_START; pc_cur_pos := 0; pc_operation := NUL;
                   pc_coord_x := zx; pc_coord_y := zy |} = Ret st ->
  pc_operation st = NUL \/ pc_operation st = "w"%char \/ pc_operation st = "h"%char.
Proof.
  intros H. destruct s as [|c s]; [inversion H; left; reflexivity|].
  rewrite pc_scan_cons in H. destruct (is_nul c); [inversion H; left; reflexivity|].
  apply bind_ret in H. destruct H as [st1 [S1 H]].
  unfold pc_step in S1. cbn [pc_stage pc_cur_pos pc_operation pc_coord_x pc_coord_y] in S1.
  destruct (c =? "x")%char.
  - inversion S1. subst st1. apply pc_scan_operation in H; [|cbn; discriminate].
    left. exact H.
  - destruct (c =? "w")%char eqn:Ew.
    + inversion S1. subst st1. apply pc_scan_operation in H; [|cbn; discriminate].
      apply Ascii.eqb_eq in Ew. subst c. right. left. exact H.
    + destruct (c =? "h")%char eqn:Eh; [|discriminate S1].
      inversion S1. subst st1. apply pc_scan_operation in H; [|cbn; discriminate].
      apply Ascii.eqb_eq in Eh. subst c. right. right. exact H.
Qed.

Lemma coordinate_exit_length (f : fatal) : length_exit f -> coordinate_exit f.
Proof. destruct f; cbn; auto. Qed.

(** X16: [parse_coordinates] ends the program only with its own two messages
    or with those of [to_base_unit]: the default branch of
    [calc_coordinate] is never reached from it. *)
Theorem parse_coordinates_exit_kinds (arg : string) (base : option coord_t) (f : fatal) :
  parse_coordinates AMS arg base = Exit f ->
  coordinate_exit f /\ forall c, f <> InvalidCoordOperation c.
Proof.
  intros H.
  assert (K : coordinate_exit f).
  { unfold parse_coordinates in H.
    apply bind_exit in H.
    destruct H as [H|[zx [_ H]]].
    { exfalso. unfold pc_zero in H. apply bind_exit in H.
      destruct H as [H|[b [_ H]]]; exact (store_no_exit _ _ _ _ _ H). }
    apply bind_exit in H.
    destruct H as [H|[zy [_ H]]].
    { exfalso. unfold pc_zero in H. apply bind_exit in H.
      destruct H as [H|[b [_ H]]]; exact (store_no_exit _ _ _ _ _ H). }
    apply bind_exit in H.
    destruct H as [H|[st [S H]]]; [exact (pc_scan_exit _ _ _ H)|].
    apply bind_exit in H.
    destruct H as [H|[sx [_ H]]]; [exfalso; exact (load_string_no_exit _ _ H)|].
    apply bind_exit in H.
    destruct H as [H|[cx [_ H]]];
      [apply coordinate_exit_length; exact (to_base_unit_exit AMS _ _ H)|].
    apply bind_exit in H.
    destruct H as [H|[sy [_ H]]]; [exfalso; exact (load_string_no_exit _ _ H)|].
    apply bind_exit in H.
    destruct H as [H|[cy [_ H]]];
      [apply coordinate_exit_length; exact (to_base_unit_exit AMS _ _ H)|].
    exfalso.
    destruct base as [b|]; [|discriminate H].
    apply pc_scan_start_operation in S.
    destruct S as [S|[S|S]]; rewrite S in H.
    - discriminate H.
    - unfold calc_coordinate in H. change ("w" =? "w")%char with true in H.
      cbn [negb is_nul] in H.
      change (negb (is_nul "w")) with true in H. cbv beta iota in H.
      apply bind_exit in H. destruct H as [H|[a [_ H]]]; [|discriminate H].
      exact (long_add_no_exit _ _ _ H).
    - unfold calc_coordinate in H. change ("h" =? "w")%char with false in H.
      change ("h" =? "h")%char with true in H.
      change (negb (is_nul "h")) with true in H. cbv beta iota in H.
      apply bind_exit in H. destruct H as [H|[a [_ H]]]; [|discriminate H].
      exact (long_add_no_exit _ _ _ H). }
  split; [exact K|]. intros c ->. exact K.
Qed.

End Coordinates.

Lemma parse_coordinates_absolute_form_witness :
  parse_coordinates 30 "x1.5cm;y2m" (Some {| x := 7; y := 7 |}) = Ret {| x := 15; y := 2000 |}
  /\ parse_coordinates 30 "x1.5cm" (Some {| x := 7; y := 7 |}) = Ret {| x := 15; y := 0 |}.
Proof.
  apply (parse_coordinates_absolute_form 30 "1.5cm" "2m" 15 2000);
    [ vm_compute; reflexivity | vm_compute; reflexivity | reflexivity
    | simpl; lia | simpl; lia | simpl; lia | simpl; lia ].
Defined.

Lemma parse_coordinates_syntax_errors_witness :
  parse_coordinates 30 "q10" None = Exit (UnknownFirstCoordLetter "q")
  /\ parse_coordinates 30 "x5mm;z10" None = Exit (UnknownNextArgStart "z").
Proof.
  apply (parse_coordinates_syntax_errors 30 "q" "z" "5mm" "10" None);
    [ lia | reflexivity | discriminate | discriminate | discriminate | reflexivity
    | simpl; lia | simpl; lia | reflexivity | discriminate ].
Defined.

Lemma parse_coordinates_exit_kinds_witness :
  coordinate_exit (InvalidUnit "km")
  /\ forall c, InvalidUnit "km" <> InvalidCoordOperation c.
Proof.
  apply (parse_coordinates_exit_kinds 30 "x5km" None (InvalidUnit "km")).
  vm_compute. reflexivity.
Defined.

(** ** Edges of [to_base_unit] *)

Section LengthEdges.
Variable AMS : Z.

(** X17: Without a numeral character [strnum] is read before anything was
    written to it. *)
Theorem numeral_missing_reads_strnum (u rest : string) :
  1 <= AMS ->
  all_chars is_lower u = true -> (String.length u <= 2)%nat ->
  to_base_unit AMS (u ++ String NUL rest) = Undef IndeterminateRead
  /\ to_base_unit AMS u = Undef IndeterminateRead.
Proof.
  intros HA Hu Hlen.
  assert (K : forall r, first_char r = NUL ->
                        to_base_unit AMS (u ++ r) = Undef IndeterminateRead).
  { intros r Hr.
    destruct (tbu_scan_prefix AMS "" u r eq_refl) as [st [E [_ [_ N]]]];
      [cbn; lia | cbn; lia | exact Hu | exact Hlen |].
    cbn [append] in E. unfold to_base_unit. rewrite E.
    assert (S : tbu_scan AMS r st = Ret st).
    { destruct r as [|c r]; [reflexivity|]. cbn [first_char] in Hr. subst c. reflexivity. }
    rewrite S. cbn [bind]. unfold tbu_convert. rewrite N. reflexivity. }
  split.
  - apply K. reflexivity.
  - rewrite <- (app_empty_r u) at 1. apply K. reflexivity.
Qed.

(** X18: A unit of three letters does not fit [unit]: its terminator is
    written at index 3 of an array of 3. *)
Theorem three_letter_unit_overruns_unit (n : string) (a b c : ascii) (rest : string) :
  all_chars numeral_char n = true ->
  Z.of_nat (String.length n) < AMS -> (String.length n < 256)%nat ->
  is_lower a = true -> is_lower b = true -> is_lower c = true ->
  to_base_unit AMS (n ++ String a (String b (String c rest))) = Undef OutOfBounds.
Proof. apply tbu_three_letters. Qed.

End LengthEdges.

Lemma numeral_missing_reads_strnum_witness :
  to_base_unit 30 ("mm" ++ String NUL "5") = Undef IndeterminateRead
  /\ to_base_unit 30 "mm" = Undef IndeterminateRead.
Proof.
  apply (numeral_missing_reads_strnum 30 "mm" "5"); [lia | reflexivity | simpl; lia].
Defined.

Lemma three_letter_unit_overruns_unit_witness :
  to_base_unit 30 "10xyz" = Undef OutOfBounds.
Proof.
  apply (three_letter_unit_overruns_unit 30 "10" "x" "y" "z" "");
    [ reflexivity | simpl; lia | simpl; lia | reflexivity | reflexivity | reflexivity ].
Defined.

(** ** The object keywords *)

(** X19: [is_obj_command] answers with a positive kind exactly for the names
    in [valid_objects], the position of the name counted from 1, and
    with -1 for any other string. *)
Theorem is_obj_command_kinds (command : string) :
  (In command valid_objects <-> 0 < is_obj_command command)
  /\ (~ In command valid_objects <-> is_obj_command command = -1)
  /\ is_obj_command "line" = 1 /\ is_obj_command "rect" = 2
  /\ is_obj_command "circle" = 3.
Proof.
  assert (D : In command valid_objects \/ ~ In command valid_objects).
  { unfold valid_objects. cbn [In].
    destruct (string_dec "line" command); [tauto|].
    destruct (string_dec "rect" command); [tauto|].
    destruct (string_dec "circle" command); tauto. }
  assert (P : In command valid_objects -> 0 < is_obj_command command).
  { unfold valid_objects. cbn [In].
    intros [<-|[<-|[<-|[]]]]; vm_compute; reflexivity. }
  repeat split; try reflexivity.
  - exact P.
  - intros H. destruct D as [D|D]; [exact D|].
    rewrite (is_obj_command_unknown command D) in H. lia.
  - apply is_obj_command_unknown.
  - intros H I. apply P in I. lia.
Qed.

(** ** Blanks after the keyword *)

Section Blanks.
Variable CMS AMS AAMS : Z.

Lemma blank_facts (c : ascii) :
  is_blank c = true ->
  is_nul c = false /\ (c =? "#")%char = false /\ (c =? ",")%char = false
  /\ (c =? "=")%char = false /\ (c =? "&")%char = false
  /\ negb (c =? " ")%char && negb (c =? "009")%char = false.
Proof.
  unfold is_blank. intros H. apply orb_prop in H.
  destruct H as [H|H]; apply Ascii.eqb_eq in H; subst c; repeat split; reflexivity.
Qed.

(** After the keyword a space or a tab leaves the state as it is. *)
Lemma pl_step_blank (c : ascii) (st : pl_state) :
  is_blank c = true ->
  pl_stage st = PARSING_ARGUMENTS \/ pl_stage st = PARSING_SET_OBJVAR ->
  pl_step CMS AMS AAMS c st = Ret (PlNext st).
Proof.
  intros Hb Hs. destruct (blank_facts c Hb) as [_ [_ [Hc [He [Ha Hn]]]]].
  unfold pl_step. destruct Hs as [-> | ->].
  - rewrite Hc, Hb. reflexivity.
  - rewrite Hb, Ha. rewrite Hn. cbn [andb].
    destruct (pl_cur_cpos st =? 0); reflexivity.
Qed.

(** Once the keyword has ended the stage is [PARSING_ARGUMENTS] or
    [PARSING_SET_OBJVAR]. *)
Lemma pl_step_after_keyword (c : ascii) (st st' : pl_state) :
  pl_stage st = PARSING_ARGUMENTS \/ pl_stage st = PARSING_SET_OBJVAR ->
  pl_step CMS AMS AAMS c st = Ret (PlNext st') ->
  pl_stage st' = PARSING_ARGUMENTS \/ pl_stage st' = PARSING_SET_OBJVAR.
Proof.
  intros Hs H. unfold pl_step in H. destruct Hs as [Hs|Hs]; rewrite Hs in H.
  - destruct (c =? ",")%char.
    { apply bind_ret in H. destruct H as [st1 [_ H]].
      apply bind_ret in H. destruct H as [ca [_ H]].
      cbn [pl_argc] in H. destruct (pl_argc st1 =? AAMS); inversion H. left. reflexivity. }
    destruct (is_blank c).
    { inversion H. subst st'. left. exact Hs. }
    destruct (c =? "=")%char.
    { apply bind_ret in H. destruct H as [st1 [_ H]]. inversion H. right. reflexivity. }
    destruct (pl_cur_cpos st + 1 <? AMS); [|discriminate H].
    apply bind_ret in H. destruct H as [[b p] [_ H]]. inversion H. left. reflexivity.
  - destruct (pl_cur_cpos st =? 0).
    + destruct (negb (c =? " ")%char && negb (c =? "009")%char && negb (c =? "&")%char);
        [discriminate H|].
      destruct (c =? "&")%char.
      * apply bind_ret in H. destruct H as [[b p] [_ H]]. inversion H. right. reflexivity.
      * inversion H. subst st'. right. exact Hs.
    + destruct (is_blank c).
      * inversion H. subst st'. right. exact Hs.
      * apply bind_ret in H. destruct H as [[b p] [_ H]]. inversion H. right. reflexivity.
Qed.

Lemma pl_scan_drop_blanks (s : string) :
  forall st : pl_state,
    pl_stage st = PARSING_ARGUMENTS \/ pl_stage st = PARSING_SET_OBJVAR ->
    pl_scan CMS AMS AAMS s st = pl_scan CMS AMS AAMS (drop_blanks s) st.
Proof.
  induction s as [|c s IH]; intros st Hs; [reflexivity|].
  cbn [drop_blanks]. destruct (is_blank c) eqn:Hb.
  - destruct (blank_facts c Hb) as [Hz [Hh _]].
    rewrite pl_scan_cons, Hz, Hh, (pl_step_blank c st Hb Hs). cbn [bind].
    apply IH. exact Hs.
  - rewrite !pl_scan_cons. destruct (is_nul c); [reflexivity|].
    destruct (c =? "#")%char; [reflexivity|].
    destruct (pl_step CMS AMS AAMS c st) as [[st'|v st']| |] eqn:E; cbn [bind];
      try reflexivity.
    apply IH. exact (pl_step_after_keyword c st st' Hs E).
Qed.

Lemma pl_scan_squeeze (s : string) :
  forall st : pl_state,
    pl_stage st = PARSING_COMMAND ->
    pl_scan CMS AMS AAMS s st = pl_scan CMS AMS AAMS (squeeze s) st.
Proof.
  induction s as [|c s IH]; intros st Hs; [reflexivity|].
  cbn [squeeze]. destruct (is_blank c) eqn:Hb.
  - rewrite !pl_scan_cons. destruct (is_nul c); [reflexivity|].
    destruct (c =? "#")%char; [reflexivity|].
    destruct (pl_step CMS AMS AAMS c st) as [[st'|v st']| |] eqn:E; cbn [bind];
      try reflexivity.
    apply pl_scan_drop_blanks.
    unfold pl_step in E. rewrite Hs, Hb in E.
    apply bind_ret in E. destruct E as [b [_ E]].
    apply bind_ret in E. destruct E as [cmd [_ E]].
    inversion E. left. reflexivity.
  - rewrite !pl_scan_cons. destruct (is_nul c); [reflexivity|].
    destruct (c =? "#")%char; [reflexivity|].
    destruct (pl_step CMS AMS AAMS c st) as [[st'|v st']| |] eqn:E; cbn [bind];
      try reflexivity.
    apply IH.
    unfold pl_step in E. rewrite Hs, Hb in E.
    destruct (pl_cur_cpos st + 1 <? CMS); [|discriminate E].
    apply bind_ret in E. destruct E as [b [_ E]]. inversion E. reflexivity.
Qed.

(** X20: Spaces and tabs after the one that ends the keyword are not
    significant: [parse_line] and [parse_command] do on a line what they
    do on the line without them. *)
Theorem blanks_after_keyword_are_ignored (VMS : Z) (line : string) (command : buffer)
    (arguments : cells string) (e : engine) :
  parse_line CMS AMS AAMS line command arguments
  = parse_line CMS AMS AAMS (squeeze line) command arguments
  /\ parse_command CMS AMS AAMS VMS line e
     = parse_command CMS AMS AAMS VMS (squeeze line) e.
Proof.
  assert (P : forall cmd args,
             parse_line CMS AMS AAMS line cmd args
             = parse_line CMS AMS AAMS (squeeze line) cmd args).
  { intros cmd args. unfold parse_line.
    destruct (store CMS cmd 0 NUL) as [c0| |]; cbn [bind]; try reflexivity.
    rewrite (pl_scan_squeeze line) by reflexivity. reflexivity. }
  split; [apply P|].
  unfold parse_command. destruct line as [|c r]; [reflexivity|].
  rewrite (P [] []). cbn [squeeze].
  destruct (is_blank c); reflexivity.
Qed.

End Blanks.

(** ** Malformed argument lists *)

Section Malformed.
Variable CMS AMS AAMS VMS : Z.

(** X21: After the equals sign only blanks may stand before the ampersand. *)
Theorem capture_needs_ampersand (kw : string) (init : list string) (last : string)
    (c : ascii) (rest : string) :
  all_chars word_char kw = true ->
  Z.of_nat (String.length kw) < CMS -> CMS <= 65536 ->
  Forall plain_arg (init ++ [last]) ->
  Forall (fun a => Z.of_nat (String.length a) < AMS) (init ++ [last]) ->
  AMS <= 65536 ->
  Z.of_nat (List.length init) < AAMS ->
  is_nul c = false -> c <> "#"%char -> is_blank c = false -> c <> "&"%char ->
  tokenize CMS AMS AAMS
    (kw ++ String " " (args_then_comma init ++ last ++ String "=" (String c rest)))
  = Ret None.
Proof.
  intros Hk Hkl Hcm Hp Hl Ham Hn Hz Hh Hb Ha.
  apply Forall_app in Hp. destruct Hp as [Hpi Hlast]. apply Forall_inv in Hlast.
  apply Forall_app in Hl. destruct Hl as [Hli Hlen]. apply Forall_inv in Hlen.
  apply Ascii.eqb_neq in Hh, Ha.
  unfold is_blank in Hb. apply orb_false_iff in Hb. destruct Hb as [Hb1 Hb2].
  unfold tokenize, parse_line. rewrite store_in by lia. cbn [bind Z.to_nat set_cell].
  destruct (pl_scan_keyword_blank CMS AMS AAMS kw " "
              (args_then_comma init ++ last ++ String "=" (String c rest))
              Hk eq_refl Hkl Hcm) as [tl E].
  rewrite E. clear E.
  destruct (pl_scan_args_comma CMS AMS AAMS init [] [] (chars kw ++ Some NUL :: tl)
              (last ++ String "=" (String c rest)) Hpi Hli Ham) as [tl1 E];
    [cbn [List.length Nat.add]; lia|].
  cbn [List.length Nat.add map app] in E. change (Z.of_nat 0) with 0 in E.
  rewrite E. clear E.
  destruct (pl_scan_arg CMS AMS AAMS last tl1 (Z.of_nat (List.length init))
              (chars kw ++ Some NUL :: tl) (map Some init) (String "=" (String c rest))
              Hlast Hlen Ham) as [tl2 E].
  rewrite E. clear E.
  rewrite pl_scan_cons. change (is_nul "=") with false.
  change ("=" =? "#")%char with false. cbv beta iota.
  unfold pl_step at 1.
  cbn [pl_stage pl_cur_cpos pl_command pl_argc pl_cur_arg pl_arguments].
  change ("=" =? ",")%char with false. change (is_blank "=") with false.
  change ("=" =? "=")%char with true. cbv beta iota.
  destruct Hlast as [_ Hla].
  rewrite (pl_store_arg_plain AAMS last tl2 _ _ _ _ init (all_arg_word last Hla) eq_refl)
    by lia.
  cbn [bind pl_stage pl_cur_cpos pl_command pl_argc pl_cur_arg pl_arguments].
  rewrite pl_scan_cons, Hz, Hh.
  unfold pl_step at 1.
  cbn [pl_stage pl_cur_cpos pl_command pl_argc pl_cur_arg pl_arguments].
  change (0 =? 0) with true. rewrite Hb1, Hb2, Ha. cbn [negb andb bind].
  reflexivity.
Qed.

(** X22: A comma or an equals sign right after the blank that ends the keyword
    stores an argument before any was read: [chomp] is called on the
    unwritten [cur_arg]. *)
Theorem empty_first_argument_reads_cur_arg (kw : string) (c : ascii) (rest : string)
    (e : engine) :
  all_chars word_char kw = true -> kw <> "" ->
  Z.of_nat (String.length kw) < CMS -> CMS <= 65536 ->
  c = ","%char \/ c = "="%char ->
  parse_line CMS AMS AAMS (kw ++ String " " (String c rest)) [] []
  = Undef IndeterminateRead
  /\ parse_command CMS AMS AAMS VMS (kw ++ String " " (String c rest)) e
     = Undef IndeterminateRead.
Proof.
  intros Hk Hne Hkl Hcm Hc.
  assert (P : parse_line CMS AMS AAMS (kw ++ String " " (String c rest)) [] []
              = Undef IndeterminateRead).
  { unfold parse_line. rewrite store_in by lia. cbn [bind Z.to_nat set_cell].
    destruct (pl_scan_keyword_blank CMS AMS AAMS kw " " (String c rest)
                Hk eq_refl Hkl Hcm) as [tl E].
    rewrite E. clear E.
    destruct Hc as [-> | ->]; reflexivity. }
  split; [exact P|].
  unfold parse_command. destruct kw as [|k kw]; [congruence|].
  cbn [append] in *. cbn [all_chars] in Hk. apply andb_prop in Hk. destruct Hk as [Hk0 _].
  destruct (word_char_facts k Hk0) as [Hz [Hh _]].
  rewrite Hz, Hh. cbn [orb]. rewrite P. reflexivity.
Qed.

(** X23: The number of arguments is not compared with what the command
    needs.  With one argument only, [set] hands the unwritten [argv[1]]
    to [set_variable], which reads through it for the types [$], [@] and
    [&] and ends the program with the message for an invalid type for
    any other type character; [line] hands it to [parse_coordinates],
    which reads through it. *)
Theorem missing_argument_reads_argv (t : ascii) (name a0 : string) (c0 : coord_t)
    (e : engine) :
  plain_arg (String t name) -> Z.of_nat (String.length (String t name)) < AMS ->
  plain_arg a0 -> Z.of_nat (String.length a0) < AMS -> AMS <= 65536 ->
  5 <= CMS <= 65536 -> 2 <= AAMS ->
  parse_coordinates AMS a0 None = Ret c0 ->
  (t = "$"%char \/ t = "@"%char \/ t = "&"%char ->
   parse_command CMS AMS AAMS VMS ("set " ++ String t name) e = Undef IndeterminateRead)
  /\ (t <> "$"%char -> t <> "@"%char -> t <> "&"%char ->
      parse_command CMS AMS AAMS VMS ("set " ++ String t name) e
      = Exit (InvalidVariableType t name))
  /\ parse_command CMS AMS AAMS VMS ("line " ++ a0) e = Undef IndeterminateRead.
Proof.
  intros Ht Lt H0 L0 Ham Hcm Haa P0.
  assert (S : parse_command CMS AMS AAMS VMS ("set " ++ String t name) e
              = (e' <- set_variable AMS (String t name) None e ;; Ret (true, e'))).
  { destruct (parse_line_plain CMS AMS AAMS "set" [] (String t name)) as [tl E];
      [ reflexivity | cbn; lia | lia | forall_args | forall_args | lia | cbn; lia | ].
    cbn [args_then_comma List.length app append] in E.
    change (Z.of_nat 0 + 1) with 1 in E.
    unfold parse_command. cbn [append].
    change (is_nul "s" || ("s" =? "#")%char) with false. cbv beta iota.
    rewrite E. clear E. cbn [bind].
    change (0 <=? 1) with true. cbv beta iota.
    rewrite load_string_chars by reflexivity. cbn [bind].
    change (0 <? is_obj_command "set") with false.
    change ("set" =? "set")%string with true. cbv beta iota.
    rewrite load_in, load_cell_in by lia.
    change (Z.to_nat 0) with 0%nat. change (Z.to_nat 1) with 1%nat.
    cbn [map nth_error bind]. reflexivity. }
  destruct Ht as [_ Ht]. cbn [all_chars] in Ht. apply andb_prop in Ht.
  destruct Ht as [Ht Hnm].
  destruct (arg_char_facts t Ht) as [Hw _].
  destruct (word_char_facts t Hw) as [Hz _].
  destruct (all_word_plain name (all_arg_word name Hnm)) as [Hnn _].
  split; [|split].
  - intros Hk. rewrite S. unfold set_variable. rewrite Hz.
    destruct Hk as [-> | [-> | ->]]; reflexivity.
  - intros N1 N2 N3. rewrite S. unfold set_variable. rewrite Hz, c_str_id by exact Hnn.
    apply Ascii.eqb_neq in N1, N2, N3. rewrite N1, N2, N3. reflexivity.
  - destruct (parse_line_plain CMS AMS AAMS "line" [] a0) as [tl E];
      [ reflexivity | cbn; lia | lia | forall_args | forall_args | lia | cbn; lia | ].
    cbn [args_then_comma List.length app append] in E.
    change (Z.of_nat 0 + 1) with 1 in E.
    unfold parse_command. cbn [append].
    change (is_nul "l" || ("l" =? "#")%char) with false. cbv beta iota.
    rewrite E. clear E. cbn [bind].
    change (0 <=? 1) with true. cbv beta iota.
    rewrite load_string_chars by reflexivity. cbn [bind].
    change (is_obj_command "line") with TYPE_LINE.
    change (0 <? TYPE_LINE) with true. cbv beta iota.
    unfold create_object, build_object.
    change (TYPE_LINE =? TYPE_LINE) with true. cbv beta iota.
    rewrite !load_in by (change (to_char 1 - 1) with 0; lia).
    change (Z.to_nat 0) with 0%nat. change (Z.to_nat 1) with 1%nat.
    cbn [map nth_error bind]. rewrite P0. cbn [bind]. reflexivity.
Qed.

(** X24: Two commas in a row: the second one stores the empty string at the
    index of the argument before it, which is lost. *)
Theorem empty_argument_erases_previous (kw a b : string) :
  all_chars word_char kw = true ->
  Z.of_nat (String.length kw) < CMS -> CMS <= 65536 ->
  plain_arg a -> plain_arg b ->
  Z.of_nat (String.length a) < AMS -> Z.of_nat (String.length b) < AMS ->
  AMS <= 65536 -> 2 <= AAMS ->
  tokenize CMS AMS AAMS (kw ++ String " " (a ++ String "," (String "," b)))
  = Ret (Some (kw, [""; b])).
Proof.
  intros Hk Hkl Hcm Ha Hb La Lb Ham Haa.
  destruct (all_word_plain kw Hk) as [Hnn _].
  unfold tokenize, parse_line. rewrite store_in by lia. cbn [bind Z.to_nat set_cell].
  destruct (pl_scan_keyword_blank CMS AMS AAMS kw " " (a ++ String "," (String "," b))
              Hk eq_refl Hkl Hcm) as [tl E].
  rewrite E. clear E.
  destruct (pl_scan_arg CMS AMS AAMS a [] 0 (chars kw ++ Some NUL :: tl) []
              (String "," (String "," b)) Ha La Ham) as [tl1 E].
  rewrite E. clear E.
  (* the first comma *)
  rewrite pl_scan_cons. change (is_nul ",") with false.
  change ("," =? "#")%char with false. cbv beta iota.
  unfold pl_step at 1.
  cbn [pl_stage pl_cur_cpos pl_command pl_argc pl_cur_arg pl_arguments].
  change ("," =? ",")%char with true. cbv beta iota.
  destruct Ha as [Hane Haa0].
  change (@nil (option string)) with (map (@Some string) []).
  rewrite (pl_store_arg_plain AAMS a tl1 0 _ _ _ [] (all_arg_word a Haa0) eq_refl) by lia.
  cbn [bind pl_stage pl_cur_cpos pl_command pl_argc pl_cur_arg pl_arguments app map].
  rewrite store_in by lia. cbn [bind].
  replace (0 + 1 =? AAMS) with false by (symmetry; apply Z.eqb_neq; lia).
  cbn [bind].
  (* the second comma *)
  rewrite pl_scan_cons. change (is_nul ",") with false.
  change ("," =? "#")%char with false. cbv beta iota.
  unfold pl_step at 1.
  cbn [pl_stage pl_cur_cpos pl_command pl_argc pl_cur_arg pl_arguments].
  change ("," =? ",")%char with true. cbv beta iota.
  destruct a as [|a0 a']; [congruence|].
  change (set_cell (chars (String a0 a') ++ Some NUL :: tl1) (Z.to_nat 0) NUL)
    with (chars "" ++ Some NUL :: (chars a' ++ Some NUL :: tl1)).
  unfold pl_store_arg at 1.
  cbn [pl_stage pl_cur_cpos pl_command pl_argc pl_cur_arg pl_arguments].
  rewrite chomp_plain by reflexivity. cbn [bind].
  rewrite load_string_chars by reflexivity. cbn [bind].
  rewrite store_in by lia. cbn [bind].
  change (set_cell [Some (String a0 a')] (Z.to_nat (0 + 1 - 1)) "") with [Some ""].
  cbn [pl_stage pl_cur_cpos pl_command pl_argc pl_cur_arg pl_arguments].
  rewrite store_in by lia. cbn [bind].
  cbn [pl_stage pl_cur_cpos pl_command pl_argc pl_cur_arg pl_arguments].
  replace (0 + 1 =? AAMS) with false by (symmetry; apply Z.eqb_neq; lia).
  cbn [bind].
  (* the last argument *)
  match goal with
  | |- context [pl_scan CMS AMS AAMS b
                  {| pl_stage := _; pl_cur_cpos := _; pl_argc := ?k; pl_cur_arg := ?ca;
                     pl_command := ?cmd; pl_arguments := ?ar |}] =>
      destruct (pl_scan_arg CMS AMS AAMS b ca k cmd ar "" Hb Lb Ham) as [tl2 E]
  end.
  rewrite app_empty_r in E. rewrite E. clear E.
  cbn [pl_scan bind]. unfold pl_finish.
  cbn [pl_stage pl_argc pl_cur_cpos pl_cur_arg pl_command pl_arguments].
  change (0 <? 0 + 1 + 1) with true. cbv beta iota.
  destruct Hb as [_ Hb0].
  change [Some ""] with (map (@Some string) [""]).
  rewrite (pl_store_arg_plain AAMS b tl2 (0 + 1) _ _ _ [""] (all_arg_word b Hb0) eq_refl)
    by (cbn [List.length]; lia).
  cbn [bind pl_stage pl_argc pl_cur_cpos pl_cur_arg pl_command pl_arguments app].
  change (0 <=? 0 + 1 + 1) with true. cbv beta iota.
  rewrite load_string_chars by exact Hnn. cbn [bind].
  change (Z.to_nat (0 + 1 + 1)) with 2%nat.
  cbn [read_args map]. rewrite !load_in by lia.
  change (Z.to_nat 0) with 0%nat. change (Z.to_nat (0 + 1)) with 1%nat.
  cbn [nth_error bind]. reflexivity.
Qed.

End Malformed.

Lemma capture_needs_ampersand_witness :
  tokenize 16 30 5 "line x0;y0,w5=base" = Ret None.
Proof.
  apply (capture_needs_ampersand 16 30 5 "line" ["x0;y0"] "w5" "b" "ase").
  - reflexivity.
  - simpl. lia.
  - lia.
  - repeat (apply Forall_cons; [split; [discriminate | reflexivity]|]). apply Forall_nil.
  - repeat (apply Forall_cons; [simpl; lia|]). apply Forall_nil.
  - lia.
  - simpl. lia.
  - reflexivity.
  - discriminate.
  - reflexivity.
  - discriminate.
Defined.

Lemma empty_first_argument_reads_cur_arg_witness :
  parse_line 16 30 5 "line ,x0;y0" [] [] = Undef IndeterminateRead
  /\ parse_command 16 30 5 10 "line ,x0;y0" nanocad_init = Undef IndeterminateRead.
Proof.
  apply (empty_first_argument_reads_cur_arg 16 30 5 10 "line" "," "x0;y0" nanocad_init);
    [ reflexivity | discriminate | simpl; lia | lia | left; reflexivity ].
Defined.

Lemma missing_argument_reads_argv_witness :
  parse_command 16 30 5 10 "set $a" nanocad_init = Undef IndeterminateRead
  /\ parse_command 16 30 5 10 "line x5" nanocad_init = Undef IndeterminateRead.
Proof.
  destruct (missing_argument_reads_argv 16 30 5 10 "$" "a" "x5" {| x := 5; y := 0 |}
              nanocad_init) as [S [_ L]];
    [ split; [discriminate | reflexivity] | simpl; lia
    | split; [discriminate | reflexivity] | simpl; lia | lia | lia | lia
    | vm_compute; reflexivity | ].
  split; [apply S; left; reflexivity | exact L].
Defined.

Lemma empty_argument_erases_previous_witness :
  tokenize 16 30 5 "line x0;y0,,w5" = Ret (Some ("line", [""; "w5"])).
Proof.
  apply (empty_argument_erases_previous 16 30 5 "line" "x0;y0" "w5");
    [ reflexivity | simpl; lia | lia | split; [discriminate | reflexivity]
    | split; [discriminate | reflexivity] | simpl; lia | simpl; lia | lia | lia ].
Defined.

(** ** The tokenizer on every line *)

Section TokenizerLines.
Variable CMS AMS AAMS : Z.

(** A tab does what a space does. *)
Lemma pl_step_blank_kind (b : ascii) (st : pl_state) :
  is_blank b = true ->
  pl_step CMS AMS AAMS b st = pl_step CMS AMS AAMS " " st.
Proof.
  unfold is_blank. intros H. apply orb_prop in H.
  destruct H as [H|H]; apply Ascii.eqb_eq in H; subst b; [reflexivity|].
  unfold pl_step. destruct (pl_stage st); reflexivity.
Qed.

Lemma pl_scan_blank_kind (b : ascii) (rest : string) (kw : string) :
  is_blank b = true ->
  forall st : pl_state,
    pl_scan CMS AMS AAMS (kw ++ String b rest) st
    = pl_scan CMS AMS AAMS (kw ++ String " " rest) st.
Proof.
  intros Hb. induction kw as [|c kw IH]; intros st; cbn [append].
  - rewrite !pl_scan_cons. destruct (blank_facts b Hb) as [Hz [Hh _]].
    rewrite Hz, Hh, (pl_step_blank_kind b st Hb). reflexivity.
  - rewrite !pl_scan_cons. destruct (is_nul c); [reflexivity|].
    destruct (c =? "#")%char; [reflexivity|].
    destruct (pl_step CMS AMS AAMS c st) as [[st'|v st']| |]; cbn [bind];
      try reflexivity.
    apply IH.
Qed.

(** The tokenizer reads a line as it reads the line without the blanks
    that follow the keyword's separator, and a tab separator as a
    space. *)
Lemma tokenize_squeezed (line kw : string) (b : ascii) (rest : string) :
  is_blank b = true ->
  squeeze line = (kw ++ String b rest)%string ->
  tokenize CMS AMS AAMS line = tokenize CMS AMS AAMS (kw ++ String " " rest).
Proof.
  intros Hb Hs. unfold tokenize, parse_line.
  destruct (store CMS [] 0 NUL) as [c0| |]; cbn [bind]; try reflexivity.
  rewrite (pl_scan_squeeze CMS AMS AAMS line) by reflexivity.
  rewrite Hs, (pl_scan_blank_kind b rest kw Hb). reflexivity.
Qed.

(** C4: the Line Tokenizer splits a line into the keyword and the
    comma-separated arguments, and a capture suffix becomes one more
    argument: on the two reference lines, and on every line that, the
    spaces and tabs after the keyword's separator aside, is a keyword,
    a space or a tab, and arguments separated by commas, with or
    without [=&name] after the last one, within the three limits. *)
Theorem tokenize_reference_lines :
  5 <= CMS -> 10 <= AMS -> 3 <= AAMS ->
  tokenize CMS AMS AAMS "line x0mm;y0mm, w10mm"
  = Ret (Some ("line", ["x0mm;y0mm"; "w10mm"]))
  /\ tokenize CMS AMS AAMS "line x0mm;y0mm, w10mm = &wall1"
     = Ret (Some ("line", ["x0mm;y0mm"; "w10mm"; "&wall1"]))
  /\ (forall (line kw : string) (b : ascii) (args : list string),
        all_chars word_char kw = true ->
        Z.of_nat (String.length kw) < CMS -> CMS <= 65536 ->
        Forall plain_arg args ->
        Forall (fun a => Z.of_nat (String.length a) < AMS) args ->
        AMS <= 65536 ->
        Z.of_nat (List.length args) <= AAMS ->
        is_blank b = true ->
        squeeze line = (kw ++ String b (join_args args))%string ->
        tokenize CMS AMS AAMS line = Ret (Some (kw, args)))
  /\ (forall (line kw : string) (b : ascii) (args : list string) (last name : string),
        all_chars word_char kw = true ->
        Z.of_nat (String.length kw) < CMS -> CMS <= 65536 ->
        Forall plain_arg (args ++ [last]) ->
        Forall (fun a => Z.of_nat (String.length a) < AMS) (args ++ [last]) ->
        all_chars word_char name = true ->
        Z.of_nat (String.length name) + 1 < AMS ->
        AMS <= 65536 ->
        Z.of_nat (List.length args) + 1 < AAMS ->
        is_blank b = true ->
        squeeze line
        = (kw ++ String b (join_args (args ++ [last]) ++ String "=" (String "&" name)))%string ->
        tokenize CMS AMS AAMS line = Ret (Some (kw, args ++ [last; String "&" name]))).
Proof.
  intros HC HA HN.
  split; [unfold tokenize, parse_line; evaluate; reflexivity|].
  split; [unfold tokenize, parse_line; evaluate; reflexivity|].
  split.
  - intros line kw b args Hk Hkl Hcm Hp Hl Ham Hn Hb Hs.
    rewrite (tokenize_squeezed line kw b _ Hb Hs).
    apply tokenize_plain; assumption.
  - intros line kw b args last name Hk Hkl Hcm Hp Hl Hname Hnl Ham Hn Hb Hs.
    rewrite (tokenize_squeezed line kw b _ Hb Hs).
    apply tokenize_capture; assumption.
Qed.

End TokenizerLines.

Lemma tokenize_reference_lines_witness :
  tokenize 16 30 5 "line x0mm;y0mm, w10mm"
  = Ret (Some ("line", ["x0mm;y0mm"; "w10mm"]))
  /\ tokenize 16 30 5 "line x0mm;y0mm, w10mm = &wall1"
     = Ret (Some ("line", ["x0mm;y0mm"; "w10mm"; "&wall1"]))
  /\ tokenize 16 30 5 (String "s" (String "e" (String "t" (String "009" "$a ,  1.5"))))
     = Ret (Some ("set", ["$a"; "1.5"]))
  /\ tokenize 16 30 5 "line x5 , h20 = & base"
     = Ret (Some ("line", ["x5"; "h20"; "&base"])).
Proof.
  destruct (tokenize_reference_lines 16 30 5) as [R1 [R2 [G C]]]; [lia | lia | lia |].
  split; [exact R1|]. split; [exact R2|]. split.
  - apply (G _ "set" "009"%char ["$a"; "1.5"]).
    + reflexivity.
    + simpl. lia.
    + lia.
    + repeat (apply Forall_cons; [split; [discriminate | reflexivity]|]). apply Forall_nil.
    + repeat (apply Forall_cons; [simpl; lia|]). apply Forall_nil.
    + lia.
    + simpl. lia.
    + reflexivity.
    + reflexivity.
  - apply (C _ "line" " "%char ["x5"] "h20" "base").
    + reflexivity.
    + simpl. lia.
    + lia.
    + repeat (apply Forall_cons; [split; [discriminate | reflexivity]|]). apply Forall_nil.
    + repeat (apply Forall_cons; [simpl; lia|]). apply Forall_nil.
    + reflexivity.
    + simpl. lia.
    + lia.
    + simpl. lia.
    + reflexivity.
    + reflexivity.
Defined.
